(** * cursorRegister: the persistence gateway, the refresh worker and the
      manual backup, embedded from [db.py], [tab/manageTab.py] and
      [tab/registerTab.py].

    Python values are modelled by the data the code manipulates: [str] by
    [string] (one [ascii] per character), [int] by [Z], [dict] by [gmap] or,
    for decoded JSON, by an association list, exceptions by a result type
    carrying the exception class and its message.  Calls into libraries
    (psycopg2, csv, requests, base64, json) are modelled by what the code
    relies on; where a library function is not modelled it is a [Variable]
    of the enclosing [Section]. *)

From Stdlib Require Import ZArith Lia Bool Ascii.
From stdpp Require Import base option list gmap strings pretty.

Set Default Proof Using "Type".
Local Open Scope Z_scope.

(** ** Python: exceptions, truthiness and the string methods the code calls *)
Module Py.

Inductive exn_class :=
| ValueError | TypeError | AttributeError | IndexError | StopIteration
| OSError | PoolError | DatabaseError | ProgrammingError
| RequestException | BinasciiError | JSONDecodeError | TclError.

Record exn := Exn { exn_kind : exn_class; exn_msg : string }.

(** A Python call either returns or raises. *)
Inductive res (A : Type) :=
| Ok (a : A)
| Raise (e : exn).
Arguments Ok {A} a.
Arguments Raise {A} e.

Definition bind {A B} (r : res A) (k : A -> res B) : res B :=
  match r with
  | Ok a => k a
  | Raise e => Raise e
  end.

Definition is_ok {A} (r : res A) : bool :=
  match r with Ok _ => true | Raise _ => false end.

(** [str(e)] of an exception built from one message. *)
Definition str_exn (e : exn) : string := exn_msg e.

(** [str(n)] and [f"{n}"] of an [int]. *)
Definition str_int (n : Z) : string := pretty n.

(** [bool(s)] of a [str]. *)
Definition truthy_str (s : string) : bool :=
  match s with EmptyString => false | String _ _ => true end.

Fixpoint startswith (s p : string) : bool :=
  match p, s with
  | EmptyString, _ => true
  | String c p', String d s' => if Ascii.eqb c d then startswith s' p' else false
  | String _ _, EmptyString => false
  end.

Definition endswith (s p : string) : bool :=
  startswith (String.rev s) (String.rev p).

(** [p in s] on strings. *)
Fixpoint contains (s p : string) : bool :=
  startswith s p ||
  match s with
  | EmptyString => false
  | String _ s' => contains s' p
  end.

Fixpoint drop (n : nat) (s : string) : string :=
  match n, s with
  | O, _ => s
  | S n', String _ s' => drop n' s'
  | S _, EmptyString => EmptyString
  end.

(** [s.split(sep)] for a non-empty separator: [cur] holds, reversed, the
    characters of the piece being read. *)
Fixpoint split_go (fuel : nat) (sep : string) (cur : string) (s : string) : list string :=
  match fuel with
  | O => [String.rev cur +:+ s]
  | S fuel' =>
      match s with
      | EmptyString => [String.rev cur]
      | String c s' =>
          if startswith s sep
          then String.rev cur :: split_go fuel' sep EmptyString (drop (String.length sep) s)
          else split_go fuel' sep (String c cur) s'
      end
  end.

Definition split (s sep : string) : list string :=
  split_go (S (String.length s)) sep EmptyString s.

(** [s.split(sep, 1)]: at most one cut, at the first occurrence. *)
Fixpoint split1_go (sep : string) (cur : string) (s : string) : list string :=
  match s with
  | EmptyString => [String.rev cur]
  | String c s' =>
      if startswith s sep
      then [String.rev cur; drop (String.length sep) s]
      else split1_go sep (String c cur) s'
  end.

Definition split1 (s sep : string) : list string := split1_go sep EmptyString s.

(** [parts[-1]] of a non-empty list ([split] never returns an empty one). *)
Definition last_part (parts : list string) : string := List.last parts EmptyString.

Fixpoint lstrip_by (p : ascii -> bool) (s : string) : string :=
  match s with
  | EmptyString => EmptyString
  | String c s' => if p c then lstrip_by p s' else s
  end.

Definition strip_by (p : ascii -> bool) (s : string) : string :=
  String.rev (lstrip_by p (String.rev (lstrip_by p s))).

(** The ASCII characters [str.isspace] accepts: tab to carriage return,
    the four separators 28 to 31, and the space. *)
Definition is_space (c : ascii) : bool :=
  let n := nat_of_ascii c in
  ((9 <=? n) && (n <=? 13) || (28 <=? n) && (n <=? 32))%nat.

(** [s.strip()]: white space on both ends. *)
Definition strip (s : string) : string := strip_by is_space s.

(** [s.strip(c)] for a one-character argument. *)
Definition strip_char (c : ascii) (s : string) : string := strip_by (Ascii.eqb c) s.

Fixpoint repeat_char (c : ascii) (n : nat) : string :=
  match n with
  | O => EmptyString
  | S n' => String c (repeat_char c n')
  end.

Fixpoint join (sep : string) (l : list string) : string :=
  match l with
  | [] => EmptyString
  | [x] => x
  | x :: rest => x +:+ sep +:+ join sep rest
  end.

End Py.
Export Py.

(** ** psycopg2's [ThreadedConnectionPool], as [db.py] uses it *)
Module Pool.

(** [used]: the keys of the connections handed out and not yet put back.
    [getconn_calls] counts the calls to [getconn]; it is bookkeeping of the
    model, used to state how often the code asks the pool. *)
Record t := mk {
  maxconn : nat;
  used : list nat;
  keys : nat;
  getconn_calls : nat
}.

Definition create (maxconn : nat) : t :=
  {| maxconn := maxconn; used := []; keys := 0; getconn_calls := 0 |}.

(** [pool.getconn()]: a new key while fewer than [maxconn] connections are
    out, [PoolError] otherwise. *)
Definition getconn (p : t) : res nat * t :=
  if (length (used p) <? maxconn p)%nat
  then (Ok (keys p),
        {| maxconn := maxconn p; used := keys p :: used p;
           keys := S (keys p); getconn_calls := S (getconn_calls p) |})
  else (Raise (Exn PoolError "connection pool exhausted"),
        {| maxconn := maxconn p; used := used p;
           keys := keys p; getconn_calls := S (getconn_calls p) |}).

Fixpoint remove_first (c : nat) (l : list nat) : list nat :=
  match l with
  | [] => []
  | x :: l' => if (x =? c)%nat then l' else x :: remove_first c l'
  end.

(** [pool.putconn(conn)]. *)
Definition putconn (c : nat) (p : t) : res unit * t :=
  if bool_decide (c ∈ used p)
  then (Ok tt,
        {| maxconn := maxconn p; used := remove_first c (used p);
           keys := keys p; getconn_calls := getconn_calls p |})
  else (Raise (Exn PoolError "trying to put unkeyed connection"), p).

Definition exhausted (p : t) : Prop := (maxconn p <= length (used p))%nat.

End Pool.

(** ** Values, statements and cursors exchanged with the server *)

(** A query parameter or a fetched column: [None], an [int], a [str] or a
    [datetime] (its clock reading). *)
Inductive value :=
| VNull
| VInt (z : Z)
| VText (s : string)
| VTime (t : Z).

Global Instance value_eq_dec : EqDecision value.
Proof. solve_decision. Defined.

(** [bool(v)]. *)
Definition truthy (v : value) : bool :=
  match v with
  | VNull => false
  | VInt z => negb (z =? 0)
  | VText s => truthy_str s
  | VTime _ => true
  end.

(** A fetched row. *)
Abbreviation tuple := (list value).

(** [bool(x)] of an optional [str] argument ([None] or [str]). *)
Definition truthy_opt_str (o : option string) : bool :=
  match o with Some s => truthy_str s | None => false end.

(** [bool(x)] of an optional [int] argument ([None] or [int]). *)
Definition truthy_opt_int (o : option Z) : bool :=
  match o with Some n => negb (n =? 0) | None => false end.

(** The pieces [select] interpolates into its statement; a clause that was
    not appended is [None]. *)
Record select_stmt := mkSelect {
  sel_columns : string;
  sel_table : string;
  sel_where : option string;
  sel_order_by : option string;
  sel_limit : option Z;
  sel_offset : option Z
}.

Definition clause (kw : string) (o : option string) : string :=
  match o with Some s => kw +:+ s | None => "" end.

(** The text [select] sends. *)
Definition select_sql (q : select_stmt) : string :=
  "SELECT " +:+ sel_columns q +:+ " FROM " +:+ sel_table q
  +:+ clause " WHERE " (sel_where q)
  +:+ clause " ORDER BY " (sel_order_by q)
  +:+ clause " LIMIT " (str_int <$> sel_limit q)
  +:+ clause " OFFSET " (str_int <$> sel_offset q).

(** A statement with its parameters.  [QInsert] and [QUpdate] stand for
    [INSERT INTO t (keys) VALUES (%s, ...)] and
    [UPDATE t SET key = %s, ... WHERE condition] built from a [dict]. *)
Inductive query :=
| QSelect (q : select_stmt) (params : option (list value))
| QInsert (table : string) (data : gmap string value) (returning_id : bool)
| QUpdate (table : string) (data : gmap string value)
    (condition : string) (condition_params : list value)
| QDelete (table : string) (condition : string) (condition_params : list value)
| QCreateTable (table : string) (columns : list string).

(** What a cursor holds after [execute]: the result set, when the statement
    returns rows, and [rowcount]. *)
Record cursor := mkCursor {
  cur_rows : option (list tuple);
  rowcount : Z
}.

Definition fetchone (c : cursor) : res (option tuple) :=
  match cur_rows c with
  | None => Raise (Exn ProgrammingError "no results to fetch")
  | Some rows => Ok (head rows)
  end.

Definition fetchall (c : cursor) : res (list tuple) :=
  match cur_rows c with
  | None => Raise (Exn ProgrammingError "no results to fetch")
  | Some rows => Ok rows
  end.

(** The three shapes [execute_query] returns. *)
Inductive fetched :=
| FOne (row : option tuple)
| FAll (rows : list tuple)
| FCount (n : Z).

(** ** [db.py]: class [NeonDB] *)

(** The effects of [NeonDB.__init__]: calls to the pool constructor and
    [time.sleep]. *)
Inductive init_event :=
| CreatePool
| Sleep (seconds : nat).

(** The gateway object ([self.pool], [self.max_retries]) together with the
    server it talks to. *)
Record neon (DB : Type) := mkNeon {
  nd_pool : Pool.t;
  nd_db : DB;
  max_retries : nat
}.
Arguments mkNeon {DB} _ _ _.
Arguments nd_pool {DB} _.
Arguments nd_db {DB} _.
Arguments max_retries {DB} _.

(** The connections a gateway holds outside the pool. *)
Definition in_use {DB} (s : neon DB) : list nat := Pool.used (nd_pool s).

(** The gateway after a connection was obtained and put back, with the
    server in state [db']. *)
Definition cycled {DB} (s : neon DB) (db' : DB) : neon DB :=
  mkNeon (Pool.mk (Pool.maxconn (nd_pool s)) (Pool.used (nd_pool s))
                  (S (Pool.keys (nd_pool s))) (S (Pool.getconn_calls (nd_pool s))))
         db' (max_retries s).

(** The gateway after a connection was obtained and kept. *)
Definition held {DB} (s : neon DB) (db' : DB) : neon DB :=
  mkNeon (Pool.mk (Pool.maxconn (nd_pool s)) (Pool.keys (nd_pool s) :: Pool.used (nd_pool s))
                  (S (Pool.keys (nd_pool s))) (S (Pool.getconn_calls (nd_pool s))))
         db' (max_retries s).

(** The gateway after the pool refused a connection. *)
Definition refused {DB} (s : neon DB) : neon DB :=
  mkNeon (Pool.mk (Pool.maxconn (nd_pool s)) (Pool.used (nd_pool s))
                  (Pool.keys (nd_pool s)) (S (Pool.getconn_calls (nd_pool s))))
         (nd_db s) (max_retries s).

(** The attributes of a [NeonDB] object: what [__init__] sets and the
    methods the class defines. *)
Definition NeonDB_attributes : list string :=
  [ "max_retries"; "db_url"; "pool";
    "__init__"; "get_connection"; "release_connection"; "close_all";
    "execute_query"; "execute_many"; "create_table"; "insert"; "update";
    "delete"; "select"; "table_exists"; "get_columns";
    "create_accounts_table"; "init_database"; "add_account";
    "get_account_list"; "get_account_by_email"; "import_from_csv";
    "export_to_csv"; "update_account" ].

(** [self.db.<name>]: attribute lookup on the object. *)
Definition getattr (name : string) : res string :=
  if bool_decide (name ∈ NeonDB_attributes) then Ok name
  else Raise (Exn AttributeError ("'NeonDB' object has no attribute '" +:+ name +:+ "'")).

(** The column list [get_account_list] asks for, its line breaks and
    indentation left out. *)
Definition ACCOUNT_COLUMNS : string :=
  "id, domain, email, password, cookies_str, api_key, moe_mail_url, quota, days_remaining, status, created_at, updated_at".

(** A parsed backup or environment file, as [import_from_csv] reads it:
    the lines of a file whose name ends in [.env], or the records
    [csv.reader] yields for any other file. *)
Inductive source :=
| EnvLines (lines : list string)
| CsvRecords (records : list (list string)).

Section NeonDB.

Context {DB : Type}.

(** [cursor.execute(query, params)] inside the connection's open
    transaction: the server's new state and the cursor, or an exception. *)
Variable execute : query -> DB -> res (cursor * DB).

(** [cursor.executemany(query, params_list)]. *)
Variable executemany : string -> list (list value) -> DB -> res (cursor * DB).

(** *** [__init__]: creating the pool *)

(** [connect k] is the outcome of the [k]-th call (from 0) of
    [pool.ThreadedConnectionPool(min_conn, max_conn, db_url)]. *)
Fixpoint init_loop (connect : nat -> res Pool.t) (max_retries : nat)
    (fuel retry_count : nat) (last_error : option exn) (trace : list init_event)
    : option (res Pool.t) * list init_event :=
  match fuel with
  | O => (None, trace)
  | S fuel' =>
      if (retry_count <? max_retries)%nat then
        match connect retry_count with
        | Ok p => (Some (Ok p), trace ++ [CreatePool])
        | Raise e =>
            let retry_count := S retry_count in
            let trace := trace ++ [CreatePool] in
            let trace :=
              if (retry_count <? max_retries)%nat then trace ++ [Sleep 1] else trace in
            init_loop connect max_retries fuel' retry_count (Some e) trace
        end
      else
        (Some (Raise (match last_error with
                      | Some e => e
                      | None => Exn TypeError "exceptions must derive from BaseException"
                      end)), trace)
  end.

(** [NeonDB(db_url, min_conn, max_conn, max_retries)]; [env_url] is
    [os.getenv('DATABASE_URL')].  [None] would mean the loop did not end
    within [max_retries + 1] rounds. *)
Definition init (db_url env_url : option string) (connect : nat -> res Pool.t)
    (max_retries : nat) : option (res Pool.t) * list init_event :=
  let url := if truthy_opt_str db_url then db_url else env_url in
  if negb (truthy_opt_str url)
  then (Some (Raise (Exn ValueError "数据库连接 URL 未配置。请在 .env 文件中设置 DATABASE_URL，或者在创建 NeonDB 实例时提供 db_url 参数。")), [])
  else init_loop connect max_retries (S max_retries) 0 None [].

(** *** Connections *)

Definition get_connection (s : neon DB) : res nat * neon DB :=
  let '(r, p) := Pool.getconn (nd_pool s) in (r, mkNeon p (nd_db s) (max_retries s)).

Definition release_connection (conn : nat) (s : neon DB) : res unit * neon DB :=
  let '(r, p) := Pool.putconn conn (nd_pool s) in (r, mkNeon p (nd_db s) (max_retries s)).

(** The [finally] block of [execute_query] and [execute_many] once a
    connection was obtained: the connection goes back to the pool, and an
    exception of [putconn] replaces the pending outcome. *)
Definition finally_release {A} (conn : nat) (outcome : res A) (s : neon DB)
    : res A * neon DB :=
  match release_connection conn s with
  | (Ok _, s') => (outcome, s')
  | (Raise e, s') => (Raise e, s')
  end.

(** The [try] body after [get_connection]: run the statement, fetch, and
    commit; an exception rolls the transaction back. *)
Definition run_and_fetch (q : query) (fetch_one fetch_all : bool) (db : DB)
    : res (fetched * DB) :=
  bind (execute q db) (fun '(cur, db') =>
  bind (if fetch_one then bind (fetchone cur) (fun r => Ok (FOne r))
        else if fetch_all then bind (fetchall cur) (fun r => Ok (FAll r))
        else Ok (FCount (rowcount cur))) (fun result =>
  Ok (result, db'))).

Definition execute_query (q : query) (fetch_one fetch_all : bool) (s : neon DB)
    : res fetched * neon DB :=
  match get_connection s with
  | (Raise e, s1) => (Raise e, s1)
  | (Ok conn, s1) =>
      match run_and_fetch q fetch_one fetch_all (nd_db s1) with
      | Ok (result, db') =>
          finally_release conn (Ok result) (mkNeon (nd_pool s1) db' (max_retries s1))
      | Raise e =>
          finally_release conn (Raise e) s1
      end
  end.

Definition execute_many (sql : string) (params_list : list (list value)) (s : neon DB)
    : res Z * neon DB :=
  match get_connection s with
  | (Raise e, s1) => (Raise e, s1)
  | (Ok conn, s1) =>
      match executemany sql params_list (nd_db s1) with
      | Ok (cur, db') =>
          finally_release conn (Ok (rowcount cur)) (mkNeon (nd_pool s1) db' (max_retries s1))
      | Raise e =>
          finally_release conn (Raise e) s1
      end
  end.

(** *** Generic statements *)

Definition create_table (table_name : string) (columns : list string) (s : neon DB)
    : bool * neon DB :=
  match execute_query (QCreateTable table_name columns) false false s with
  | (Ok _, s') => (true, s')
  | (Raise _, s') => (false, s')
  end.

(** [result[0]] of a fetched row. *)
Definition first_column (row : option tuple) : res value :=
  match row with
  | None => Raise (Exn TypeError "'NoneType' object is not subscriptable")
  | Some [] => Raise (Exn IndexError "tuple index out of range")
  | Some (v :: _) => Ok v
  end.

(** [insert(table_name, data, return_id=True)]: the new id, or [None]. *)
Definition insert_returning (table_name : string) (data : gmap string value)
    (s : neon DB) : option value * neon DB :=
  match execute_query (QInsert table_name data true) true false s with
  | (Ok (FOne row), s') =>
      match first_column row with
      | Ok v => (Some v, s')
      | Raise _ => (None, s')
      end
  | (Ok _, s') => (None, s')
  | (Raise _, s') => (None, s')
  end.

(** [insert(table_name, data)]: whether the row went in. *)
Definition insert (table_name : string) (data : gmap string value) (s : neon DB)
    : bool * neon DB :=
  match execute_query (QInsert table_name data false) false false s with
  | (Ok _, s') => (true, s')
  | (Raise _, s') => (false, s')
  end.

Definition count_or_zero (r : res fetched) : Z :=
  match r with
  | Ok (FCount n) => n
  | _ => 0
  end.

Definition update (table_name : string) (data : gmap string value)
    (condition : string) (condition_params : list value) (s : neon DB) : Z * neon DB :=
  let '(r, s') := execute_query (QUpdate table_name data condition condition_params)
                                false false s in
  (count_or_zero r, s').

Definition delete (table_name : string) (condition : string)
    (condition_params : list value) (s : neon DB) : Z * neon DB :=
  let '(r, s') := execute_query (QDelete table_name condition condition_params)
                                false false s in
  (count_or_zero r, s').

(** The statement [select] builds: each optional clause is appended when
    its argument is truthy. *)
Definition select_query (table_name columns : string) (condition : option string)
    (order_by : option string) (limit offset : option Z) : select_stmt :=
  {| sel_columns := columns;
     sel_table := table_name;
     sel_where := if truthy_opt_str condition then condition else None;
     sel_order_by := if truthy_opt_str order_by then order_by else None;
     sel_limit := if truthy_opt_int limit then limit else None;
     sel_offset := if truthy_opt_int offset then offset else None |}.

(** [params]: extended with [condition_params] under a truthy condition,
    and passed as [None] when empty. *)
Definition select_params (condition : option string)
    (condition_params : option (list value)) : option (list value) :=
  let params :=
    if truthy_opt_str condition then default [] condition_params else [] in
  match params with
  | [] => None
  | _ => Some params
  end.

(** [select(...)]: the fetched result, or [None] after an exception. *)
Definition select (table_name columns : string) (condition : option string)
    (condition_params : option (list value)) (order_by : option string)
    (limit offset : option Z) (fetch_one fetch_all : bool) (s : neon DB)
    : option fetched * neon DB :=
  let q := QSelect (select_query table_name columns condition order_by limit offset)
                   (select_params condition condition_params) in
  match execute_query q fetch_one (negb fetch_one && fetch_all) s with
  | (Ok r, s') => (Some r, s')
  | (Raise _, s') => (None, s')
  end.

(** *** The [accounts] API *)

(** [str(v)] as [csv.writer] applies it to a cell; [str_datetime] is
    [str] on a [datetime]. *)
Variable str_datetime : Z -> string.

Definition csv_cell (v : value) : string :=
  match v with
  | VNull => ""
  | VInt z => str_int z
  | VText s => s
  | VTime t => str_datetime t
  end.

(** [account[i]]. *)
Definition index (account : tuple) (i : nat) : res value :=
  match account !! i with
  | Some v => Ok v
  | None => Raise (Exn IndexError "tuple index out of range")
  end.

Definition required_fields : list string := ["domain"; "email"; "password"].

(** [add_account(account_data)] with [now] the reading of
    [datetime.now()]: the new id, or [None]. *)
Definition add_account (now : Z) (account_data : gmap string value) (s : neon DB)
    : option value * neon DB :=
  if forallb (fun field => bool_decide (is_Some (account_data !! field))) required_fields
  then insert_returning "accounts" (<["updated_at" := VTime now]> account_data) s
  else (None, s).

Definition rows_of (r : option fetched) : option (list tuple) :=
  match r with
  | Some (FAll rows) => Some rows
  | _ => None
  end.

Definition row_of (r : option fetched) : option tuple :=
  match r with
  | Some (FOne row) => row
  | _ => None
  end.

Definition get_account_list (status : option string) (limit offset : option Z)
    (s : neon DB) : option (list tuple) * neon DB :=
  let condition := if truthy_opt_str status then Some "status = %s" else None in
  let condition_params :=
    if truthy_opt_str status then Some [from_option VText VNull status] else None in
  let '(r, s') := select "accounts" ACCOUNT_COLUMNS condition condition_params
                         (Some "created_at DESC") limit offset false true s in
  (rows_of r, s').

Definition get_account_by_email (email : value) (s : neon DB)
    : option tuple * neon DB :=
  let '(r, s') := select "accounts" "*" (Some "email = %s") (Some [email])
                         None None None true true s in
  (row_of r, s').

(** [update_account(account_id, update_data)]: the connection obtained by
    [with self.get_connection() as conn] is committed or rolled back when
    the block is left; nothing puts it back into the pool. *)
Definition update_account (now : Z) (account_id : value)
    (update_data : gmap string value) (s : neon DB) : bool * neon DB :=
  let update_data := <["updated_at" := VTime now]> update_data in
  match get_connection s with
  | (Raise _, s1) => (false, s1)
  | (Ok conn, s1) =>
      match execute (QUpdate "accounts" update_data "id = %s" [account_id]) (nd_db s1) with
      | Ok (cur, db') => (0 <? rowcount cur, mkNeon (nd_pool s1) db' (max_retries s1))
      | Raise _ => (false, s1)
      end
  end.

(** *** Import *)

(** The [.env] branch: one [KEY=value] per line. *)
Definition parse_env_line (data : gmap string (option string)) (line : string)
    : gmap string (option string) :=
  let line := strip line in
  if truthy_str line && negb (startswith line "#") then
    match split1 line "=" with
    | [key; val] =>
        <[strip key := Some (strip_char "034" (strip_char "'" (strip val)))]> data
    | _ => data
    end
  else data.

(** [csv.DictReader]: the first record gives the field names; empty
    records are skipped; a short record is filled up with [None]. *)
Fixpoint zip_record (fieldnames : list string) (row : list string)
    (d : gmap string (option string)) : gmap string (option string) :=
  match fieldnames, row with
  | [], _ => d
  | k :: ks, [] => zip_record ks [] (<[k := None]> d)
  | k :: ks, v :: vs => zip_record ks vs (<[k := Some v]> d)
  end.

Definition dict_reader (records : list (list string))
    : list (gmap string (option string)) :=
  match records with
  | [] => []
  | fieldnames :: rest =>
      (fun row => zip_record fieldnames row ∅) <$>
        filter (fun row => row ≠ []) rest
  end.

(** The CSV branch: [data[row['variable']] = row['value']]. *)
Definition parse_csv_row (data : gmap string (option string))
    (row : gmap string (option string)) : gmap string (option string) :=
  match row !! "variable", row !! "value" with
  | Some (Some key), Some val => <[key := val]> data
  | _, _ => data
  end.

Definition parse_source (src : source) : gmap string (option string) :=
  match src with
  | EnvLines lines => fold_left parse_env_line lines ∅
  | CsvRecords records => fold_left parse_csv_row (dict_reader records) ∅
  end.

(** [data.get(key, '')]. *)
Definition get_or_empty (data : gmap string (option string)) (key : string) : value :=
  match data !! key with
  | Some (Some s) => VText s
  | Some None => VNull
  | None => VText ""
  end.

Definition account_data_of (data : gmap string (option string)) : gmap string value :=
  <["days_remaining" := get_or_empty data "DAYS"]>
  (<["quota" := get_or_empty data "QUOTA"]>
  (<["moe_mail_url" := get_or_empty data "MOE_MAIL_URL"]>
  (<["api_key" := get_or_empty data "API_KEY"]>
  (<["cookies_str" := get_or_empty data "COOKIES_STR"]>
  (<["password" := get_or_empty data "PASSWORD"]>
  (<["email" := get_or_empty data "EMAIL"]>
  (<["domain" := get_or_empty data "DOMAIN"]> ∅))))))).

(** [bool(existing_account)] of a fetched row or [None]. *)
Definition truthy_row (row : option tuple) : bool :=
  match row with
  | Some (_ :: _) => true
  | _ => false
  end.

(** [import_from_csv(csv_file_path)]: [src] is the opened file ([None]
    when [open] raises), [now] the reading of [datetime.now()]. *)
Definition import_from_csv (now : Z) (src : option source) (s : neon DB)
    : bool * neon DB :=
  match src with
  | None => (false, s)
  | Some src =>
      let data := parse_source src in
      let email := get_or_empty data "EMAIL" in
      let password := get_or_empty data "PASSWORD" in
      if negb (truthy email) || negb (truthy password) then (false, s)
      else
        let '(existing_account, s1) := get_account_by_email email s in
        if truthy_row existing_account then
          match first_column existing_account with
          | Ok account_id => update_account now account_id (account_data_of data) s1
          | Raise _ => (false, s1)
          end
        else
          match add_account now (account_data_of data) s1 with
          | (Some result, s2) => (truthy result, s2)
          | (None, s2) => (false, s2)
          end
  end.

(** *** Export *)

(** The [writerow] calls for one account, in order: the key, the column
    index, and whether the record is written unconditionally. *)
Definition export_fields : list (string * nat * bool) :=
  [("DOMAIN", 1%nat, true); ("EMAIL", 2%nat, true); ("PASSWORD", 3%nat, true);
   ("COOKIES_STR", 4%nat, false); ("API_KEY", 5%nat, false);
   ("MOE_MAIL_URL", 6%nat, false); ("QUOTA", 7%nat, false); ("DAYS", 8%nat, false)].

(** [written] are the records in the file so far; an [IndexError] leaves
    them as they are. *)
Fixpoint write_fields (fields : list (string * nat * bool)) (account : tuple)
    (written : list (list string)) : res unit * list (list string) :=
  match fields with
  | [] => (Ok tt, written)
  | (key, i, always) :: rest =>
      match index account i with
      | Raise e => (Raise e, written)
      | Ok v =>
          write_fields rest account
            (if always || truthy v then written ++ [[key; csv_cell v]] else written)
      end
  end.

Fixpoint write_accounts (accounts : list tuple) (written : list (list string))
    : res unit * list (list string) :=
  match accounts with
  | [] => (Ok tt, written)
  | account :: rest =>
      match write_fields export_fields account written with
      | (Ok _, written') => write_accounts rest written'
      | (Raise e, written') => (Raise e, written')
      end
  end.

(** [export_to_csv(csv_file_path)]: the flag returned and the records
    written to the file ([None]: the file was not opened). *)
Definition export_to_csv (s : neon DB) : (bool * option (list (list string))) * neon DB :=
  let '(accounts, s') := get_account_list None None None s in
  match accounts with
  | None | Some [] => ((false, None), s')
  | Some accounts =>
      let '(r, written) := write_accounts accounts [["variable"; "value"]] in
      ((is_ok r, Some written), s')
  end.

End NeonDB.

(** *** The retry behaviour, as the specification words it *)

(** [k] failed attempts, each followed by the one-second pause. *)
Definition rounds (k : nat) : list init_event :=
  concat (replicate k [CreatePool; Sleep 1]).

(** "Connection pool exhaustion ... retries up to a configured bound": on
    an exhausted pool [get_connection] would ask the pool [max_retries]
    times before it gives up. *)
Definition exhaustion_is_retried {DB} (s : neon DB) : Prop :=
  Pool.exhausted (nd_pool s) ->
  Pool.getconn_calls (nd_pool (get_connection s).2)
  = (Pool.getconn_calls (nd_pool s) + max_retries s)%nat.

(** ** The server: the [accounts] table of [create_accounts_table]

    The fragment of PostgreSQL the repository issues against [accounts]:
    [INSERT] of a dict, [UPDATE] and [DELETE] under a condition
    [<column> = %s], and [SELECT] of whole rows with an optional such
    condition, [ORDER BY created_at DESC], [LIMIT] and [OFFSET].  Other
    conditions, projections and orderings, and casts between value kinds,
    are rejected by the model; no statement proved below rests on such a
    rejection.  A failed [INSERT] leaves the id sequence alone here. *)
Module Pg.

Inductive coltype :=
| CSerial
| CVarchar (n : nat)
| CText
| CTimestamp.

Inductive coldefault :=
| DNone
| DSerial
| DText (s : string)
| DNow.

Record column := mkColumn {
  col_name : string;
  col_type : coltype;
  col_notnull : bool;
  col_unique : bool;
  col_default : coldefault
}.

(** The column definitions passed to [create_table('accounts', ...)]. *)
Definition accounts_columns : list string :=
  [ "id SERIAL PRIMARY KEY";
    "domain VARCHAR(255) NOT NULL";
    "email VARCHAR(255) NOT NULL UNIQUE";
    "password VARCHAR(255) NOT NULL";
    "cookies_str TEXT";
    "api_key VARCHAR(255)";
    "moe_mail_url TEXT";
    "quota VARCHAR(50)";
    "days_remaining VARCHAR(50)";
    "status VARCHAR(50) DEFAULT 'active'";
    "created_at TIMESTAMP DEFAULT CURRENT_TIMESTAMP";
    "updated_at TIMESTAMP DEFAULT CURRENT_TIMESTAMP" ].

(** The same definitions, read. *)
Definition accounts_schema : list column :=
  [ mkColumn "id" CSerial true true DSerial;
    mkColumn "domain" (CVarchar 255) true false DNone;
    mkColumn "email" (CVarchar 255) true true DNone;
    mkColumn "password" (CVarchar 255) true false DNone;
    mkColumn "cookies_str" CText false false DNone;
    mkColumn "api_key" (CVarchar 255) false false DNone;
    mkColumn "moe_mail_url" CText false false DNone;
    mkColumn "quota" (CVarchar 50) false false DNone;
    mkColumn "days_remaining" (CVarchar 50) false false DNone;
    mkColumn "status" (CVarchar 50) false false (DText "active");
    mkColumn "created_at" CTimestamp false false DNow;
    mkColumn "updated_at" CTimestamp false false DNow ].

(** The table, the sequence behind [SERIAL], and the server's clock
    ([CURRENT_TIMESTAMP]). *)
Record db := mkDb {
  accounts : list tuple;
  next_id : Z;
  clock : Z
}.

Definition db_error (msg : string) : exn := Exn DatabaseError msg.

Fixpoint all_spaces (s : string) : bool :=
  match s with
  | EmptyString => true
  | String c s' => Ascii.eqb c " " && all_spaces s'
  end.

Fixpoint take (n : nat) (s : string) : string :=
  match n, s with
  | O, _ => EmptyString
  | S n', String c s' => String c (take n' s')
  | S _, EmptyString => EmptyString
  end.

(** Storing a string in [VARCHAR(n)]: too long a value is an error unless
    the excess is spaces, which are cut off. *)
Definition store_varchar (n : nat) (s : string) : res value :=
  if (String.length s <=? n)%nat then Ok (VText s)
  else if all_spaces (drop n s) then Ok (VText (take n s))
  else Raise (db_error "value too long for type character varying").

Definition coerce (ty : coltype) (v : value) : res value :=
  match ty, v with
  | _, VNull => Ok VNull
  | CSerial, VInt z => Ok (VInt z)
  | CVarchar n, VText s => store_varchar n s
  | CText, VText s => Ok (VText s)
  | CTimestamp, VTime t => Ok (VTime t)
  | _, _ => Raise (db_error "datatype mismatch")
  end.

Definition check_column (c : column) (v : value) : res value :=
  bind (coerce (col_type c) v) (fun v' =>
  match v' with
  | VNull =>
      if col_notnull c
      then Raise (db_error "null value violates not-null constraint")
      else Ok VNull
  | _ => Ok v'
  end).

Definition default_value (d : db) (c : column) : value :=
  match col_default c with
  | DNone => VNull
  | DSerial => VInt (next_id d)
  | DText s => VText s
  | DNow => VTime (clock d)
  end.

(** The value in column [i] of a row. *)
Definition cell (i : nat) (row : tuple) : value := default VNull (row !! i).

(** [mapM] over the schema. *)
Fixpoint build_row (f : column -> res value) (schema : list column) : res tuple :=
  match schema with
  | [] => Ok []
  | c :: rest =>
      bind (f c) (fun v => bind (build_row f rest) (fun vs => Ok (v :: vs)))
  end.

Definition known_columns (data : gmap string value) : bool :=
  bool_decide (dom data ⊆ list_to_set (col_name <$> accounts_schema)).

(** The values of a unique column, [NULL]s apart, are pairwise distinct. *)
Definition unique_at (i : nat) (rows : list tuple) : bool :=
  bool_decide (NoDup (filter (fun v => v ≠ VNull) (cell i <$> rows))).

Fixpoint unique_columns (i : nat) (schema : list column) (rows : list tuple) : bool :=
  match schema with
  | [] => true
  | c :: rest =>
      (if col_unique c then unique_at i rows else true) && unique_columns (S i) rest rows
  end.

Definition check_unique (rows : list tuple) : res (list tuple) :=
  if unique_columns 0 accounts_schema rows then Ok rows
  else Raise (db_error "duplicate key value violates unique constraint").

(** [INSERT INTO accounts (...) VALUES (...)]. *)
Definition insert_row (data : gmap string value) (d : db) : res (tuple * db) :=
  if negb (known_columns data) then Raise (db_error "column does not exist")
  else
    bind (build_row (fun c => check_column c (default (default_value d c) (data !! col_name c)))
                    accounts_schema) (fun row =>
    bind (check_unique (accounts d ++ [row])) (fun rows =>
    Ok (row, mkDb rows
                  (if bool_decide (is_Some (data !! "id")) then next_id d else next_id d + 1)
                  (clock d)))).

(** The index of a column. *)
Fixpoint column_index (name : string) (schema : list column) : option nat :=
  match schema with
  | [] => None
  | c :: rest =>
      if String.eqb (col_name c) name then Some 0%nat
      else S <$> column_index name rest
  end.

(** SQL equality of a stored value and a parameter; [NULL] equals nothing. *)
Definition sql_eq (v p : value) : bool :=
  match v, p with
  | VInt a, VInt b => a =? b
  | VText a, VText b => String.eqb a b
  | VTime a, VTime b => a =? b
  | _, _ => false
  end.

(** A condition [<column> = %s] with its one parameter. *)
Definition condition_test (condition : string) (params : list value)
    : res (tuple -> bool) :=
  match Py.split condition " = %s", params with
  | [name; ""], [p] =>
      match column_index name accounts_schema with
      | Some i => Ok (fun row => sql_eq (cell i row) p)
      | None => Raise (db_error "column does not exist")
      end
  | _, _ => Raise (db_error "condition outside the modelled fragment")
  end.

(** The row after [SET key = %s, ...]. *)
Definition assign_row (data : gmap string value) (row : tuple) : res tuple :=
  build_row (fun c =>
    let i := default 0%nat (column_index (col_name c) accounts_schema) in
    match data !! col_name c with
    | Some v => check_column c v
    | None => Ok (cell i row)
    end) accounts_schema.

Fixpoint update_rows (test : tuple -> bool) (data : gmap string value)
    (rows : list tuple) : res (list tuple * Z) :=
  match rows with
  | [] => Ok ([], 0)
  | row :: rest =>
      bind (if test row then assign_row data row else Ok row) (fun row' =>
      bind (update_rows test data rest) (fun '(rest', n) =>
      Ok (row' :: rest', if test row then n + 1 else n)))
  end.

(** Stable insertion sort for [ORDER BY created_at DESC]; [NULL]s first. *)
Definition created_at_of (row : tuple) : option Z :=
  match cell 10 row with
  | VTime t => Some t
  | _ => None
  end.

Definition updated_at_of (row : tuple) : option Z :=
  match cell 11 row with
  | VTime t => Some t
  | _ => None
  end.

(** The row's updated timestamp is later than its created timestamp. *)
Definition updated_after_created (row : tuple) : Prop :=
  exists c u, created_at_of row = Some c /\ updated_at_of row = Some u /\ c < u.

(** [before a b]: [a] may stay in front of [b]. *)
Definition before (a b : tuple) : bool :=
  match created_at_of a, created_at_of b with
  | None, _ => true
  | Some _, None => false
  | Some x, Some y => y <=? x
  end.

Fixpoint insert_sorted (row : tuple) (sorted : list tuple) : list tuple :=
  match sorted with
  | [] => [row]
  | r :: rest => if before row r then row :: sorted else r :: insert_sorted row rest
  end.

Definition order_rows (order_by : option string) (rows : list tuple) : res (list tuple) :=
  match order_by with
  | None => Ok rows
  | Some o =>
      if String.eqb o "created_at DESC" then Ok (foldr insert_sorted [] rows)
      else Raise (db_error "ordering outside the modelled fragment")
  end.

Definition limit_rows (limit : option Z) (rows : list tuple) : res (list tuple) :=
  match limit with
  | None => Ok rows
  | Some n =>
      if n <? 0 then Raise (db_error "LIMIT must not be negative")
      else Ok (firstn (Z.to_nat n) rows)
  end.

Definition offset_rows (offset : option Z) (rows : list tuple) : res (list tuple) :=
  match offset with
  | None => Ok rows
  | Some n =>
      if n <? 0 then Raise (db_error "OFFSET must not be negative")
      else Ok (skipn (Z.to_nat n) rows)
  end.

Definition select_rows (q : select_stmt) (params : option (list value)) (d : db)
    : res (list tuple) :=
  if negb (String.eqb (sel_table q) "accounts") then Raise (db_error "relation does not exist")
  else if negb (String.eqb (sel_columns q) "*" || String.eqb (sel_columns q) ACCOUNT_COLUMNS)
  then Raise (db_error "projection outside the modelled fragment")
  else
    bind (match sel_where q with
          | None => Ok (accounts d)
          | Some condition =>
              bind (condition_test condition (default [] params)) (fun test =>
              Ok (filter (fun row => test row = true) (accounts d)))
          end) (fun rows =>
    bind (order_rows (sel_order_by q) rows) (fun rows =>
    bind (offset_rows (sel_offset q) rows) (fun rows =>
    limit_rows (sel_limit q) rows))).

(** [cursor.execute] on this server. *)
Definition execute (q : query) (d : db) : res (cursor * db) :=
  match q with
  | QSelect sel params =>
      bind (select_rows sel params d) (fun rows =>
      Ok (mkCursor (Some rows) (Z.of_nat (length rows)), d))
  | QInsert table data returning_id =>
      if negb (String.eqb table "accounts") then Raise (db_error "relation does not exist")
      else
        bind (insert_row data d) (fun '(row, d') =>
        Ok (mkCursor (if returning_id then Some [firstn 1 row] else None) 1, d'))
  | QUpdate table data condition params =>
      if negb (String.eqb table "accounts") then Raise (db_error "relation does not exist")
      else if negb (known_columns data) then Raise (db_error "column does not exist")
      else
        bind (condition_test condition params) (fun test =>
        bind (update_rows test data (accounts d)) (fun '(rows, n) =>
        bind (check_unique rows) (fun rows =>
        Ok (mkCursor None n, mkDb rows (next_id d) (clock d)))))
  | QDelete table condition params =>
      if negb (String.eqb table "accounts") then Raise (db_error "relation does not exist")
      else
        bind (condition_test condition params) (fun test =>
        let kept := filter (fun row => test row ≠ true) (accounts d) in
        Ok (mkCursor None (Z.of_nat (length (accounts d)) - Z.of_nat (length kept)),
            mkDb kept (next_id d) (clock d)))
  | QCreateTable table columns => Ok (mkCursor None (-1), d)
  end.

End Pg.

(** ** Vocabulary for statements about import and export *)

(** The table has the columns of the schema, and the id sequence is where
    [SERIAL] starts it or beyond. *)
Definition well_formed (d : Pg.db) : Prop :=
  Forall (fun row : tuple => length row = length Pg.accounts_schema) (Pg.accounts d)
  /\ 0 < Pg.next_id d.

(** The columns [import_from_csv] fills, with the file key of each. *)
Definition import_columns : list (nat * string) :=
  [(1%nat, "DOMAIN"); (2%nat, "EMAIL"); (3%nat, "PASSWORD"); (4%nat, "COOKIES_STR");
   (5%nat, "API_KEY"); (6%nat, "MOE_MAIL_URL"); (7%nat, "QUOTA"); (8%nat, "DAYS")].

(** [row] holds, in each of these columns, the value parsed for its key as
    the column stores it. *)
Definition holds_file_values (data : gmap string (option string)) (row : tuple) : Prop :=
  forall i key, (i, key) ∈ import_columns ->
    exists c, Pg.accounts_schema !! i = Some c
              /\ Pg.check_column c (get_or_empty data key) = Ok (Pg.cell i row).

(** The rows whose email equals the parameter. *)
Definition with_email (email : value) (rows : list tuple) : list tuple :=
  filter (fun row => Pg.sql_eq (Pg.cell 2 row) email = true) rows.

(** Every cell passes the check of its column and is stored as it is. *)
Definition conforms (row : tuple) : Prop :=
  length row = length Pg.accounts_schema /\
  forall i c, Pg.accounts_schema !! i = Some c ->
    Pg.check_column c (Pg.cell i row) = Ok (Pg.cell i row).

(** The invariants of the table: shape, the unique columns, and ids below
    the sequence. *)
Definition consistent (d : Pg.db) : Prop :=
  well_formed d
  /\ Pg.unique_columns 0 Pg.accounts_schema (Pg.accounts d) = true
  /\ Forall (fun row => exists i, Pg.cell 0 row = VInt i /\ i < Pg.next_id d) (Pg.accounts d).

(** The parsed values pass the checks of their columns and are stored as
    they are. *)
Definition accepted (data : gmap string (option string)) : Prop :=
  forall i key, (i, key) ∈ import_columns ->
    exists c, Pg.accounts_schema !! i = Some c
              /\ Pg.check_column c (get_or_empty data key) = Ok (get_or_empty data key).

(** The row that holds the parsed values, between the given id, status and
    created timestamp, and [now] as updated timestamp. *)
Definition imported_row (data : gmap string (option string)) (now : Z)
    (id status created : value) : tuple :=
  [ id; get_or_empty data "DOMAIN"; get_or_empty data "EMAIL";
    get_or_empty data "PASSWORD"; get_or_empty data "COOKIES_STR";
    get_or_empty data "API_KEY"; get_or_empty data "MOE_MAIL_URL";
    get_or_empty data "QUOTA"; get_or_empty data "DAYS";
    status; created; VTime now ].

(** The table after [UPDATE ... WHERE id = account_id] with the parsed
    values. *)
Definition updated_rows (data : gmap string (option string)) (now : Z)
    (account_id : value) (rows : list tuple) : list tuple :=
  (fun row => if Pg.sql_eq (Pg.cell 0 row) account_id
              then imported_row data now (Pg.cell 0 row) (Pg.cell 9 row) (Pg.cell 10 row)
              else row) <$> rows.

(** A populated field comes back as it was; an empty one comes back empty. *)
Definition field_reproduced (exported imported : value) : bool :=
  if truthy exported then bool_decide (imported = exported) else negb (truthy imported).

Definition reproduces (account row : tuple) : bool :=
  forallb (fun ik => field_reproduced (Pg.cell (fst ik) account) (Pg.cell (fst ik) row))
          import_columns.

(** Export of the accounts of [s] to a file not named [*.env], import of
    that file into [t]: the import succeeds and every exported account is
    reproduced by some row of [t] afterwards. *)
Definition roundtrip (str_datetime : Z -> string) (now : Z) (s t : neon Pg.db) : bool :=
  match export_to_csv Pg.execute str_datetime s with
  | ((true, Some file), _) =>
      let '(ok, t') := import_from_csv Pg.execute now (Some (CsvRecords file)) t in
      ok && forallb (fun account => existsb (reproduces account) (Pg.accounts (nd_db t')))
                    (Pg.accounts (nd_db s))
  | _ => false
  end.

(** The pairs [export_to_csv] writes for one account. *)
Definition exported_pairs (str_datetime : Z -> string) (account : tuple)
    : list (string * string) :=
  omap (fun f : string * nat * bool =>
          let '(key, i, always) := f in
          if always || truthy (Pg.cell i account)
          then Some (key, csv_cell str_datetime (Pg.cell i account)) else None)
       export_fields.

Definition kv_records (l : list (string * string)) : list (list string) :=
  (fun kv => [fst kv; snd kv]) <$> l.

(** The dict a list of pairs leaves, the last pair of a key counting. *)
Definition dict_of (l : list (string * string)) : gmap string (option string) :=
  fold_left (fun d kv => <[fst kv := Some (snd kv)]> d) l ∅.

(** ** [tab/registerTab.py]: the manual backup *)
Module RegisterTab.

Inductive ui_event :=
| ShowLoading (title message : string)
| CloseLoading
| ShowSuccess (message : string)
| ShowError (title message : string).

(** What [backup_thread] reads and writes: the process environment, the
    files on disk with their text, the gateway, and the dialogs scheduled
    on the main loop. *)
Record world (DB : Type) := mkWorld {
  environ : gmap string string;
  files : gmap string string;
  db : neon DB;
  ui : list ui_event
}.
Arguments mkWorld {DB} _ _ _ _.
Arguments environ {DB} _.
Arguments files {DB} _.
Arguments db {DB} _.
Arguments ui {DB} _.

Definition newline : string := String "010" EmptyString.

Definition backup_keys : list string :=
  ["DOMAIN"; "EMAIL"; "PASSWORD"; "COOKIES_STR"; "API_KEY"; "MOE_MAIL_URL"; "QUOTA"; "DAYS"].

Section Backup.

Context {DB : Type}.
Variable execute : query -> DB -> res (cursor * DB).
Variable str_datetime : Z -> string.

(** A call [self.db.<name>(account_id, backup_data, backup_type, notes)] of
    a method the class does define. *)
Variable invoke : string -> value -> list (string * value) -> string -> string ->
                  neon DB -> res unit * neon DB.

(** [backup_data]: the keys paired with [account[1]] .. [account[8]]. *)
Fixpoint backup_data_from (keys : list string) (i : nat) (account : tuple)
    : res (list (string * value)) :=
  match keys with
  | [] => Ok []
  | key :: rest =>
      bind (index account i) (fun v =>
      bind (backup_data_from rest (S i) account) (fun more => Ok ((key, v) :: more)))
  end.

(** The text written: the header, then [key,value] for each truthy value. *)
Fixpoint backup_lines (backup_data : list (string * value)) : string :=
  match backup_data with
  | [] => ""
  | (key, v) :: rest =>
      (if truthy v then key +:+ "," +:+ csv_cell str_datetime v +:+ newline else "")
      +:+ backup_lines rest
  end.

Definition backup_text (backup_data : list (string * value)) : string :=
  "variable,value" +:+ newline +:+ backup_lines backup_data.

Definition backup_path (timestamp : string) : string :=
  "env_backups/cursor_account_" +:+ timestamp +:+ ".csv".

(** The [try] body of [backup_thread] after the loading dialog.
    [timestamp] is [datetime.now().strftime("%Y%m%d_%H%M%S")]; [can_open]
    tells whether [open(backup_path, 'w')] succeeds.  The result is the
    path written. *)
Definition backup_body (timestamp : string) (can_open : bool) (w : world DB)
    : res string * world DB :=
  let email := default "" (environ w !! "EMAIL") in
  if negb (truthy_str email)
  then (Raise (Exn ValueError "未找到账号信息，请先注册或更新账号"), w)
  else
    let '(account, db1) := get_account_by_email execute (VText email) (db w) in
    let w1 := mkWorld (environ w) (files w) db1 (ui w) in
    match account with
    | None | Some [] => (Raise (Exn ValueError "未找到账号信息"), w1)
    | Some account =>
        match backup_data_from backup_keys 1 account, index account 0 with
        | Raise e, _ => (Raise e, w1)
        | Ok backup_data, account_id =>
            let path := backup_path timestamp in
            if negb can_open
            then (Raise (Exn OSError "cannot open the backup file"), w1)
            else
              let w2 := mkWorld (environ w) (<[path := backup_text backup_data]> (files w))
                                db1 (ui w) in
              match getattr "backup_account", account_id with
              | Raise e, _ => (Raise e, w2)
              | Ok _, Raise e => (Raise e, w2)
              | Ok method, Ok account_id =>
                  match invoke method account_id backup_data "manual"
                               ("手动备份 - " +:+ timestamp) db1 with
                  | (Ok _, db2) =>
                      (Ok path, mkWorld (environ w) (files w2) db2 (ui w))
                  | (Raise e, db2) =>
                      (Raise e, mkWorld (environ w) (files w2) db2 (ui w))
                  end
              end
        end
    end.

Definition add_ui (events : list ui_event) (w : world DB) : world DB :=
  mkWorld (environ w) (files w) (db w) (ui w ++ events).

(** [backup_thread]: the body between the loading dialog and the dialog
    that reports the outcome. *)
Definition backup_thread (timestamp : string) (can_open : bool) (w : world DB)
    : world DB :=
  let w0 := add_ui [ShowLoading "备份账号" "正在备份账号信息，请稍候..."] w in
  match backup_body timestamp can_open w0 with
  | (Ok path, w') =>
      add_ui [CloseLoading; ShowSuccess ("账号备份成功" +:+ newline +:+ "保存位置: " +:+ path)] w'
  | (Raise e, w') =>
      add_ui [CloseLoading; ShowError "账号备份失败" (str_exn e)] w'
  end.

End Backup.

End RegisterTab.

(** ** [tab/manageTab.py]: the refresh worker *)
Module ManageTab.

(** A decoded JSON document.  An object lists its members in the order of
    the text; as in [json.loads], the last member of a name counts.
    Fractional numbers are left out. *)
#[warnings="-register-all"]
Inductive json :=
| JNull
| JBool (b : bool)
| JNum (n : Z)
| JStr (s : string)
| JArr (items : list json)
| JObj (members : list (string * json)).

(** The sentinel the code writes for a value it does not know. *)
Definition UNKNOWN : string := "未知".

(** [bool(j)]. *)
Definition truthy_json (j : json) : bool :=
  match j with
  | JNull => false
  | JBool b => b
  | JNum n => negb (n =? 0)
  | JStr s => truthy_str s
  | JArr items => match items with [] => false | _ => true end
  | JObj members => match members with [] => false | _ => true end
  end.

Fixpoint member (key : string) (members : list (string * json)) : option json :=
  match members with
  | [] => None
  | (k, v) :: rest =>
      match member key rest with
      | Some v' => Some v'
      | None => if String.eqb k key then Some v else None
      end
  end.

(** [d.get(key, default)]; only a [dict] has the method. *)
Definition get (d : json) (key : string) (default : json) : res json :=
  match d with
  | JObj members => Ok (from_option id default (member key members))
  | _ => Raise (Exn AttributeError "object has no attribute 'get'")
  end.

(** ['@' in x]. *)
Definition has_at (x : json) : res bool :=
  match x with
  | JStr s => Ok (contains s "@")
  | JArr items =>
      Ok (existsb (fun j => match j with JStr s => String.eqb s "@" | _ => false end) items)
  | JObj members => Ok (bool_decide (is_Some (member "@" members)))
  | _ => Raise (Exn TypeError "argument is not iterable")
  end.

(** [x.split('@')[-1]]; only a [str] has the method. *)
Definition after_last_at (x : json) : res string :=
  match x with
  | JStr s => Ok (last_part (Py.split s "@"))
  | _ => Raise (Exn AttributeError "object has no attribute 'split'")
  end.

Inductive ui_event :=
| ShowLoading (title message : string)
| CloseLoading
| ShowSuccess (message : string)
| ShowWarning (title message : string)
| ShowError (title message : string).

(** The backup files with the records [csv.reader] yields for them, the
    rows of the tree view (item id, then column, then text), and the
    dialogs shown. *)
Record world := mkWorld {
  files : gmap string (list (list string));
  tree : gmap string (gmap string string);
  ui : list ui_event
}.

Definition account_defaults : gmap string string :=
  <["MOE_MAIL_URL" := ""]> (<["API_KEY" := ""]> (<["PASSWORD" := ""]>
  (<["DAYS" := UNKNOWN]> (<["QUOTA" := UNKNOWN]> (<["COOKIES_STR" := ""]>
  (<["EMAIL" := ""]> (<["DOMAIN" := ""]> ∅))))))).

Definition parse_row (account_data : gmap string string) (row : list string)
    : gmap string string :=
  match row with
  | key :: val :: _ =>
      if bool_decide (is_Some (account_data !! key)) then <[key := val]> account_data
      else account_data
  | _ => account_data
  end.

(** [parse_csv_file(csv_file)]: a missing or empty file leaves the
    defaults; the first record is skipped. *)
Definition parse_csv_file (csv_file : string) (w : world) : gmap string string :=
  match files w !! csv_file with
  | Some (_ :: rows) => fold_left parse_row rows account_defaults
  | _ => account_defaults
  end.

(** One field of [update_csv_file]: the first record with that key gets the
    value, or a new record is appended. *)
Fixpoint set_field (field val : string) (rows : list (list string)) : list (list string) :=
  match rows with
  | [] => [[field; val]]
  | row :: rest =>
      match row with
      | key :: _ :: more =>
          if String.eqb key field then (key :: val :: more) :: rest
          else row :: set_field field val rest
      | _ => row :: set_field field val rest
      end
  end.

(** [update_csv_file(csv_file, **fields_to_update)]. *)
Definition update_csv_file (csv_file : string) (fields_to_update : list (string * string))
    (w : world) : res unit * world :=
  match fields_to_update with
  | [] => (Ok tt, w)
  | _ =>
      match files w !! csv_file with
      | None => (Raise (Exn OSError "No such file or directory"), w)
      | Some rows =>
          let rows := fold_left (fun rows fv => set_field (fst fv) (snd fv) rows)
                                fields_to_update rows in
          (Ok tt, mkWorld (<[csv_file := rows]> (files w)) (tree w) (ui w))
      end
  end.

(** [self.account_tree.set(item, column, value)]. *)
Definition tree_set (item column val : string) (w : world) : res unit * world :=
  match tree w !! item with
  | None => (Raise (Exn TclError ("Item " +:+ item +:+ " not found")), w)
  | Some values =>
      (Ok tt, mkWorld (files w) (<[item := <[column := val]> values]> (tree w)) (ui w))
  end.

Fixpoint tree_set_all (item : string) (cells : list (string * string)) (w : world)
    : res unit * world :=
  match cells with
  | [] => (Ok tt, w)
  | (column, val) :: rest =>
      match tree_set item column val w with
      | (Ok _, w') => tree_set_all item rest w'
      | (Raise e, w') => (Raise e, w')
      end
  end.

Definition COOKIE_NAME : string := "WorkosCursorSessionToken".
Definition SEPARATOR : string := "%3A%3A".

Section Refresh.

(** [Utils.extract_token(cookies, name)] of the [utils] module: the token
    found, [None], or an exception. *)
Variable extract_token : string -> string -> res (option string).

(** [base64.b64decode] and [json.loads]. *)
Variable b64decode : string -> res string.
Variable json_loads : string -> res json.

(** [str] of a list or a dict. *)
Variable py_repr : json -> string.

(** [session.get(url).json()] under the given [Cookie] header; an
    exception is a [requests.RequestException]. *)
Variable http_get : string -> string -> res json.

(** [str(j)] and [f"{j}"]. *)
Definition py_str (j : json) : string :=
  match j with
  | JNull => "None"
  | JBool true => "True"
  | JBool false => "False"
  | JNum n => str_int n
  | JStr s => s
  | _ => py_repr j
  end.

Definition wrap {A} (prefix : string) (r : res A) : res A :=
  match r with
  | Ok a => Ok a
  | Raise e => Raise (Exn ValueError (prefix +:+ str_exn e))
  end.

(** [payload += '=' * (-len(payload) % 4)]. *)
Definition pad (payload : string) : string :=
  payload +:+ repeat_char "=" (Z.to_nat ((- Z.of_nat (String.length payload)) mod 4)).

Definition extract_user_id_from_jwt (cookies : string) : res json :=
  wrap "JWT 解析失败: "
    (bind (extract_token cookies COOKIE_NAME) (fun jwt_token =>
     match jwt_token with
     | None => Raise (Exn AttributeError "'NoneType' object has no attribute 'split'")
     | Some jwt_token =>
         let parts := Py.split jwt_token "." in
         if negb (length parts =? 3)%nat
         then Raise (Exn ValueError "无效的 JWT 格式")
         else
           bind (b64decode (pad (nth 1 parts ""))) (fun decoded =>
           bind (json_loads decoded) (fun payload_data =>
           bind (get payload_data "sub" JNull) (fun user_id =>
           if negb (truthy_json user_id)
           then Raise (Exn ValueError "JWT 中未找到用户 ID")
           else Ok user_id)))
     end)).

(** [make_request(url)]. *)
Definition make_request (cookie url : string) : res json :=
  wrap "API请求失败: " (http_get url cookie).

Definition derive_domain (email : json) : res string :=
  bind (has_at email) (fun b => if b then after_last_at email else Ok UNKNOWN).

Definition derive_quota (usage_data : json) : res string :=
  bind (get usage_data "gpt-4" (JObj [])) (fun gpt4_data =>
  bind (get gpt4_data "numRequestsTotal" (JNum 0)) (fun used_quota =>
  bind (get gpt4_data "maxRequestUsage" (JNum 0)) (fun max_quota =>
  Ok (if truthy_json max_quota
      then py_str used_quota +:+ " / " +:+ py_str max_quota
      else UNKNOWN)))).

(** The cookie header and the three addresses of a refresh. *)
Definition cookie_header (cookie_str : string) : string :=
  if startswith cookie_str (COOKIE_NAME +:+ "=") then cookie_str
  else COOKIE_NAME +:+ "=" +:+ cookie_str.

Definition URL_ME : string := "https://www.cursor.com/api/auth/me".
Definition URL_STRIPE : string := "https://www.cursor.com/api/auth/stripe".
Definition url_usage (user_id : json) : string :=
  "https://www.cursor.com/api/usage?user=" +:+ py_str user_id.

(** [get_trial_usage(cookie_str)]: domain, email, quota and days. *)
Definition get_trial_usage (cookie_str : string) : res (string * json * string * string) :=
  if negb (truthy_str cookie_str) then Raise (Exn ValueError "Cookie信息不能为空")
  else
    wrap "处理 JWT 失败: "
      (bind (extract_user_id_from_jwt cookie_str) (fun user_id =>
       let cookie_str := cookie_header cookie_str in
       wrap "获取账号信息失败: "
         (let future_user_info := make_request cookie_str URL_ME in
          let future_trial := make_request cookie_str URL_STRIPE in
          let future_usage := make_request cookie_str (url_usage user_id) in
          bind future_user_info (fun user_info =>
          bind (get user_info "email" (JStr UNKNOWN)) (fun email =>
          bind (derive_domain email) (fun domain =>
          bind future_trial (fun trial_data =>
          bind (get trial_data "daysRemainingOnTrial" (JStr UNKNOWN)) (fun days_field =>
          let days := py_str days_field in
          bind future_usage (fun usage_data =>
          bind (derive_quota usage_data) (fun quota =>
          Ok (domain, email, quota, days))))))))))).

Definition lookup_str (account_data : gmap string string) (key default : string) : string :=
  from_option id default (account_data !! key).

(** [update_single_account(csv_file_path, account_data)]. *)
Definition update_single_account (csv_file_path : string)
    (account_data : gmap string string) (w : world) : res string * world :=
  let cookie_str := lookup_str account_data "COOKIES_STR" "" in
  if negb (truthy_str cookie_str)
  then (Raise (Exn ValueError ("未找到账号 " +:+ lookup_str account_data "EMAIL" ""
                               +:+ " 的Cookie信息")), w)
  else
    match extract_user_id_from_jwt cookie_str with
    | Raise e => (Raise e, w)
    | Ok user_id =>
        let reconstructed_cookie :=
          if contains cookie_str SEPARATOR
          then COOKIE_NAME +:+ "=" +:+ py_str user_id +:+ SEPARATOR
               +:+ last_part (Py.split cookie_str SEPARATOR)
          else cookie_str in
        match get_trial_usage reconstructed_cookie with
        | Raise e => (Raise e, w)
        | Ok (domain, email, quota, days) =>
            let password := lookup_str account_data "PASSWORD" UNKNOWN in
            match tree_set_all csv_file_path
                    [("域名", domain); ("邮箱", py_str email); ("密码", password);
                     ("额度", quota); ("剩余天数", days)] w with
            | (Raise e, w1) => (Raise e, w1)
            | (Ok _, w1) =>
                match update_csv_file csv_file_path
                        [("DOMAIN", domain); ("EMAIL", py_str email);
                         ("PASSWORD", password); ("QUOTA", quota); ("DAYS", days);
                         ("COOKIES_STR", reconstructed_cookie)] w1 with
                | (Raise e, w2) =>
                    (Raise (Exn ValueError ("更新CSV文件失败: " +:+ str_exn e)), w2)
                | (Ok _, w2) =>
                    (Ok ("域名: " +:+ domain +:+ RegisterTab.newline
                         +:+ "邮箱: " +:+ py_str email +:+ RegisterTab.newline
                         +:+ "密码: " +:+ password +:+ RegisterTab.newline
                         +:+ "可用额度: " +:+ quota +:+ RegisterTab.newline
                         +:+ "剩余天数: " +:+ days), w2)
                end
            end
        end
    end.

(** The counters of [update_process]. *)
Record tally := mkTally {
  success_count : Z;
  failed_count : Z;
  error_messages : list string
}.

(** The loop over [accounts_to_update]: an exception of one account is
    counted and recorded, and the loop goes on. *)
Fixpoint update_each (accounts : list (string * gmap string string)) (t : tally)
    (w : world) : tally * world :=
  match accounts with
  | [] => (t, w)
  | (csv_file, account_data) :: rest =>
      match update_single_account csv_file account_data w with
      | (Ok _, w') =>
          update_each rest
            (mkTally (success_count t + 1) (failed_count t) (error_messages t)) w'
      | (Raise e, w') =>
          update_each rest
            (mkTally (success_count t) (failed_count t + 1)
               (error_messages t ++
                ["账号 " +:+ lookup_str account_data "EMAIL" "" +:+ " 更新失败: " +:+ str_exn e]))
            w'
      end
  end.

(** The dialog that closes [update_process]. *)
Definition report (t : tally) : ui_event :=
  if (0 <? success_count t) && (failed_count t =? 0) then
    ShowSuccess ("成功更新 " +:+ str_int (success_count t) +:+ " 个账号")
  else if (0 <? success_count t) && (0 <? failed_count t) then
    ShowWarning "部分更新失败"
      ("更新完成" +:+ RegisterTab.newline
       +:+ "成功: " +:+ str_int (success_count t) +:+ " 个" +:+ RegisterTab.newline
       +:+ "失败: " +:+ str_int (failed_count t) +:+ " 个" +:+ RegisterTab.newline
       +:+ RegisterTab.newline +:+ "失败详情:" +:+ RegisterTab.newline
       +:+ join RegisterTab.newline (error_messages t))
  else
    ShowError "更新失败"
      ("所有账号更新失败" +:+ RegisterTab.newline +:+ RegisterTab.newline
       +:+ "失败详情:" +:+ RegisterTab.newline
       +:+ join RegisterTab.newline (error_messages t)).

Definition add_ui (events : list ui_event) (w : world) : world :=
  mkWorld (files w) (tree w) (ui w ++ events).

(** [update_process]: [selected_item] is the selected tree item, if any;
    [csv_files] is what [get_csv_files()] returns. *)
Definition accounts_to_update (selected_item : option string) (csv_files : list string)
    (w : world) : list (string * gmap string string) :=
  match selected_item with
  | Some item =>
      if truthy_str item then [(item, parse_csv_file item w)]
      else (fun file => (file, parse_csv_file file w)) <$> csv_files
  | None => (fun file => (file, parse_csv_file file w)) <$> csv_files
  end.

Definition update_process (selected_item : option string) (csv_files : list string)
    (w : world) : tally * world :=
  let w0 := add_ui [ShowLoading "更新账号信息" "正在获取账号信息，请稍候..."] w in
  let '(t, w1) := update_each (accounts_to_update selected_item csv_files w0)
                              (mkTally 0 0 []) w0 in
  (t, add_ui [CloseLoading; report t] w1).

(** *** Vocabulary for statements about a batch *)

(** The outcome of each account of the batch, in order, each refresh
    starting from the world the previous one left. *)
Fixpoint outcomes (accounts : list (string * gmap string string)) (w : world)
    : list (res string) :=
  match accounts with
  | [] => []
  | (csv_file, account_data) :: rest =>
      let '(r, w') := update_single_account csv_file account_data w in
      r :: outcomes rest w'
  end.

(** Two worlds that agree on the dialogs and on every file and tree row
    but those of [item]. *)
Definition same_but (item : string) (w w' : world) : Prop :=
  ui w' = ui w /\
  forall q, q <> item -> files w' !! q = files w !! q /\ tree w' !! q = tree w !! q.

(** The number of failed accounts. *)
Definition failures (results : list (res string)) : nat :=
  length (filter (fun r => is_ok r = false) results).

(** The world the batch leaves. *)
Definition world_after (accounts : list (string * gmap string string)) (w : world) : world :=
  (update_each accounts (mkTally 0 0 []) w).2.

(** The message recorded for a failed account. *)
Definition failure_message (account : string * gmap string string) (r : res string)
    : option string :=
  match r with
  | Ok _ => None
  | Raise e =>
      Some ("账号 " +:+ lookup_str (snd account) "EMAIL" "" +:+ " 更新失败: " +:+ str_exn e)
  end.

(** *** The derived fields, as the specification words them *)

(** The quota when every field the response lacks is replaced by the
    sentinel, the used-requests counter included. *)
Definition quota_as_worded (gpt4 : list (string * json)) : string :=
  let used := from_option id (JStr UNKNOWN) (member "numRequestsTotal" gpt4) in
  let max := from_option id (JNum 0) (member "maxRequestUsage" gpt4) in
  if truthy_json max then py_str used +:+ " / " +:+ py_str max else UNKNOWN.

(** The derived fields as the code computes them from the members of the
    three responses. *)
Definition derived_email (user_info : list (string * json)) : json :=
  from_option id (JStr UNKNOWN) (member "email" user_info).

Definition derived_domain (email : string) : string :=
  if contains email "@" then last_part (Py.split email "@") else UNKNOWN.

Definition derived_days (trial_data : list (string * json)) : string :=
  py_str (from_option id (JStr UNKNOWN) (member "daysRemainingOnTrial" trial_data)).

Definition derived_quota (gpt4 : list (string * json)) : string :=
  let used := from_option id (JNum 0) (member "numRequestsTotal" gpt4) in
  let max := from_option id (JNum 0) (member "maxRequestUsage" gpt4) in
  if truthy_json max then py_str used +:+ " / " +:+ py_str max else UNKNOWN.


End Refresh.

End ManageTab.

(** ** Stand-ins for the library functions, to run the refresh worker

    They cover the inputs of the examples and raise on anything else; the
    statements below hold for every choice of these functions. *)
Module Reference.

Import ManageTab.

Definition b64_digit (c : ascii) : option N :=
  let n := N_of_ascii c in
  if (65 <=? n)%N && (n <=? 90)%N then Some (n - 65)%N
  else if (97 <=? n)%N && (n <=? 122)%N then Some (n - 71)%N
  else if (48 <=? n)%N && (n <=? 57)%N then Some (n + 4)%N
  else if (n =? 43)%N then Some 62%N
  else if (n =? 47)%N then Some 63%N
  else None.

(** The digits up to the padding; [None] on a character outside the
    alphabet. *)
Fixpoint b64_digits (s : string) : option (list N) :=
  match s with
  | EmptyString => Some []
  | String c s' =>
      if Ascii.eqb c "=" then Some []
      else match b64_digit c, b64_digits s' with
           | Some d, Some ds => Some (d :: ds)
           | _, _ => None
           end
  end.

Definition byte (n : N) : ascii := ascii_of_N (n mod 256).

Fixpoint b64_bytes (ds : list N) : option string :=
  match ds with
  | [] => Some EmptyString
  | [_] => None
  | [a; b] => Some (String (byte (a * 4 + b / 16)) EmptyString)
  | [a; b; c] =>
      Some (String (byte (a * 4 + b / 16))
           (String (byte ((b mod 16) * 16 + c / 4)) EmptyString))
  | a :: b :: c :: d :: rest =>
      match b64_bytes rest with
      | Some s =>
          Some (String (byte (a * 4 + b / 16))
               (String (byte ((b mod 16) * 16 + c / 4))
               (String (byte ((c mod 4) * 64 + d)) s)))
      | None => None
      end
  end.

(** Base64 over the standard alphabet, for padded text. *)
Definition b64decode (s : string) : res string :=
  match b64_digits s with
  | Some ds =>
      match b64_bytes ds with
      | Some bytes => Ok bytes
      | None => Raise (Exn BinasciiError "Incorrect padding")
      end
  | None => Raise (Exn BinasciiError "character outside the alphabet")
  end.

Definition quote : ascii := "034".

Definition quoted (s : string) : bool :=
  startswith s (String quote EmptyString) && endswith s (String quote EmptyString)
  && (2 <=? String.length s)%nat.

Definition json_member (text : string) : option (string * json) :=
  match split1 text ":" with
  | [k; v] =>
      if quoted k && quoted v
      then Some (strip_char quote k, JStr (strip_char quote v))
      else None
  | _ => None
  end.

Fixpoint json_members (texts : list string) : option (list (string * json)) :=
  match texts with
  | [] => Some []
  | text :: rest =>
      match json_member text, json_members rest with
      | Some m, Some ms => Some (m :: ms)
      | _, _ => None
      end
  end.

(** Objects whose members are strings without commas, colons or escapes. *)
Definition json_loads (s : string) : res json :=
  if startswith s "{" && endswith s "}" then
    let inner := String.rev (Py.drop 1 (String.rev (Py.drop 1 s))) in
    if negb (truthy_str inner) then Ok (JObj [])
    else match json_members (Py.split inner ",") with
         | Some ms => Ok (JObj ms)
         | None => Raise (Exn JSONDecodeError "outside the stand-in")
         end
  else Raise (Exn JSONDecodeError "outside the stand-in").

(** The token is what follows the last separator of the cookie. *)
Definition extract_token (cookies name : string) : res (option string) :=
  if contains cookies SEPARATOR then Ok (Some (last_part (Py.split cookies SEPARATOR)))
  else Ok None.

Definition py_repr (j : json) : string := "<object>".

End Reference.

(** ** Concrete inputs used to run the model *)

(** The scenario of the specification: one account without quota. *)
Definition example_account : gmap string value :=
  <["quota" := VNull]> (<["password" := VText "p"]>
  (<["email" := VText "a@example.com"]> (<["domain" := VText "example.com"]> ∅))).

(** A gateway with five connections over an empty table; the server's
    clock reads 1000. *)
Definition empty_store : neon Pg.db :=
  mkNeon (Pool.create 5) (Pg.mkDb [] 1 1000) 3.

(** The store after the account was added at client time 1000. *)
Definition example_store : neon Pg.db :=
  (add_account Pg.execute 1000 example_account empty_store).2.


(** A second, younger account that has a quota. *)
Definition second_account : gmap string value :=
  <["quota" := VText "7 / 50"]> (<["password" := VText "q"]>
  (<["email" := VText "b@example.org"]> (<["domain" := VText "example.org"]> ∅))).

(** Both accounts stored; the second was created at server time 2000. *)
Definition two_accounts_store : neon Pg.db :=
  (add_account Pg.execute 2000 second_account
     (mkNeon (nd_pool example_store)
             (Pg.mkDb (Pg.accounts (nd_db example_store))
                      (Pg.next_id (nd_db example_store)) 2000) 3)).2.

(** A backup file of the first account with a new password, and one that
    lacks the password. *)
Definition backup_file : source :=
  CsvRecords [["variable"; "value"]; ["DOMAIN"; "example.com"];
              ["EMAIL"; "a@example.com"]; ["PASSWORD"; "changed"]].

Definition file_without_password : source :=
  CsvRecords [["variable"; "value"]; ["DOMAIN"; "example.com"];
              ["EMAIL"; "a@example.com"]].

(** The process after the first account was registered: its email in the
    environment, no backup file yet. *)
Definition example_world : RegisterTab.world Pg.db :=
  RegisterTab.mkWorld (<["EMAIL" := "a@example.com"]> ∅) ∅ example_store [].

(** A session cookie whose token carries the subject [user_01]. *)
Definition example_cookie : string :=
  "user_00%3A%3Aaaaa.eyJzdWIiOiJ1c2VyXzAxIn0.ssss".

(** The remote service: the three endpoints answer, the usage endpoint
    with the given document. *)
Definition example_http (usage : ManageTab.json) (url cookie : string) : res ManageTab.json :=
  if String.eqb url ManageTab.URL_ME
  then Ok (ManageTab.JObj [("email", ManageTab.JStr "a@example.com")])
  else if String.eqb url ManageTab.URL_STRIPE
  then Ok (ManageTab.JObj [("daysRemainingOnTrial", ManageTab.JNum 14)])
  else if startswith url "https://www.cursor.com/api/usage?user="
  then Ok usage
  else Raise (Exn RequestException "404 Client Error").

(** A usage document with both counters, and one without the used
    counter. *)
Definition usage_full : ManageTab.json :=
  ManageTab.JObj [("gpt-4", ManageTab.JObj [("numRequestsTotal", ManageTab.JNum 120);
                                            ("maxRequestUsage", ManageTab.JNum 500)])].

Definition usage_without_used : ManageTab.json :=
  ManageTab.JObj [("gpt-4", ManageTab.JObj [("maxRequestUsage", ManageTab.JNum 500)])].

(** Two backup files, the second without a cookie, both shown in the tree. *)
Definition FILE_1 : string := "env_backups/cursor_account_20250101_000000.csv".
Definition FILE_2 : string := "env_backups/cursor_account_20250102_000000.csv".

Definition example_backups : ManageTab.world :=
  ManageTab.mkWorld
    (<[FILE_1 := [["variable"; "value"]; ["DOMAIN"; "old.example"];
                  ["EMAIL"; "a@example.com"]; ["PASSWORD"; "p"];
                  ["COOKIES_STR"; example_cookie]]]>
     (<[FILE_2 := [["variable"; "value"]; ["DOMAIN"; "example.org"];
                   ["EMAIL"; "b@example.org"]; ["PASSWORD"; "q"]]]> ∅))
    (<[FILE_1 := ∅]> (<[FILE_2 := ∅]> ∅))
    [].

(** The example store after [n] further updates of the first account. *)
Fixpoint after_updates (n : nat) (s : neon Pg.db) : neon Pg.db :=
  match n with
  | O => s
  | S n' =>
      after_updates n'
        (update_account Pg.execute 3000 (VInt 1) (<["quota" := VText "5 / 100"]> ∅) s).2
  end.

(** The example world with a backup already written in the same second. *)
Definition world_with_backup : RegisterTab.world Pg.db :=
  RegisterTab.mkWorld (<["EMAIL" := "a@example.com"]> ∅)
    (<["env_backups/cursor_account_20250101_000000.csv" := "earlier backup"]> ∅)
    example_store [].

(** A server that refuses twice and accepts the third attempt. *)
Definition connect_third_time (k : nat) : res Pool.t :=
  if (k <? 2)%nat then Raise (Exn OSError "could not connect to server")
  else Ok (Pool.create 5).

(** ** [db.py]: setting up the schema *)

Section Setup.

Context {DB : Type}.
Variable execute : query -> DB -> res (cursor * DB).

(** [create_accounts_table()]. *)
Definition create_accounts_table (s : neon DB) : bool * neon DB :=
  create_table execute "accounts" Pg.accounts_columns s.

(** [init_database()]: the flag of [create_accounts_table] is dropped.
    [create_table] catches every exception itself, so the [except] branch
    of [init_database] has nothing to catch. *)
Definition init_database (s : neon DB) : bool * neon DB :=
  let '(_, s') := create_accounts_table s in (true, s').

End Setup.

(** ** [main.py]: synchronising the local files with the server *)
Module Main.

Section Sync.

Context {DB : Type}.
Variable execute : query -> DB -> res (cursor * DB).

(** The loop [for backup_file in backup_files: db.import_from_csv(backup_file)],
    with the flag of every import; [clock k] is the reading of
    [datetime.now()] during import number [k]. *)
Fixpoint import_each (files : list (option source)) (clock : nat -> Z) (k : nat)
    (s : neon DB) : list bool * neon DB :=
  match files with
  | [] => ([], s)
  | file :: rest =>
      let '(ok, s1) := import_from_csv execute (clock k) file s in
      let '(oks, s2) := import_each rest clock (S k) s1 in
      (ok :: oks, s2)
  end.

(** [sync_accounts_to_db()].  [NeonDB()] is created with the defaults
    ([db_url=None], [max_retries=3]) against [server]; [env_file] is the
    file [.env] when it exists (its lines, or [None] when it cannot be
    opened); [backup_files] are the files [glob] finds in [env_backups]
    (none when the directory is missing), each with its records.  The
    result is the flag returned and the server as the function leaves it;
    the gateway is local to the function and closed at its end. *)
Definition sync_accounts_to_db (env_url : option string) (connect : nat -> res Pool.t)
    (server : DB) (env_file : option (option (list string)))
    (backup_files : list (option (list (list string)))) (clock : nat -> Z) : bool * DB :=
  match (init None env_url connect 3).1 with
  | Some (Ok pool) =>
      let s := mkNeon pool server 3 in
      let s1 :=
        match env_file with
        | Some lines => (import_from_csv execute (clock 0%nat) (option_map EnvLines lines) s).2
        | None => s
        end in
      let s2 := (import_each (option_map CsvRecords <$> backup_files) clock 1 s1).2 in
      let '(accounts, s3) := get_account_list execute None None None s2 in
      (true, nd_db s3)
  | _ => (false, server)
  end.

End Sync.

End Main.

(** ** Vocabulary for statements about the table *)

(** The rows in the order of [ORDER BY created_at DESC]. *)
Definition newest_first (rows : list tuple) : list tuple :=
  foldr Pg.insert_sorted [] rows.

(** The rows [get_account_list(status)] asks for: all of them under a
    falsy [status]. *)
Definition with_status (status : option string) (rows : list tuple) : list tuple :=
  if truthy_opt_str status
  then filter (fun row => Pg.sql_eq (Pg.cell 9 row) (from_option VText VNull status) = true) rows
  else rows.

(** Some row has this email. *)
Definition stored (email : value) (d : Pg.db) : Prop :=
  with_email email (Pg.accounts d) <> [].

(** A file [import_from_csv] takes: it can be opened, its values pass the
    checks of their columns, and email and password are not empty. *)
Definition importable (file : option source) : Prop :=
  exists src, file = Some src
    /\ accepted (parse_source src)
    /\ truthy (get_or_empty (parse_source src) "EMAIL") = true
    /\ truthy (get_or_empty (parse_source src) "PASSWORD") = true.

(** The email a file names. *)
Definition email_of (file : option source) : value :=
  match file with
  | Some src => get_or_empty (parse_source src) "EMAIL"
  | None => VNull
  end.

(** The connections the pool can still hand out. *)
Definition free_connections {DB} (s : neon DB) : nat :=
  (Pool.maxconn (nd_pool s) - length (in_use s))%nat.

(** The records [export_to_csv] writes for a list of accounts. *)
Definition exported_records (str_datetime : Z -> string) (accounts : list tuple)
    : list (list string) :=
  ["variable"; "value"]
  :: concat ((fun account => kv_records (exported_pairs str_datetime account)) <$> accounts).

(** ** [tab/manageTab.py]: the list, the selection, deletion and the silent
      refresh *)
Module AccountList.

Import ManageTab.

(** The headings of the tree view, in order ([COLUMNS.keys()]). *)
Definition COLUMNS : list string := ["域名"; "邮箱"; "密码"; "额度"; "剩余天数"].

(** The row of the tree view that holds [values] under the headings. *)
Definition tree_row (values : list string) : gmap string string :=
  list_to_map (zip COLUMNS values).

(** [self.account_tree.insert('', 'end', iid=iid, values=values)]. *)
Definition tree_insert (iid : string) (values : list string) (w : world) : res unit * world :=
  match tree w !! iid with
  | Some _ => (Raise (Exn TclError ("Item " +:+ iid +:+ " already exists")), w)
  | None => (Ok tt, mkWorld (files w) (<[iid := tree_row values]> (tree w)) (ui w))
  end.

(** The values [refresh_list] shows for an account. *)
Definition list_values (account_data : gmap string string) : list string :=
  [ lookup_str account_data "DOMAIN" "";
    lookup_str account_data "EMAIL" "";
    lookup_str account_data "PASSWORD" UNKNOWN;
    lookup_str account_data "QUOTA" UNKNOWN;
    lookup_str account_data "DAYS" UNKNOWN ].

(** The loop of [refresh_list] over the files found. *)
Fixpoint list_files (csv_files : list string) (w : world) : res unit * world :=
  match csv_files with
  | [] => (Ok tt, w)
  | csv_file :: rest =>
      match tree_insert csv_file (list_values (parse_csv_file csv_file w)) w with
      | (Ok _, w') => list_files rest w'
      | (Raise e, w') => (Raise e, w')
      end
  end.

(** [refresh_list()]: every row of the tree is deleted, then one row per
    file is inserted; [csv_files] is what [get_csv_files()] returns. *)
Definition refresh_list (csv_files : list string) (w : world) : world :=
  let w0 := mkWorld (files w) ∅ (ui w) in
  match list_files csv_files w0 with
  | (Ok _, w') => w'
  | (Raise e, w') => add_ui [ShowError "刷新列表失败" (str_exn e)] w'
  end.

(** [account_data[key]] on the dict of [parse_csv_file], which always has
    the key. *)
Definition at_key (account_data : gmap string string) (key : string) : string :=
  default "" (account_data !! key).

(** [get_selected_account()].  The values of a tree row reach the fifth
    heading exactly when the row has a text under it. *)
Definition get_selected_account (selected_item : option string) (w : world)
    : res (string * gmap string string) :=
  if negb (truthy_opt_str selected_item)
  then Raise (Exn ValueError "请先选择要操作的账号")
  else
    let item := default "" selected_item in
    match tree w !! item with
    | None => Raise (Exn TclError ("Item " +:+ item +:+ " not found"))
    | Some item_values =>
        if negb (bool_decide (is_Some (item_values !! "剩余天数")))
        then Raise (Exn ValueError "所选账号信息不完整")
        else
          let account_data := parse_csv_file item w in
          if negb (truthy_str (at_key account_data "EMAIL"))
             || negb (truthy_str (at_key account_data "PASSWORD"))
             || negb (truthy_str (at_key account_data "COOKIES_STR"))
          then Raise (Exn ValueError "账号信息不完整")
          else Ok (item, account_data)
    end.

(** [handle_account_action(action_name, action)]. *)
Definition handle_account_action (action_name : string)
    (action : string -> gmap string string -> world -> res unit * world)
    (selected_item : option string) (w : world) : world :=
  match get_selected_account selected_item w with
  | Raise e => add_ui [ShowError (action_name +:+ "失败") (str_exn e)] w
  | Ok (csv_file_path, account_data) =>
      match action csv_file_path account_data w with
      | (Ok _, w') => w'
      | (Raise e, w') => add_ui [ShowError (action_name +:+ "失败") (str_exn e)] w'
      end
  end.

Definition confirm_message (account_data : gmap string string) : string :=
  "确定要删除以下账号吗？" +:+ RegisterTab.newline +:+ RegisterTab.newline
  +:+ "邮箱：" +:+ at_key account_data "EMAIL" +:+ RegisterTab.newline
  +:+ "密码：" +:+ at_key account_data "PASSWORD" +:+ RegisterTab.newline
  +:+ "Cookie：" +:+ at_key account_data "COOKIES_STR".

(** [process_delete]: [os.remove(csv_file_path)], then
    [self.account_tree.delete(self.selected_item)]; the selection is the
    one [get_selected_account] read.  The dialogs are listed in the order
    in which the code asks for them (the loading dialog and its closing
    are scheduled on the main loop, the success dialog is shown by the
    worker itself). *)
Definition process_delete (csv_file_path : string) (account_data : gmap string string)
    (w : world) : world :=
  let w0 := add_ui [ShowLoading "删除账号" "正在删除账号信息，请稍候..."] w in
  match files w0 !! csv_file_path with
  | None =>
      add_ui [CloseLoading;
              ShowError "删除账号失败"
                ("[Errno 2] No such file or directory: '" +:+ csv_file_path +:+ "'")] w0
  | Some _ =>
      let w1 := mkWorld (base.delete csv_file_path (files w0)) (tree w0) (ui w0) in
      match tree w1 !! csv_file_path with
      | None =>
          add_ui [CloseLoading;
                  ShowError "删除账号失败" ("Item " +:+ csv_file_path +:+ " not found")] w1
      | Some _ =>
          add_ui [CloseLoading; ShowSuccess ("已删除账号: " +:+ at_key account_data "EMAIL")]
            (mkWorld (files w1) (base.delete csv_file_path (tree w1)) (ui w1))
      end
  end.

(** [delete_account_file]: [askyesno] is the answer to the confirmation
    dialog. *)
Definition delete_account_file (askyesno : string -> string -> bool)
    (csv_file_path : string) (account_data : gmap string string) (w : world)
    : res unit * world :=
  if negb (askyesno "确认删除" (confirm_message account_data)) then (Ok tt, w)
  else (Ok tt, process_delete csv_file_path account_data w).

(** [delete_account()]. *)
Definition delete_account (askyesno : string -> string -> bool)
    (selected_item : option string) (w : world) : world :=
  handle_account_action "删除账号" (delete_account_file askyesno) selected_item w.

Section Silent.

Variable extract_token : string -> string -> res (option string).
Variable b64decode : string -> res string.
Variable json_loads : string -> res json.
Variable py_repr : json -> string.
Variable http_get : string -> string -> res json.

(** The body of the loop of [auto_update_info]: an account without cookie
    is skipped, and an exception ends the work on the account. *)
Definition auto_update_one (csv_file : string) (account_data : gmap string string)
    (w : world) : world :=
  let cookie_str := lookup_str account_data "COOKIES_STR" "" in
  if negb (truthy_str cookie_str) then w
  else
    match extract_user_id_from_jwt extract_token b64decode json_loads cookie_str with
    | Raise _ => w
    | Ok user_id =>
        let reconstructed_cookie :=
          if contains cookie_str SEPARATOR
          then COOKIE_NAME +:+ "=" +:+ py_str py_repr user_id +:+ SEPARATOR
               +:+ last_part (Py.split cookie_str SEPARATOR)
          else cookie_str in
        match get_trial_usage extract_token b64decode json_loads py_repr http_get
                reconstructed_cookie with
        | Raise _ => w
        | Ok (domain, email, quota, days) =>
            let password := lookup_str account_data "PASSWORD" UNKNOWN in
            match tree_set_all csv_file
                    [("域名", domain); ("邮箱", py_str py_repr email); ("密码", password);
                     ("额度", quota); ("剩余天数", days)] w with
            | (Raise _, w1) => w1
            | (Ok _, w1) =>
                (update_csv_file csv_file
                   [("DOMAIN", domain); ("EMAIL", py_str py_repr email);
                    ("PASSWORD", password); ("QUOTA", quota); ("DAYS", days);
                    ("COOKIES_STR", reconstructed_cookie)] w1).2
            end
        end
    end.

Fixpoint auto_update_each (accounts : list (string * gmap string string)) (w : world)
    : world :=
  match accounts with
  | [] => w
  | (csv_file, account_data) :: rest =>
      auto_update_each rest (auto_update_one csv_file account_data w)
  end.

(** [auto_update_info()]: every file is parsed first, then the loop runs. *)
Definition auto_update_info (csv_files : list string) (w : world) : world :=
  auto_update_each ((fun file => (file, parse_csv_file file w)) <$> csv_files) w.

End Silent.

(** *** Vocabulary for statements about backup files *)

(** A record [parse_csv_file] and [update_csv_file] read as the pair of
    [key]: at least two cells, the first one [key]. *)
Definition keyed (key : string) (row : list string) : bool :=
  match row with
  | k :: _ :: _ => String.eqb k key
  | _ => false
  end.

(** The values the records of [key] hold, in the order of the file. *)
Definition values_of (key : string) (rows : list (list string)) : list string :=
  omap (fun row => if keyed key row then Some (nth 1 row "") else None) rows.

Definition occurrences (key : string) (rows : list (list string)) : nat :=
  length (values_of key rows).

(** The keys of an account. *)
Definition ACCOUNT_KEYS : list string :=
  ["DOMAIN"; "EMAIL"; "COOKIES_STR"; "QUOTA"; "DAYS"; "PASSWORD"; "API_KEY"; "MOE_MAIL_URL"].

(** A backup file in which [update_csv_file] and [parse_csv_file] agree on
    the record of each of [keys]: the first record (the header, which
    [parse_csv_file] skips) is of none of them, and each has at most one
    record. *)
Definition single_records (keys : list string) (records : list (list string)) : Prop :=
  match records with
  | [] => False
  | header :: rows =>
      forall key, key ∈ keys -> keyed key header = false /\ (occurrences key rows <= 1)%nat
  end.

End AccountList.

(** ** Reading a text file with [csv.reader] *)
Module Csv.

(** The lines a text file yields when it is iterated: the text is cut
    after every newline. *)
Definition file_lines (text : string) : list string :=
  let parts := Py.split text RegisterTab.newline in
  if String.eqb (last_part parts) "" then removelast parts else parts.

(** [csv.reader] over a text that holds no quote character, no carriage
    return and no NUL: a line is cut at every comma, and an empty line is
    an empty record. *)
Definition reader (text : string) : list (list string) :=
  (fun line => if String.eqb line "" then [] else Py.split line ",") <$> file_lines text.

Fixpoint has_char (c : ascii) (s : string) : bool :=
  match s with
  | EmptyString => false
  | String d s' => Ascii.eqb c d || has_char c s'
  end.

(** A cell that needs no quoting: no comma, no quote character, no line
    break, no NUL. *)
Definition plain (s : string) : bool :=
  negb (has_char "," s) && negb (has_char "034" s)
  && negb (has_char "010" s) && negb (has_char "013" s)
  && negb (has_char "000" s).

End Csv.

(** ** Vocabulary for the account list *)

(** The part of a result that [LIMIT] and [OFFSET] leave, a falsy argument
    adding no clause. *)
Definition page (limit offset : option Z) (rows : list tuple) : list tuple :=
  let rows :=
    if truthy_opt_int offset then skipn (Z.to_nat (default 0 offset)) rows else rows in
  if truthy_opt_int limit then firstn (Z.to_nat (default 0 limit)) rows else rows.

(** [a] is listed before [b] under [ORDER BY created_at DESC]: [a] has no
    created timestamp, or both have one and that of [a] is not the
    earlier. *)
Definition listed_before (a b : tuple) : Prop :=
  forall x, Pg.created_at_of a = Some x ->
    exists y, Pg.created_at_of b = Some y /\ y <= x.

(** ** Further concrete inputs *)

(** The records of [backup_file], and six backup files that hold them. *)
Definition backup_records : list (list string) :=
  [["variable"; "value"]; ["DOMAIN"; "example.com"];
   ["EMAIL"; "a@example.com"]; ["PASSWORD"; "changed"]].

Definition six_backups : list (list (list string)) := replicate 6 backup_records.

(** The stored row of the first account. *)
Definition example_row : tuple :=
  [VInt 1; VText "example.com"; VText "a@example.com"; VText "p";
   VNull; VNull; VNull; VNull; VNull; VText "active"; VTime 1000; VTime 1000].

(** ** Vocabulary for statements about written files *)

(** The lines [backup_thread] writes after the header, without their
    newline: one per truthy value. *)
Definition backup_file_lines (str_datetime : Z -> string)
    (backup_data : list (string * value)) : list string :=
  omap (fun kv : string * value =>
          if truthy (snd kv)
          then Some (fst kv +:+ "," +:+ csv_cell str_datetime (snd kv))
          else None) backup_data.

(** The same lines as records of two cells. *)
Definition backup_file_records (str_datetime : Z -> string)
    (backup_data : list (string * value)) : list (list string) :=
  omap (fun kv : string * value =>
          if truthy (snd kv)
          then Some [fst kv; csv_cell str_datetime (snd kv)]
          else None) backup_data.

(** What [backup_thread] collects for the stored row of the first
    account, and the directory after it wrote the file, as the manage tab
    reads it. *)
Definition example_backup_data : list (string * value) :=
  [("DOMAIN", VText "example.com"); ("EMAIL", VText "a@example.com");
   ("PASSWORD", VText "p"); ("COOKIES_STR", VNull); ("API_KEY", VNull);
   ("MOE_MAIL_URL", VNull); ("QUOTA", VNull); ("DAYS", VNull)].

Definition written_backup : ManageTab.world :=
  ManageTab.mkWorld
    (<[FILE_1 := Csv.reader (RegisterTab.backup_text str_int example_backup_data)]> ∅) ∅ [].

(** ** Vocabulary for the lines of a [.env] file *)
Module Env.

Fixpoint all_chars (p : ascii -> bool) (s : string) : bool :=
  match s with
  | EmptyString => true
  | String c s' => p c && all_chars p s'
  end.

(** Nothing but ASCII white space. *)
Definition blank (s : string) : bool := all_chars is_space s.

(** A byte [str.strip()] may take away: ASCII white space, or a byte of a
    character outside ASCII, which may be white space. *)
Definition strippable (c : ascii) : bool :=
  is_space c || (128 <=? nat_of_ascii c)%nat.

Definition first_clear (p : ascii -> bool) (s : string) : bool :=
  match s with
  | EmptyString => true
  | String c _ => negb (p c)
  end.

(** Neither the first nor the last character is one of [p]. *)
Definition no_outer (p : ascii -> bool) (s : string) : bool :=
  first_clear p s && first_clear p (String.rev s).

Definition is_quote (c : ascii) : bool := Ascii.eqb "'" c || Ascii.eqb "034" c.

(** The three ways to write a value: bare, or between single or double
    quotes. *)
Definition QUOTES : list string := [""; "'"; String "034" ""].

End Env.

(** A backup file, edited by hand, that names the quota twice. *)
Definition repeated_quota : ManageTab.world :=
  ManageTab.mkWorld
    (<[FILE_1 := [["variable"; "value"]; ["EMAIL"; "a@example.com"];
                  ["QUOTA"; "1 / 50"]; ["QUOTA"; "2 / 50"]]]> ∅) ∅ [].

(** * Properties *)

(** ** Connections: who puts them back *)

Section Connections.

Context {DB : Type}.
Variable execute : query -> DB -> res (cursor * DB).
Variable executemany : string -> list (list value) -> DB -> res (cursor * DB).

Lemma get_connection_ok (s s1 : neon DB) conn :
  get_connection s = (Ok conn, s1) ->
  in_use s1 = conn :: in_use s /\ nd_db s1 = nd_db s /\ max_retries s1 = max_retries s.
Proof.
  unfold get_connection, Pool.getconn, in_use.
  destruct (length (Pool.used (nd_pool s)) <? Pool.maxconn (nd_pool s))%nat;
    intros [= <- <-]; simpl; auto.
Qed.

Lemma get_connection_raise (s s1 : neon DB) e :
  get_connection s = (Raise e, s1) ->
  in_use s1 = in_use s /\ nd_db s1 = nd_db s /\ max_retries s1 = max_retries s
  /\ Pool.exhausted (nd_pool s).
Proof.
  unfold get_connection, Pool.getconn, in_use, Pool.exhausted.
  destruct (length (Pool.used (nd_pool s)) <? Pool.maxconn (nd_pool s))%nat eqn:E;
    intros [= <- <-]; simpl; repeat split.
  apply Nat.ltb_ge in E. lia.
Qed.

Lemma get_connection_free (s : neon DB) :
  ~ Pool.exhausted (nd_pool s) ->
  exists conn s1, get_connection s = (Ok conn, s1).
Proof.
  unfold get_connection, Pool.getconn, Pool.exhausted. intros H.
  destruct (length (Pool.used (nd_pool s)) <? Pool.maxconn (nd_pool s))%nat eqn:E.
  - eauto.
  - apply Nat.ltb_ge in E. lia.
Qed.

(** The [finally] block hands back the connection that [get_connection]
    put at the head of the list, whatever the pending outcome. *)
Lemma finally_release_head {A} conn (outcome : res A) (s : neon DB) :
  head (in_use s) = Some conn ->
  exists s', finally_release conn outcome s = (outcome, s') /\
             in_use s' = tail (in_use s) /\ nd_db s' = nd_db s
             /\ max_retries s' = max_retries s.
Proof.
  unfold finally_release, release_connection, Pool.putconn, in_use.
  destruct (Pool.used (nd_pool s)) as [|c l] eqn:E; [done|]. intros [= ->].
  rewrite bool_decide_true by set_solver.
  eexists. split; [reflexivity|]. simpl. by rewrite Nat.eqb_refl.
Qed.

(** [execute_query] on its three exit paths: no connection to be had, an
    exception after the connection was obtained, and success. *)
Lemma execute_query_cases q fetch_one fetch_all (s : neon DB) :
  let '(r, s') := execute_query execute q fetch_one fetch_all s in
  in_use s' = in_use s /\ max_retries s' = max_retries s /\
  ((exists e, r = Raise e /\ Pool.exhausted (nd_pool s) /\ nd_db s' = nd_db s) \/
   (exists e, r = Raise e /\ ~ Pool.exhausted (nd_pool s) /\ nd_db s' = nd_db s /\
              run_and_fetch execute q fetch_one fetch_all (nd_db s) = Raise e) \/
   (exists result, r = Ok result /\ ~ Pool.exhausted (nd_pool s) /\
              run_and_fetch execute q fetch_one fetch_all (nd_db s) = Ok (result, nd_db s'))).
Proof.
  unfold execute_query.
  destruct (get_connection s) as [[conn|e] s1] eqn:G.
  - assert (~ Pool.exhausted (nd_pool s)) as Hfree.
    { revert G. unfold get_connection, Pool.getconn, Pool.exhausted.
      destruct (length (Pool.used (nd_pool s)) <? Pool.maxconn (nd_pool s))%nat eqn:E;
        [|by intros [= ]]. apply Nat.ltb_lt in E. lia. }
    apply get_connection_ok in G as (Hu & Hdb & Hm). rewrite Hdb.
    destruct (run_and_fetch execute q fetch_one fetch_all (nd_db s)) as [[r db']|e] eqn:R.
    + destruct (finally_release_head conn (Ok r) (mkNeon (nd_pool s1) db' (max_retries s1)))
        as (s' & -> & Hs' & Hdb' & Hm').
      { unfold in_use in *. simpl. by rewrite Hu. }
      unfold in_use in *. simpl in *. rewrite Hs', Hu, Hm', Hm. simpl.
      repeat split. right. right. exists r. by rewrite Hdb'.
    + destruct (finally_release_head conn (@Raise fetched e) s1) as (s' & -> & Hs' & Hdb' & Hm').
      { by rewrite Hu. }
      rewrite Hs', Hu, Hm', Hm. simpl. repeat split. right. left. exists e.
      by rewrite Hdb', Hdb.
  - apply get_connection_raise in G as (Hu & Hdb & Hm & Hex).
    repeat split; try done. left. by exists e.
Qed.

Lemma execute_query_releases q fetch_one fetch_all (s : neon DB) :
  in_use (execute_query execute q fetch_one fetch_all s).2 = in_use s.
Proof.
  pose proof (execute_query_cases q fetch_one fetch_all s) as H.
  destruct (execute_query execute q fetch_one fetch_all s). by destruct H.
Qed.

Lemma execute_many_releases sql params_list (s : neon DB) :
  in_use (execute_many executemany sql params_list s).2 = in_use s.
Proof.
  unfold execute_many.
  destruct (get_connection s) as [[conn|e] s1] eqn:G.
  - apply get_connection_ok in G as (Hu & _ & _).
    destruct (executemany sql params_list (nd_db s1)) as [[cur db']|e].
    + destruct (finally_release_head conn (Ok (rowcount cur))
                  (mkNeon (nd_pool s1) db' (max_retries s1))) as (s' & -> & Hs' & _).
      { unfold in_use in *. simpl. by rewrite Hu. }
      unfold in_use in *. simpl in *. by rewrite Hs', Hu.
    + destruct (finally_release_head conn (@Raise Z e) s1) as (s' & -> & Hs' & _).
      { by rewrite Hu. }
      simpl. by rewrite Hs', Hu.
  - by apply get_connection_raise in G as (Hu & _).
Qed.

Lemma select_releases table columns condition condition_params order_by limit offset
    fetch_one fetch_all (s : neon DB) :
  in_use (select execute table columns condition condition_params order_by limit offset
            fetch_one fetch_all s).2 = in_use s.
Proof.
  unfold select.
  match goal with |- context [execute_query execute ?q ?a ?b s] =>
    pose proof (execute_query_releases q a b s) as H;
    destruct (execute_query execute q a b s) as [[?|?] ?] end; done.
Qed.

Lemma insert_returning_releases table data (s : neon DB) :
  in_use (insert_returning execute table data s).2 = in_use s.
Proof.
  unfold insert_returning.
  match goal with |- context [execute_query execute ?q ?a ?b s] =>
    pose proof (execute_query_releases q a b s) as H;
    destruct (execute_query execute q a b s) as [[[row| |]|?] ?] end; try done.
  by destruct (first_column row).
Qed.

Lemma update_releases table data condition params (s : neon DB) :
  in_use (update execute table data condition params s).2 = in_use s.
Proof.
  unfold update.
  match goal with |- context [execute_query execute ?q ?a ?b s] =>
    pose proof (execute_query_releases q a b s) as H;
    destruct (execute_query execute q a b s) end; done.
Qed.

Lemma delete_releases table condition params (s : neon DB) :
  in_use (delete execute table condition params s).2 = in_use s.
Proof.
  unfold delete.
  match goal with |- context [execute_query execute ?q ?a ?b s] =>
    pose proof (execute_query_releases q a b s) as H;
    destruct (execute_query execute q a b s) end; done.
Qed.

Lemma add_account_releases now data (s : neon DB) :
  in_use (add_account execute now data s).2 = in_use s.
Proof.
  unfold add_account. case_match; [apply insert_returning_releases | done].
Qed.

Lemma get_account_by_email_releases email (s : neon DB) :
  in_use (get_account_by_email execute email s).2 = in_use s.
Proof.
  unfold get_account_by_email.
  match goal with |- context [select execute ?a ?b ?c ?d ?e ?f ?g ?h ?i s] =>
    pose proof (select_releases a b c d e f g h i s) as H;
    destruct (select execute a b c d e f g h i s) end; done.
Qed.

Lemma get_account_list_releases status limit offset (s : neon DB) :
  in_use (get_account_list execute status limit offset s).2 = in_use s.
Proof.
  unfold get_account_list.
  match goal with |- context [select execute ?a ?b ?c ?d ?e ?f ?g ?h ?i s] =>
    pose proof (select_releases a b c d e f g h i s) as H;
    destruct (select execute a b c d e f g h i s) end; done.
Qed.

(** C3, the path that breaks it: [update_account] leaves the pool exactly
    as [getconn] left it.  Whether the statement succeeds, raises, or no
    connection was to be had, nothing is put back: a connection obtained
    stays out of the pool. *)
Theorem update_account_never_releases now account_id update_data (s : neon DB) :
  nd_pool (update_account execute now account_id update_data s).2
  = (Pool.getconn (nd_pool s)).2.
Proof.
  unfold update_account, get_connection.
  destruct (Pool.getconn (nd_pool s)) as [[conn|e] p]; simpl; [|done].
  by destruct (execute _ _) as [[cur db']|e].
Qed.

(** With a connection to spare, the pool holds one connection less after
    every [update_account]. *)
Lemma update_account_leaks now account_id update_data (s : neon DB) :
  ~ Pool.exhausted (nd_pool s) ->
  in_use (update_account execute now account_id update_data s).2
  = Pool.keys (nd_pool s) :: in_use s.
Proof.
  intros Hfree. unfold in_use, update_account, get_connection, Pool.getconn.
  unfold Pool.exhausted in Hfree.
  destruct (length (Pool.used (nd_pool s)) <? Pool.maxconn (nd_pool s))%nat eqn:E.
  - by destruct (execute _ _) as [[cur db']|e].
  - apply Nat.ltb_ge in E. lia.
Qed.

(** ** C10: [LIMIT] and [OFFSET] under a zero argument *)


End Connections.

(** On the example server: five updates use up the five connections, and
    from then on a lookup finds nothing although the row is stored. *)
Lemma pool_exhausted_after_five_updates :
  in_use (after_updates 5 example_store) = [5; 4; 3; 2; 1]%nat
  /\ (get_account_by_email Pg.execute (VText "a@example.com") example_store).1 <> None
  /\ (get_account_by_email Pg.execute (VText "a@example.com")
        (after_updates 5 example_store)).1 = None.
Proof. vm_compute. repeat split. discriminate. Qed.

(** What a [LIMIT 0] clause would do on the server, and what
    [select(..., limit=0)] does: both stored rows come back. *)
Lemma limit_zero_example :
  Pg.limit_rows (Some 0) (Pg.accounts (nd_db two_accounts_store)) = Ok []
  /\ exists rows,
       (select Pg.execute "accounts" "*" None None None (Some 0) (Some 0) false true
          two_accounts_store).1 = Some (FAll rows)
       /\ length rows = 2%nat.
Proof. split; [reflexivity|]. eexists. split; [vm_compute; reflexivity|reflexivity]. Qed.

(** ** C9: retrying *)

(** [k] failing rounds that all leave a retry: the loop is back at its head
    with [k] more in [retry_count], the last exception recorded, and [k]
    pauses taken. *)
Lemma init_loop_failures connect max (err : nat -> exn) k :
  forall fuel rc last trace,
  (rc + k < max)%nat ->
  (forall i, (rc <= i < rc + k)%nat -> connect i = Raise (err i)) ->
  init_loop connect max (k + fuel) rc last trace
  = init_loop connect max fuel (rc + k)
      (match k with O => last | S _ => Some (err (rc + k - 1)%nat) end)
      (trace ++ rounds k).
Proof.
  induction k as [|k IH]; intros fuel rc last trace Hlt Hfail.
  - simpl. by rewrite Nat.add_0_r, app_nil_r.
  - change (S k + fuel)%nat with (S (k + fuel)). simpl.
    assert ((rc <? max)%nat = true) as -> by (apply Nat.ltb_lt; lia).
    rewrite (Hfail rc) by lia.
    assert ((S rc <? max)%nat = true) as -> by (apply Nat.ltb_lt; lia).
    rewrite IH by (try lia; intros i Hi; apply Hfail; lia).
    replace (S rc + k)%nat with (rc + S k)%nat by lia.
    assert (match k with
            | O => Some (err rc)
            | S _ => Some (err (rc + S k - 1)%nat)
            end = Some (err (rc + S k - 1)%nat)) as ->.
    { destruct k; [|done]. do 2 f_equal. lia. }
    assert (((trace ++ [CreatePool]) ++ [Sleep 1]) ++ rounds k = trace ++ rounds (S k)) as ->;
      [|done].
    by rewrite <- !app_assoc.
Qed.

(** C9 as the code has it: creating the pool is tried at most
    [max_retries] times, with a pause of one second after every failed
    attempt but the last, and the last exception is raised when all of them
    failed; [get_connection] asks an exhausted pool once and raises. *)
Theorem pool_creation_retry_bound (connect : nat -> res Pool.t) (max : nat)
    (db_url env_url : option string) (err : nat -> exn) :
  truthy_opt_str (if truthy_opt_str db_url then db_url else env_url) = true ->
  (forall k p, (k < max)%nat ->
     (forall i, (i < k)%nat -> connect i = Raise (err i)) ->
     connect k = Ok p ->
     init db_url env_url connect max = (Some (Ok p), rounds k ++ [CreatePool]))
  /\ ((0 < max)%nat ->
      (forall i, (i < max)%nat -> connect i = Raise (err i)) ->
      init db_url env_url connect max
      = (Some (Raise (err (max - 1)%nat)), rounds (max - 1) ++ [CreatePool]))
  /\ (forall DB (s : neon DB), Pool.exhausted (nd_pool s) ->
      exists s', get_connection s = (Raise (Exn PoolError "connection pool exhausted"), s')
                 /\ Pool.getconn_calls (nd_pool s') = S (Pool.getconn_calls (nd_pool s))
                 /\ in_use s' = in_use s).
Proof.
  intros Hurl. unfold init. rewrite Hurl. simpl negb. cbv iota.
  split; [|split].
  - intros k p Hk Hfail Hok.
    replace (S max) with (k + S (max - k))%nat by lia.
    rewrite (init_loop_failures connect max err k) by (try lia; intros i Hi; apply Hfail; lia).
    simpl. assert ((k <? max)%nat = true) as -> by (apply Nat.ltb_lt; lia).
    by rewrite Hok.
  - intros Hpos Hfail.
    replace (S max) with ((max - 1) + 2)%nat by lia.
    rewrite (init_loop_failures connect max err (max - 1))
      by (try lia; intros i Hi; apply Hfail; lia).
    simpl. assert ((max - 1 <? max)%nat = true) as -> by (apply Nat.ltb_lt; lia).
    rewrite (Hfail (max - 1)%nat) by lia.
    assert ((S (max - 1) <? max)%nat = false) as -> by (apply Nat.ltb_ge; lia).
    done.
  - intros DB s Hex. unfold get_connection, Pool.getconn, Pool.exhausted, in_use in *.
    assert ((length (Pool.used (nd_pool s)) <? Pool.maxconn (nd_pool s))%nat = false) as ->
      by (apply Nat.ltb_ge; lia).
    eexists. split; [reflexivity|]. done.
Qed.

(** The loop of [__init__] always ends within [max_retries + 1] rounds. *)
Lemma init_terminates connect max db_url env_url :
  exists r, (init db_url env_url connect max).1 = Some r.
Proof.
  assert (forall fuel rc last trace, (max - rc < fuel)%nat ->
            exists r, (init_loop connect max fuel rc last trace).1 = Some r) as Hloop.
  { induction fuel as [|fuel IH]; intros rc last trace Hf; [lia|]. simpl.
    destruct (rc <? max)%nat eqn:E; [|simpl; eauto].
    apply Nat.ltb_lt in E. destruct (connect rc); [simpl; eauto|].
    apply IH. lia. }
  unfold init. case_match; [simpl; eauto|]. apply Hloop. lia.
Qed.

Lemma pool_creation_retry_bound_witness :
  init (Some "postgresql://user@host/neondb") None connect_third_time 3
  = (Some (Ok (Pool.create 5)), [CreatePool; Sleep 1; CreatePool; Sleep 1; CreatePool]).
Proof.
  destruct (pool_creation_retry_bound connect_third_time 3
              (Some "postgresql://user@host/neondb") None
              (fun _ => Exn OSError "could not connect to server") eq_refl) as (H & _ & _).
  apply (H 2%nat (Pool.create 5)).
  - lia.
  - intros [|[|i]] Hi; [reflexivity|reflexivity|lia].
  - reflexivity.
Defined.

(** C9 as worded fails for [get_connection]: with [max_retries = 3] an
    exhausted pool is asked once, not three times. *)
Lemma get_connection_not_retried :
  ~ exhaustion_is_retried
      (mkNeon (Pool.mk 1 [0%nat] 1 1) tt 3).
Proof.
  unfold exhaustion_is_retried, Pool.exhausted. simpl. intros H.
  specialize (H ltac:(lia)). discriminate H.
Qed.

(** ** The gateway with a connection to spare, and without *)

Section Exact.

Context {DB : Type}.
Variable execute : query -> DB -> res (cursor * DB).

Lemma get_connection_free_eq (s : neon DB) :
  ~ Pool.exhausted (nd_pool s) ->
  get_connection s = (Ok (Pool.keys (nd_pool s)), held s (nd_db s)).
Proof.
  unfold get_connection, Pool.getconn, Pool.exhausted. intros H.
  destruct (length (Pool.used (nd_pool s)) <? Pool.maxconn (nd_pool s))%nat eqn:E; [done|].
  apply Nat.ltb_ge in E. lia.
Qed.

Lemma get_connection_exhausted_eq (s : neon DB) :
  Pool.exhausted (nd_pool s) ->
  get_connection s = (Raise (Exn PoolError "connection pool exhausted"), refused s).
Proof.
  unfold get_connection, Pool.getconn, Pool.exhausted. intros H.
  destruct (length (Pool.used (nd_pool s)) <? Pool.maxconn (nd_pool s))%nat eqn:E; [|done].
  apply Nat.ltb_lt in E. lia.
Qed.

Lemma finally_release_held {A} (outcome : res A) (s : neon DB) db' :
  finally_release (Pool.keys (nd_pool s)) outcome (held s db') = (outcome, cycled s db').
Proof.
  unfold finally_release, release_connection, Pool.putconn, held, cycled. simpl.
  rewrite bool_decide_true by set_solver. by rewrite Nat.eqb_refl.
Qed.

Lemma execute_query_free q a b (s : neon DB) :
  ~ Pool.exhausted (nd_pool s) ->
  execute_query execute q a b s
  = match run_and_fetch execute q a b (nd_db s) with
    | Ok (r, db') => (Ok r, cycled s db')
    | Raise e => (Raise e, cycled s (nd_db s))
    end.
Proof.
  intros H. unfold execute_query. rewrite (get_connection_free_eq s H).
  change (nd_db (held s (nd_db s))) with (nd_db s).
  destruct (run_and_fetch execute q a b (nd_db s)) as [[r db']|e].
  - apply (finally_release_held (Ok r) s db').
  - apply (finally_release_held (Raise e) s (nd_db s)).
Qed.

Lemma execute_query_exhausted q a b (s : neon DB) :
  Pool.exhausted (nd_pool s) ->
  execute_query execute q a b s
  = (Raise (Exn PoolError "connection pool exhausted"), refused s).
Proof. intros H. unfold execute_query. by rewrite (get_connection_exhausted_eq s H). Qed.

(** Without a connection nothing reaches the server. *)
Lemma execute_query_db q a b (s : neon DB) :
  Pool.exhausted (nd_pool s) -> nd_db (execute_query execute q a b s).2 = nd_db s.
Proof. intros H. by rewrite execute_query_exhausted. Qed.

Lemma update_account_free now account_id update_data (s : neon DB) :
  ~ Pool.exhausted (nd_pool s) ->
  update_account execute now account_id update_data s
  = match execute (QUpdate "accounts" (<["updated_at" := VTime now]> update_data)
                     "id = %s" [account_id]) (nd_db s) with
    | Ok (cur, db') => (0 <? rowcount cur, held s db')
    | Raise _ => (false, held s (nd_db s))
    end.
Proof.
  intros H. unfold update_account. rewrite (get_connection_free_eq s H).
  change (nd_db (held s (nd_db s))) with (nd_db s).
  by destruct (execute _ _) as [[cur db']|e].
Qed.

Lemma update_account_exhausted now account_id update_data (s : neon DB) :
  Pool.exhausted (nd_pool s) ->
  update_account execute now account_id update_data s = (false, refused s).
Proof. intros H. unfold update_account. by rewrite (get_connection_exhausted_eq s H). Qed.

End Exact.

(** ** The [accounts] table *)

Lemma exhausted_dec (p : Pool.t) : {Pool.exhausted p} + {~ Pool.exhausted p}.
Proof. unfold Pool.exhausted. destruct (le_dec (Pool.maxconn p) (length (Pool.used p))); auto. Qed.

Lemma build_row_lookup f schema vs :
  Pg.build_row f schema = Ok vs ->
  length vs = length schema /\
  forall i c, schema !! i = Some c -> exists v, vs !! i = Some v /\ f c = Ok v.
Proof.
  revert vs. induction schema as [|c0 schema IH]; intros vs; simpl.
  - intros [= <-]. split; [done|]. intros i c. by rewrite lookup_nil.
  - destruct (f c0) as [v0|e] eqn:E0; simpl; [|done].
    destruct (Pg.build_row f schema) as [vs0|e] eqn:E; simpl; [|done].
    intros [= <-]. destruct (IH vs0 eq_refl) as [Hlen Hall]. split; [simpl; lia|].
    intros [|i] c; simpl.
    + intros [= <-]. eauto.
    + apply Hall.
Qed.

Lemma update_rows_spec test data rows rows' n :
  Pg.update_rows test data rows = Ok (rows', n) ->
  length rows' = length rows /\
  n = Z.of_nat (length (filter (fun row => test row = true) rows)) /\
  forall i row, rows !! i = Some row ->
    exists row', rows' !! i = Some row' /\
      if test row then Pg.assign_row data row = Ok row' else row' = row.
Proof.
  revert rows' n. induction rows as [|row0 rows IH]; intros rows' n; simpl.
  - intros [= <- <-]. repeat split. intros i row. by rewrite lookup_nil.
  - destruct (if test row0 then Pg.assign_row data row0 else Ok row0) as [r0|e] eqn:E0;
      simpl; [|done].
    destruct (Pg.update_rows test data rows) as [[rest m]|e] eqn:E; simpl; [|done].
    intros [= <- <-]. destruct (IH rest m eq_refl) as (Hlen & Hm & Hall).
    split; [simpl; lia|]. split.
    + rewrite filter_cons. destruct (test row0) eqn:T.
      * rewrite decide_True by done. simpl length. lia.
      * rewrite decide_False by (by intros [=]). lia.
    + intros [|i] row; simpl.
      * intros [= <-]. exists r0. split; [done|].
        revert E0. destruct (test row0); [done|]. by intros [= ->].
      * apply Hall.
Qed.

(** An [UPDATE ... WHERE id = %s] that went through. *)
Lemma pg_update_by_id data account_id (d : Pg.db) cur d' :
  Pg.execute (QUpdate "accounts" data "id = %s" [account_id]) d = Ok (cur, d') ->
  Pg.update_rows (fun row => Pg.sql_eq (Pg.cell 0 row) account_id) data (Pg.accounts d)
  = Ok (Pg.accounts d', rowcount cur)
  /\ Pg.next_id d' = Pg.next_id d /\ Pg.clock d' = Pg.clock d.
Proof.
  change (Pg.execute (QUpdate "accounts" data "id = %s" [account_id]) d)
    with (if negb (Pg.known_columns data) then Raise (Pg.db_error "column does not exist")
          else bind (Pg.update_rows (fun row => Pg.sql_eq (Pg.cell 0 row) account_id) data
                       (Pg.accounts d))
                 (fun '(rows, n) => bind (Pg.check_unique rows) (fun rows =>
                    Ok (mkCursor None n, Pg.mkDb rows (Pg.next_id d) (Pg.clock d))))).
  destruct (negb (Pg.known_columns data)); [done|].
  destruct (Pg.update_rows _ data (Pg.accounts d)) as [[rows n]|e]; simpl; [|done].
  unfold Pg.check_unique. case_match; simpl; [|done]. by intros [= <- <-].
Qed.

Lemma insert_row_spec data (d : Pg.db) row d' :
  Pg.insert_row data d = Ok (row, d') ->
  Pg.accounts d' = Pg.accounts d ++ [row] /\ Pg.clock d' = Pg.clock d /\
  Pg.build_row (fun c => Pg.check_column c (default (Pg.default_value d c) (data !! Pg.col_name c)))
               Pg.accounts_schema = Ok row.
Proof.
  unfold Pg.insert_row. destruct (negb (Pg.known_columns data)); [done|].
  destruct (Pg.build_row _ Pg.accounts_schema) as [row0|e]; simpl; [|done].
  unfold Pg.check_unique. case_match; simpl; [|done]. by intros [= <- <-].
Qed.

Lemma pg_add_account_some now data (s : neon Pg.db) idv s' :
  add_account Pg.execute now data s = (Some idv, s') ->
  exists row,
    Pg.insert_row (<["updated_at" := VTime now]> data) (nd_db s) = Ok (row, nd_db s')
    /\ row !! 0%nat = Some idv /\ s' = cycled s (nd_db s').
Proof.
  unfold add_account. case_match; [|done]. unfold insert_returning.
  destruct (exhausted_dec (nd_pool s)) as [Hex|Hfree].
  { by rewrite execute_query_exhausted. }
  rewrite execute_query_free by done. unfold run_and_fetch.
  change (Pg.execute (QInsert "accounts" ?dt true) ?d)
    with (bind (Pg.insert_row dt d) (fun '(row, d') =>
            Ok (mkCursor (Some [firstn 1 row]) 1, d'))).
  destruct (Pg.insert_row _ (nd_db s)) as [[row d1]|e] eqn:E; simpl; [|done].
  pose proof (insert_row_spec _ _ _ _ E) as (_ & _ & Hb).
  apply build_row_lookup in Hb as [Hlen _].
  destruct row as [|v row]; [done|]. simpl. intros [= <- <-]. by exists (v :: row).
Qed.

Lemma pg_add_account_none now data (s : neon Pg.db) s' :
  add_account Pg.execute now data s = (None, s') -> nd_db s' = nd_db s.
Proof.
  unfold add_account. case_match; [|by intros [= <-]]. unfold insert_returning.
  destruct (exhausted_dec (nd_pool s)) as [Hex|Hfree].
  { rewrite execute_query_exhausted by done. by intros [= <-]. }
  rewrite execute_query_free by done. unfold run_and_fetch.
  change (Pg.execute (QInsert "accounts" ?dt true) ?d)
    with (bind (Pg.insert_row dt d) (fun '(row, d') =>
            Ok (mkCursor (Some [firstn 1 row]) 1, d'))).
  destruct (Pg.insert_row _ (nd_db s)) as [[row d1]|e] eqn:E; simpl; [|by intros [= <-]].
  pose proof (insert_row_spec _ _ _ _ E) as (_ & _ & Hb).
  apply build_row_lookup in Hb as [Hlen _].
  destruct row as [|v row]; [done|]. done.
Qed.

Lemma cell_lookup i (row : tuple) v : row !! i = Some v -> Pg.cell i row = v.
Proof. unfold Pg.cell. by intros ->. Qed.

(** ** C8: the updated timestamp *)

(** C8: [add_account] stores the reading of [datetime.now()] in
    [updated_at] of the row it creates, and a successful [update_account]
    stores it in [updated_at] of every row it changes, leaving
    [created_at] alone unless the caller names that column.  So, when the
    clock reading of the update is later than the row's created timestamp,
    the row read back has an updated timestamp strictly greater than its
    created timestamp. *)
Theorem updated_at_refreshed (now : Z) (data : gmap string value) (s : neon Pg.db) :
  (forall idv s', add_account Pg.execute now data s = (Some idv, s') ->
     exists row, Pg.accounts (nd_db s') = Pg.accounts (nd_db s) ++ [row]
                 /\ row !! 0%nat = Some idv
                 /\ Pg.updated_at_of row = Some now)
  /\ (forall account_id s',
        update_account Pg.execute now account_id data s = (true, s') ->
        (exists i row, Pg.accounts (nd_db s) !! i = Some row
                       /\ Pg.sql_eq (Pg.cell 0 row) account_id = true)
        /\ forall i row, Pg.accounts (nd_db s) !! i = Some row ->
             exists row', Pg.accounts (nd_db s') !! i = Some row' /\
               if Pg.sql_eq (Pg.cell 0 row) account_id then
                 Pg.updated_at_of row' = Some now
                 /\ (data !! "created_at" = None ->
                     Pg.created_at_of row' = Pg.created_at_of row
                     /\ forall c, Pg.created_at_of row = Some c -> c < now ->
                                  Pg.updated_after_created row')
               else row' = row).
Proof.
  split.
  - intros idv s' H. apply pg_add_account_some in H as (row & Hins & Hid & _).
    apply insert_row_spec in Hins as (Hrows & _ & Hb).
    exists row. repeat split; try done.
    apply build_row_lookup in Hb as [_ Hall].
    destruct (Hall 11%nat _ eq_refl) as (v & Hv & Hc).
    simpl in Hc. rewrite lookup_insert_eq in Hc. injection Hc as <-.
    unfold Pg.updated_at_of. by rewrite (cell_lookup _ _ _ Hv).
  - intros account_id s' H.
    destruct (exhausted_dec (nd_pool s)) as [Hex|Hfree].
    { by rewrite update_account_exhausted in H. }
    rewrite update_account_free in H by done.
    destruct (Pg.execute _ (nd_db s)) as [[cur d']|e] eqn:E; [|done].
    injection H as Hn <-. simpl nd_db.
    apply pg_update_by_id in E as (Hupd & _ & _).
    apply update_rows_spec in Hupd as (_ & Hcount & Hall).
    split.
    + apply Z.ltb_lt in Hn. rewrite Hcount in Hn.
      destruct (filter _ (Pg.accounts (nd_db s))) as [|row l] eqn:F; [simpl in Hn; lia|].
      assert (row ∈ filter (fun row => Pg.sql_eq (Pg.cell 0 row) account_id = true)
                (Pg.accounts (nd_db s))) as Hin by (rewrite F; left).
      apply list_elem_of_filter in Hin as [Ht Hin].
      apply list_elem_of_lookup in Hin as [i Hi]. eauto.
    + intros i row Hi. destruct (Hall i row Hi) as (row' & Hi' & Hrow).
      exists row'. split; [done|].
      destruct (Pg.sql_eq (Pg.cell 0 row) account_id); [|done].
      apply build_row_lookup in Hrow as [_ Hcols].
      assert (Pg.updated_at_of row' = Some now) as Hup.
      { destruct (Hcols 11%nat _ eq_refl) as (v & Hv & Hc).
        simpl in Hc. rewrite lookup_insert_eq in Hc. injection Hc as <-.
        unfold Pg.updated_at_of. by rewrite (cell_lookup _ _ _ Hv). }
      split; [done|]. intros Hnone.
      assert (Pg.created_at_of row' = Pg.created_at_of row) as Hcr.
      { destruct (Hcols 10%nat _ eq_refl) as (v & Hv & Hc).
        simpl in Hc. rewrite lookup_insert_ne, Hnone in Hc by done.
        injection Hc as <-. unfold Pg.created_at_of. by rewrite (cell_lookup _ _ _ Hv). }
      split; [done|]. intros c Hc Hlt. exists c, now. by rewrite Hcr.
Qed.

(** The scenario of the specification: the account is inserted without a
    quota; an update with quota ["5 / 100"] at a later clock reading is
    read back with that quota and a later updated timestamp. *)
Lemma updated_at_refreshed_witness :
  exists s' row',
    update_account Pg.execute 3000 (VInt 1) (<["quota" := VText "5 / 100"]> ∅) example_store
    = (true, s')
    /\ (get_account_by_email Pg.execute (VText "a@example.com") s').1 = Some row'
    /\ Pg.cell 7 row' = VText "5 / 100"
    /\ Pg.updated_after_created row'.
Proof.
  destruct (updated_at_refreshed 3000 (<["quota" := VText "5 / 100"]> ∅) example_store)
    as [_ H].
  destruct (H (VInt 1) _ eq_refl) as [_ Hrows].
  destruct (Hrows 0%nat _ eq_refl) as (row' & Hrow' & Hup & Hcr).
  destruct (Hcr eq_refl) as [_ Hlater].
  vm_compute in Hrow'. injection Hrow' as <-.
  eexists _, _. split; [reflexivity|]. split; [reflexivity|]. split; [reflexivity|].
  apply (Hlater 1000); [reflexivity|lia].
Defined.

Lemma pg_get_account_by_email email (s : neon Pg.db) :
  ~ Pool.exhausted (nd_pool s) ->
  get_account_by_email Pg.execute email s
  = (head (with_email email (Pg.accounts (nd_db s))), cycled s (nd_db s)).
Proof.
  intros H. unfold get_account_by_email, select. rewrite execute_query_free by done.
  reflexivity.
Qed.

Lemma account_data_lookup data now i key :
  (i, key) ∈ import_columns ->
  exists c, Pg.accounts_schema !! i = Some c /\
    (<["updated_at" := VTime now]> (account_data_of data)) !! Pg.col_name c
    = Some (get_or_empty data key).
Proof.
  unfold import_columns. rewrite !elem_of_cons, elem_of_nil.
  intros [H|[H|[H|[H|[H|[H|[H|[H|[]]]]]]]]]; injection H as -> ->;
    (eexists; split; [reflexivity|]); unfold account_data_of; by simplify_map_eq.
Qed.

Lemma account_data_no_id data now :
  (<["updated_at" := VTime now]> (account_data_of data)) !! "id" = None.
Proof. unfold account_data_of. by simplify_map_eq. Qed.

Lemma account_data_required data :
  forallb (fun field => bool_decide (is_Some (account_data_of data !! field))) required_fields
  = true.
Proof.
  unfold required_fields, account_data_of. simpl.
  rewrite !andb_true_iff. repeat split; apply bool_decide_eq_true; by simplify_map_eq.
Qed.

(** What an accepted assignment of the parsed values does to a row. *)
Lemma assign_row_file_values data now row row' :
  Pg.assign_row (<["updated_at" := VTime now]> (account_data_of data)) row = Ok row' ->
  holds_file_values data row' /\ Pg.cell 0 row' = Pg.cell 0 row
  /\ Pg.updated_at_of row' = Some now.
Proof.
  intros H. apply build_row_lookup in H as [_ Hcols]. repeat split.
  - intros i key Hin. destruct (account_data_lookup data now i key Hin) as (c & Hc & Hl).
    exists c. split; [done|]. destruct (Hcols i c Hc) as (v & Hv & Hf).
    simpl in Hf. rewrite Hl in Hf. by rewrite (cell_lookup _ _ _ Hv).
  - destruct (Hcols 0%nat _ eq_refl) as (v & Hv & Hf). simpl in Hf.
    rewrite account_data_no_id in Hf. injection Hf as <-. by rewrite (cell_lookup _ _ _ Hv).
  - destruct (Hcols 11%nat _ eq_refl) as (v & Hv & Hf). simpl in Hf.
    rewrite lookup_insert_eq in Hf. injection Hf as <-.
    unfold Pg.updated_at_of. by rewrite (cell_lookup _ _ _ Hv).
Qed.

Lemma insert_row_file_values data now (d : Pg.db) row d' :
  Pg.insert_row (<["updated_at" := VTime now]> (account_data_of data)) d = Ok (row, d') ->
  holds_file_values data row /\ Pg.cell 0 row = VInt (Pg.next_id d)
  /\ Pg.updated_at_of row = Some now.
Proof.
  intros H. apply insert_row_spec in H as (_ & _ & H).
  apply build_row_lookup in H as [_ Hcols]. repeat split.
  - intros i key Hin. destruct (account_data_lookup data now i key Hin) as (c & Hc & Hl).
    exists c. split; [done|]. destruct (Hcols i c Hc) as (v & Hv & Hf).
    simpl in Hf. rewrite Hl in Hf. by rewrite (cell_lookup _ _ _ Hv).
  - destruct (Hcols 0%nat _ eq_refl) as (v & Hv & Hf). simpl in Hf.
    rewrite account_data_no_id in Hf. injection Hf as <-. by rewrite (cell_lookup _ _ _ Hv).
  - destruct (Hcols 11%nat _ eq_refl) as (v & Hv & Hf). simpl in Hf.
    rewrite lookup_insert_eq in Hf. injection Hf as <-.
    unfold Pg.updated_at_of. by rewrite (cell_lookup _ _ _ Hv).
Qed.

(** ** C6: import needs an email and a password, and upserts by email *)


Lemma example_store_well_formed : well_formed (nd_db example_store).
Proof. split; [|reflexivity]. vm_compute Pg.accounts. repeat constructor. Qed.


Lemma build_row_Forall2 f schema vs :
  Forall2 (fun c v => f c = Ok v) schema vs -> Pg.build_row f schema = Ok vs.
Proof.
  induction 1 as [|c v schema vs Hc _ IH]; [done|]. simpl. by rewrite Hc, IH.
Qed.

Lemma accepted_at data i key c :
  accepted data -> (i, key) ∈ import_columns -> Pg.accounts_schema !! i = Some c ->
  Pg.check_column c (get_or_empty data key) = Ok (get_or_empty data key).
Proof.
  intros Hacc Hin Hc. destruct (Hacc i key Hin) as (c' & Hc' & H). congruence.
Qed.

(** The row an accepted assignment of the parsed values produces. *)
Lemma assign_row_accepted data now (row : tuple) :
  accepted data ->
  Pg.assign_row (<["updated_at" := VTime now]> (account_data_of data)) row
  = Ok (imported_row data now (Pg.cell 0 row) (Pg.cell 9 row) (Pg.cell 10 row)).
Proof.
  intros Hacc. apply build_row_Forall2. unfold Pg.accounts_schema, imported_row.
  repeat (apply List.Forall2_cons; [try reflexivity|]); [..|apply List.Forall2_nil].
  - apply (accepted_at data 1 "DOMAIN"); [done| |done]. unfold import_columns. set_solver.
  - apply (accepted_at data 2 "EMAIL"); [done| |done]. unfold import_columns. set_solver.
  - apply (accepted_at data 3 "PASSWORD"); [done| |done]. unfold import_columns. set_solver.
  - apply (accepted_at data 4 "COOKIES_STR"); [done| |done]. unfold import_columns. set_solver.
  - apply (accepted_at data 5 "API_KEY"); [done| |done]. unfold import_columns. set_solver.
  - apply (accepted_at data 6 "MOE_MAIL_URL"); [done| |done]. unfold import_columns. set_solver.
  - apply (accepted_at data 7 "QUOTA"); [done| |done]. unfold import_columns. set_solver.
  - apply (accepted_at data 8 "DAYS"); [done| |done]. unfold import_columns. set_solver.
Qed.

Lemma insert_row_build data now (d : Pg.db) :
  accepted data ->
  Pg.build_row (fun c => Pg.check_column c
                  (default (Pg.default_value d c)
                     ((<["updated_at" := VTime now]> (account_data_of data)) !! Pg.col_name c)))
               Pg.accounts_schema
  = Ok (imported_row data now (VInt (Pg.next_id d)) (VText "active") (VTime (Pg.clock d))).
Proof.
  intros Hacc. apply build_row_Forall2. unfold Pg.accounts_schema, imported_row.
  repeat (apply List.Forall2_cons; [try reflexivity|]); [..|apply List.Forall2_nil].
  - apply (accepted_at data 1 "DOMAIN"); [done| |done]. unfold import_columns. set_solver.
  - apply (accepted_at data 2 "EMAIL"); [done| |done]. unfold import_columns. set_solver.
  - apply (accepted_at data 3 "PASSWORD"); [done| |done]. unfold import_columns. set_solver.
  - apply (accepted_at data 4 "COOKIES_STR"); [done| |done]. unfold import_columns. set_solver.
  - apply (accepted_at data 5 "API_KEY"); [done| |done]. unfold import_columns. set_solver.
  - apply (accepted_at data 6 "MOE_MAIL_URL"); [done| |done]. unfold import_columns. set_solver.
  - apply (accepted_at data 7 "QUOTA"); [done| |done]. unfold import_columns. set_solver.
  - apply (accepted_at data 8 "DAYS"); [done| |done]. unfold import_columns. set_solver.
Qed.

Lemma account_data_known data now :
  Pg.known_columns (<["updated_at" := VTime now]> (account_data_of data)) = true.
Proof.
  unfold account_data_of.
  generalize (get_or_empty data "DOMAIN") (get_or_empty data "EMAIL")
    (get_or_empty data "PASSWORD") (get_or_empty data "COOKIES_STR")
    (get_or_empty data "API_KEY") (get_or_empty data "MOE_MAIL_URL")
    (get_or_empty data "QUOTA") (get_or_empty data "DAYS").
  intros. vm_compute. reflexivity.
Qed.

(** The two unique columns, [id] and [email]. *)
Lemma unique_columns_unfold rows :
  Pg.unique_columns 0 Pg.accounts_schema rows = Pg.unique_at 0 rows && Pg.unique_at 2 rows.
Proof. cbn. by rewrite !andb_true_r. Qed.

Lemma unique_at_snoc i rows (row : tuple) :
  Pg.unique_at i rows = true -> Pg.cell i row ∉ (Pg.cell i <$> rows) ->
  Pg.unique_at i (rows ++ [row]) = true.
Proof.
  unfold Pg.unique_at. intros H Hnot. apply bool_decide_eq_true in H.
  apply bool_decide_eq_true. rewrite fmap_app, filter_app. apply NoDup_app.
  split; [done|]. split.
  - intros v Hv Hv'. apply list_elem_of_filter in Hv as [_ Hv].
    simpl in Hv'. rewrite filter_cons, filter_nil in Hv'.
    destruct (decide (Pg.cell i row ≠ VNull)); [|by apply elem_of_nil in Hv'].
    apply list_elem_of_singleton in Hv'. by subst.
  - simpl. rewrite filter_cons, filter_nil. case_decide; [apply NoDup_singleton|apply NoDup_nil_2].
Qed.

Lemma unique_at_cells i rows rows' :
  Pg.cell i <$> rows' = Pg.cell i <$> rows -> Pg.unique_at i rows' = Pg.unique_at i rows.
Proof. unfold Pg.unique_at. by intros ->. Qed.

Lemma sql_eq_true v p : Pg.sql_eq v p = true -> v = p /\ v <> VNull.
Proof.
  destruct v, p; simpl; try done.
  - intros ->%Z.eqb_eq. done.
  - intros ->%String.eqb_eq. done.
  - intros ->%Z.eqb_eq. done.
Qed.

(** Under a unique column, two rows of the table with the same value there
    are one row. *)
Lemma unique_at_same i rows (row found : tuple) :
  Pg.unique_at i rows = true -> row ∈ rows -> found ∈ rows ->
  Pg.cell i row = Pg.cell i found -> Pg.cell i row <> VNull -> row = found.
Proof.
  unfold Pg.unique_at. intros H%bool_decide_eq_true Hrow Hfound Heq Hnn.
  induction rows as [|r rows IH]; [by apply elem_of_nil in Hrow|].
  rewrite fmap_cons, filter_cons in H.
  apply elem_of_cons in Hrow as [->|Hrow]; apply elem_of_cons in Hfound as [->|Hfound];
    try done.
  - rewrite decide_True in H by done. apply NoDup_cons in H as [Hnotin _].
    exfalso. apply Hnotin. apply list_elem_of_filter. split; [done|].
    rewrite Heq. by apply list_elem_of_fmap_2.
  - rewrite decide_True in H by (by rewrite <- Heq). apply NoDup_cons in H as [Hnotin _].
    exfalso. apply Hnotin. apply list_elem_of_filter. split; [by rewrite <- Heq|].
    rewrite <- Heq. by apply list_elem_of_fmap_2.
  - apply IH; try done. destruct (decide (Pg.cell i r ≠ VNull)); [by apply NoDup_cons in H as [_ ?]|done].
Qed.

Lemma update_rows_total test data (g : tuple -> tuple) rows :
  (forall row, row ∈ rows -> test row = true -> Pg.assign_row data row = Ok (g row)) ->
  Pg.update_rows test data rows
  = Ok ((fun row => if test row then g row else row) <$> rows,
        Z.of_nat (length (filter (fun row => test row = true) rows))).
Proof.
  induction rows as [|row rows IH]; intros H; [done|].
  cbn [Pg.update_rows]. rewrite IH by (intros r Hr; apply H; by right).
  rewrite filter_cons, fmap_cons. destruct (test row) eqn:T.
  - rewrite (H row) by (done || by left). rewrite decide_True by done.
    cbn [bind length]. do 2 f_equal. lia.
  - rewrite decide_False by (by intros [=]). done.
Qed.

Lemma get_or_empty_cases data key :
  get_or_empty data key = VNull \/ exists s, get_or_empty data key = VText s.
Proof. unfold get_or_empty. destruct (data !! key) as [[s|]|]; eauto. Qed.

Lemma consistent_unique (d : Pg.db) :
  consistent d ->
  Pg.unique_at 0 (Pg.accounts d) = true /\ Pg.unique_at 2 (Pg.accounts d) = true.
Proof.
  intros (_ & Hu & _). rewrite unique_columns_unfold in Hu. by apply andb_true_iff in Hu.
Qed.

(** An [INSERT] of accepted values under an email no row has goes through. *)
Lemma pg_insert_accepted data now (d : Pg.db) :
  consistent d -> accepted data ->
  with_email (get_or_empty data "EMAIL") (Pg.accounts d) = [] ->
  truthy (get_or_empty data "EMAIL") = true ->
  let row := imported_row data now (VInt (Pg.next_id d)) (VText "active")
                          (VTime (Pg.clock d)) in
  Pg.insert_row (<["updated_at" := VTime now]> (account_data_of data)) d
  = Ok (row, Pg.mkDb (Pg.accounts d ++ [row]) (Pg.next_id d + 1) (Pg.clock d)).
Proof.
  intros Hcons Hacc Hnone Hem row. unfold Pg.insert_row.
  rewrite account_data_known. cbn [negb]. rewrite insert_row_build by done.
  fold row. cbn [bind]. unfold Pg.check_unique.
  destruct (consistent_unique d Hcons) as [Hu0 Hu2]. destruct Hcons as (_ & _ & Hids).
  rewrite unique_columns_unfold.
  assert (Pg.unique_at 0 (Pg.accounts d ++ [row]) = true) as ->.
  { apply unique_at_snoc; [done|]. intros (r & Heq & Hr)%list_elem_of_fmap.
    rewrite Forall_forall in Hids. destruct (Hids r Hr) as (k & Hk & Hlt).
    rewrite Hk in Heq. change (Pg.cell 0 row) with (VInt (Pg.next_id d)) in Heq.
    injection Heq as Heq. lia. }
  assert (Pg.unique_at 2 (Pg.accounts d ++ [row]) = true) as ->.
  { apply unique_at_snoc; [done|]. intros (r & Heq & Hr)%list_elem_of_fmap.
    assert (r ∈ with_email (get_or_empty data "EMAIL") (Pg.accounts d)) as Hin.
    { apply list_elem_of_filter. split; [|done]. rewrite <- Heq.
      change (Pg.cell 2 row) with (get_or_empty data "EMAIL").
      destruct (get_or_empty_cases data "EMAIL") as [E|[em E]]; rewrite E in *; [done|].
      simpl. apply String.eqb_refl. }
    rewrite Hnone in Hin. by apply elem_of_nil in Hin. }
  cbn [andb bind]. rewrite account_data_no_id.
  by rewrite bool_decide_false by (by intros [? ?]).
Qed.

(** An [UPDATE] by the id of a row that has the parsed email goes through
    and changes that row. *)
Lemma pg_update_accepted data now (d : Pg.db) (found : tuple) :
  consistent d -> accepted data ->
  found ∈ with_email (get_or_empty data "EMAIL") (Pg.accounts d) ->
  exists n, 0 < n /\
    Pg.execute (QUpdate "accounts" (<["updated_at" := VTime now]> (account_data_of data))
                  "id = %s" [Pg.cell 0 found]) d
    = Ok (mkCursor None n,
          Pg.mkDb (updated_rows data now (Pg.cell 0 found) (Pg.accounts d))
                  (Pg.next_id d) (Pg.clock d)).
Proof.
  intros Hcons Hacc Hfound.
  apply list_elem_of_filter in Hfound as [Hmail Hfound].
  apply sql_eq_true in Hmail as [Hmail _].
  destruct (consistent_unique d Hcons) as [Hu0 Hu2].
  pose proof Hcons as (_ & Huniq & Hids).
  rewrite Forall_forall in Hids. destruct (Hids found Hfound) as (k & Hk & _).
  exists (Z.of_nat (length (filter (fun row => Pg.sql_eq (Pg.cell 0 row) (Pg.cell 0 found) = true)
                      (Pg.accounts d)))).
  split.
  { assert (found ∈ filter (fun row => Pg.sql_eq (Pg.cell 0 row) (Pg.cell 0 found) = true)
                      (Pg.accounts d)) as Hin.
    { apply list_elem_of_filter. split; [|done]. rewrite Hk. simpl. apply Z.eqb_refl. }
    destruct (filter _ (Pg.accounts d)); [by apply elem_of_nil in Hin|simpl; lia]. }
  change (Pg.execute (QUpdate "accounts" ?dt "id = %s" [?id]) d)
    with (if negb (Pg.known_columns dt) then Raise (Pg.db_error "column does not exist")
          else bind (Pg.update_rows (fun row => Pg.sql_eq (Pg.cell 0 row) id) dt
                       (Pg.accounts d))
                 (fun '(rows, n) => bind (Pg.check_unique rows) (fun rows =>
                    Ok (mkCursor None n, Pg.mkDb rows (Pg.next_id d) (Pg.clock d))))).
  rewrite account_data_known. cbn [negb].
  rewrite (update_rows_total _ _
             (fun row => imported_row data now (Pg.cell 0 row) (Pg.cell 9 row) (Pg.cell 10 row)))
    by (intros; by apply assign_row_accepted).
  cbn [bind]. fold (updated_rows data now (Pg.cell 0 found) (Pg.accounts d)).
  unfold Pg.check_unique. rewrite unique_columns_unfold.
  rewrite (unique_at_cells 0 (Pg.accounts d)), (unique_at_cells 2 (Pg.accounts d)), Hu0, Hu2;
    [done| |].
  - unfold updated_rows. rewrite <- list_fmap_compose. apply list_fmap_ext.
    intros i row Hi. cbn [compose]. destruct (Pg.sql_eq _ _) eqn:T; [|done].
    apply sql_eq_true in T as [T Tnn].
    assert (row = found) as ->.
    { apply (unique_at_same 0 (Pg.accounts d)); try done. apply list_elem_of_lookup; eauto. }
    done.
  - unfold updated_rows. rewrite <- list_fmap_compose. apply list_fmap_ext.
    intros i row Hi. cbn [compose]. by destruct (Pg.sql_eq _ _).
Qed.

(** ** C1: export, then import *)

Lemma pg_get_account_list (s : neon Pg.db) :
  ~ Pool.exhausted (nd_pool s) ->
  get_account_list Pg.execute None None None s
  = (Some (foldr Pg.insert_sorted [] (Pg.accounts (nd_db s))), cycled s (nd_db s)).
Proof.
  intros H. unfold get_account_list, select. rewrite execute_query_free by done.
  reflexivity.
Qed.

Section ExportFacts.

Variable str_datetime : Z -> string.

Lemma write_fields_pairs (account : tuple) fields written :
  Forall (fun f : string * nat * bool => (snd (fst f) < length account)%nat) fields ->
  write_fields str_datetime fields account written
  = (Ok tt, written ++ kv_records
      (omap (fun f : string * nat * bool =>
               let '(key, i, always) := f in
               if always || truthy (Pg.cell i account)
               then Some (key, csv_cell str_datetime (Pg.cell i account)) else None)
            fields)).
Proof.
  revert written. induction fields as [|[[key i] always] fields IH]; intros written Hlt.
  - simpl. by rewrite app_nil_r.
  - apply Forall_cons in Hlt as [Hi Hlt]. simpl in Hi.
    destruct (lookup_lt_is_Some_2 account i Hi) as [v Hv].
    cbn [write_fields omap list_omap]. unfold index. rewrite Hv. rewrite IH by done.
    rewrite (cell_lookup _ _ _ Hv).
    destruct (always || truthy v); [|done].
    by rewrite <- app_assoc.
Qed.

Lemma export_single_account (s : neon Pg.db) account :
  Pg.accounts (nd_db s) = [account] ->
  length account = length Pg.accounts_schema ->
  ~ Pool.exhausted (nd_pool s) ->
  export_to_csv Pg.execute str_datetime s
  = ((true, Some (["variable"; "value"] :: kv_records (exported_pairs str_datetime account))),
     cycled s (nd_db s)).
Proof.
  intros Hrows Hlen Hfree. unfold export_to_csv.
  rewrite pg_get_account_list, Hrows by done.
  change (foldr Pg.insert_sorted [] [account]) with [account].
  cbv beta iota. unfold write_accounts.
  rewrite write_fields_pairs; [done|].
  rewrite Hlen. unfold export_fields. repeat constructor; simpl; lia.
Qed.

End ExportFacts.

Lemma fold_parse_kv l (d : gmap string (option string)) :
  fold_left parse_csv_row
    ((fun row => zip_record ["variable"; "value"] row ∅) <$> kv_records l) d
  = fold_left (fun d kv => <[fst kv := Some (snd kv)]> d) l d.
Proof.
  revert d. induction l as [|[k v] l IH]; intros d; [done|].
  unfold kv_records in *. rewrite !fmap_cons. simpl fold_left. rewrite <- IH. f_equal.
Qed.

(** Reading back records of two cells under the header [variable,value]. *)
Lemma parse_kv_records l :
  parse_source (CsvRecords (["variable"; "value"] :: kv_records l)) = dict_of l.
Proof.
  unfold parse_source, dict_reader, dict_of.
  assert (filter (fun row : list string => row ≠ []) (kv_records l) = kv_records l) as ->.
  { unfold kv_records. induction l as [|kv l IH]; [done|]. rewrite fmap_cons, filter_cons.
    rewrite decide_True by done. by rewrite IH. }
  apply fold_parse_kv.
Qed.

(** What is read back for each key of a file written for one account. *)
Lemma exported_value str_datetime (account : tuple) i key :
  (i, key) ∈ import_columns ->
  get_or_empty (dict_of (exported_pairs str_datetime account)) key
  = if (i <=? 3)%nat || truthy (Pg.cell i account)
    then VText (csv_cell str_datetime (Pg.cell i account))
    else VText "".
Proof.
  unfold import_columns. rewrite !elem_of_cons, elem_of_nil.
  intros [H|[H|[H|[H|[H|[H|[H|[H|[]]]]]]]]]; injection H as -> ->;
    unfold exported_pairs, export_fields; cbn [omap list_omap orb Nat.leb];
    generalize (Pg.cell 1 account) (Pg.cell 2 account) (Pg.cell 3 account)
      (Pg.cell 4 account) (Pg.cell 5 account) (Pg.cell 6 account)
      (Pg.cell 7 account) (Pg.cell 8 account);
    intros v1 v2 v3 v4 v5 v6 v7 v8;
    destruct (truthy v4), (truthy v5), (truthy v6), (truthy v7), (truthy v8);
    reflexivity.
Qed.

Lemma imported_row_cells data now id status created i key :
  (i, key) ∈ import_columns ->
  Pg.cell i (imported_row data now id status created) = get_or_empty data key.
Proof.
  unfold import_columns. rewrite !elem_of_cons, elem_of_nil.
  intros [H|[H|[H|[H|[H|[H|[H|[H|[]]]]]]]]]; by injection H as -> ->.
Qed.

(** Import of accepted values into a consistent table goes through, and
    afterwards a row of the table holds exactly the parsed values. *)
Lemma import_accepted now src (t : neon Pg.db) :
  let data := parse_source src in
  consistent (nd_db t) -> accepted data ->
  truthy (get_or_empty data "EMAIL") = true ->
  truthy (get_or_empty data "PASSWORD") = true ->
  ~ Pool.exhausted (nd_pool t) ->
  exists t' row',
    import_from_csv Pg.execute now (Some src) t = (true, t')
    /\ row' ∈ Pg.accounts (nd_db t')
    /\ forall i key, (i, key) ∈ import_columns -> Pg.cell i row' = get_or_empty data key.
Proof.
  intros data Hcons Hacc He Hp Hfree. unfold import_from_csv. fold data.
  rewrite He, Hp. cbn [negb orb]. rewrite pg_get_account_by_email by done.
  destruct (head (with_email (get_or_empty data "EMAIL") (Pg.accounts (nd_db t))))
    as [found|] eqn:Hhead.
  - pose proof (head_Some_elem_of _ _ Hhead) as Hfound.
    assert (found ∈ Pg.accounts (nd_db t)) as Hin
      by (by apply list_elem_of_filter in Hfound as [_ ?]).
    pose proof Hcons as [[Hshape Hseq] Hrest].
    pose proof Hshape as Hlen. rewrite Forall_forall in Hlen. specialize (Hlen found Hin).
    destruct (pg_update_accepted data now (nd_db t) found Hcons Hacc Hfound)
      as (n & Hn & Hexec).
    destruct found as [|v0 found]; [discriminate Hlen|]. cbn [truthy_row first_column].
    rewrite update_account_free by exact Hfree.
    change (nd_db (cycled t (nd_db t))) with (nd_db t).
    change (Pg.cell 0 (v0 :: found)) with v0 in Hexec. rewrite Hexec. cbn [rowcount].
    assert ((0 <? n) = true) as -> by (by apply Z.ltb_lt).
    eexists _, (imported_row data now v0 (Pg.cell 9 (v0 :: found)) (Pg.cell 10 (v0 :: found))).
    split; [reflexivity|]. split; [|intros i key; apply imported_row_cells].
    cbn [nd_db held Pg.accounts]. unfold updated_rows.
    apply list_elem_of_fmap. exists (v0 :: found). split; [|done].
    change (Pg.cell 0 (v0 :: found)) with v0.
    destruct Hrest as [_ Hids]. rewrite Forall_forall in Hids.
    destruct (Hids _ Hin) as (k & Hk & _). change (Pg.cell 0 (v0 :: found)) with v0 in Hk.
    subst v0. simpl. by rewrite Z.eqb_refl.
  - assert (with_email (get_or_empty data "EMAIL") (Pg.accounts (nd_db t)) = []) as Hnone.
    { by destruct (with_email _ _). }
    cbn [truthy_row]. unfold add_account. rewrite account_data_required.
    unfold insert_returning. rewrite execute_query_free by exact Hfree.
    unfold run_and_fetch.
    change (Pg.execute (QInsert "accounts" ?dt true) ?d)
      with (bind (Pg.insert_row dt d) (fun '(row, d') =>
              Ok (mkCursor (Some [firstn 1 row]) 1, d'))).
    change (nd_db (cycled t (nd_db t))) with (nd_db t).
    rewrite pg_insert_accepted by done. cbn [bind fetchone cur_rows head firstn imported_row first_column truthy].
    destruct Hcons as [[_ Hseq] _].
    assert ((Pg.next_id (nd_db t) =? 0) = false) as -> by (apply Z.eqb_neq; lia).
    eexists _, _. split; [reflexivity|]. split; [|intros i key; apply imported_row_cells].
    cbn [nd_db cycled Pg.accounts]. apply elem_of_app. right. apply list_elem_of_singleton.
    reflexivity.
Qed.

(** The values read back from the export of a stored row are accepted
    again, and each reproduces the exported field. *)
Lemma conforms_exported str_datetime (account : tuple) i key :
  conforms account -> (i, key) ∈ import_columns ->
  let v := get_or_empty (dict_of (exported_pairs str_datetime account)) key in
  (exists c, Pg.accounts_schema !! i = Some c /\ Pg.check_column c v = Ok v)
  /\ field_reproduced (Pg.cell i account) v = true.
Proof.
  intros [_ Hconf] Hin. cbv zeta. rewrite (exported_value _ _ i) by done.
  revert Hin. unfold import_columns. rewrite !elem_of_cons, elem_of_nil.
  intros [H|[H|[H|[H|[H|[H|[H|[H|[]]]]]]]]]; injection H as -> ->;
    match goal with |- context [Pg.cell ?i account] =>
      pose proof (Hconf i _ eq_refl) as Hc;
      destruct (Pg.cell i account) as [|z|[|ch s]|tm]; try discriminate Hc
    end;
    (split; [eexists; split; [reflexivity|]; first [exact Hc | reflexivity]|]);
    unfold field_reproduced; cbn; try reflexivity; by rewrite bool_decide_true.
Qed.

Lemma conforms_text_cell (account : tuple) i key :
  conforms account -> (i, key) ∈ import_columns -> truthy (Pg.cell i account) = true ->
  exists s, Pg.cell i account = VText s.
Proof.
  intros [_ Hconf]. unfold import_columns. rewrite !elem_of_cons, elem_of_nil.
  intros [H|[H|[H|[H|[H|[H|[H|[H|[]]]]]]]]] Ht; injection H as -> ->;
    match goal with |- context [Pg.cell ?i account] =>
      pose proof (Hconf i _ eq_refl) as Hc;
      destruct (Pg.cell i account) as [|z|s|tm]; try discriminate Hc; try discriminate Ht
    end; eauto.
Qed.


Lemma example_account_conforms :
  conforms [VInt 1; VText "example.com"; VText "a@example.com"; VText "p";
            VNull; VNull; VNull; VNull; VNull; VText "active"; VTime 1000; VTime 1000].
Proof.
  split; [done|]. intros i c H.
  do 12 (destruct i as [|i]; [injection H as <-; reflexivity|]). done.
Qed.

Lemma two_accounts_consistent : consistent (nd_db two_accounts_store).
Proof.
  split; [split|split]; try reflexivity; vm_compute Pg.accounts.
  - repeat constructor.
  - repeat constructor; eexists; (split; [reflexivity|vm_compute; reflexivity]).
Qed.



(** ** C2: the manual backup *)

Lemma no_backup_account_method :
  getattr "backup_account"
  = Raise (Exn AttributeError "'NeonDB' object has no attribute 'backup_account'").
Proof. reflexivity. Qed.

Section BackupFacts.

Context {DB : Type}.
Variable execute : query -> DB -> res (cursor * DB).
Variable str_datetime : Z -> string.
Variable invoke : string -> value -> list (string * value) -> string -> string ->
                  neon DB -> res unit * neon DB.

(** The body of [backup_thread] raises on every path: the last statement
    before the success dialog looks up a method the class does not have. *)
Lemma backup_body_raises timestamp can_open (w : RegisterTab.world DB) :
  exists e w', RegisterTab.backup_body execute str_datetime invoke timestamp can_open w
               = (Raise e, w').
Proof.
  unfold RegisterTab.backup_body.
  destruct (negb (truthy_str _)); [eauto|].
  destruct (get_account_by_email execute _ _) as [[[|v account]|] db1]; [eauto| |eauto].
  destruct (RegisterTab.backup_data_from _ _ _) as [backup_data|e]; [|eauto].
  destruct (negb can_open); [eauto|].
  rewrite no_backup_account_method. eauto.
Qed.

(** C2, where the code breaks it: whatever the store, the environment and
    the disk, [backup_thread] ends with the error dialog; it never shows
    the success dialog, and no method of the gateway is called to record
    the backup. *)
Theorem manual_backup_never_succeeds timestamp can_open (w : RegisterTab.world DB) :
  exists e,
    (RegisterTab.backup_body execute str_datetime invoke timestamp can_open
       (RegisterTab.add_ui
          [RegisterTab.ShowLoading "备份账号" "正在备份账号信息，请稍候..."] w)).1 = Raise e
    /\ exists before,
         RegisterTab.ui (RegisterTab.backup_thread execute str_datetime invoke timestamp can_open w)
         = before ++ [RegisterTab.CloseLoading;
                      RegisterTab.ShowError "账号备份失败" (str_exn e)].
Proof.
  unfold RegisterTab.backup_thread.
  destruct (backup_body_raises timestamp can_open
              (RegisterTab.add_ui
                 [RegisterTab.ShowLoading "备份账号" "正在备份账号信息，请稍候..."] w))
    as (e & w' & ->).
  exists e. split; [done|]. by exists (RegisterTab.ui w').
Qed.

(** A failure before the file is opened leaves every file as it was. *)
Lemma backup_failure_keeps_files timestamp (w : RegisterTab.world DB) :
  RegisterTab.files
    (RegisterTab.backup_body execute str_datetime invoke timestamp false w).2
  = RegisterTab.files w.
Proof.
  unfold RegisterTab.backup_body.
  destruct (negb (truthy_str _)); [done|].
  destruct (get_account_by_email execute _ _) as [[[|v account]|] db1]; try done.
  by destruct (RegisterTab.backup_data_from _ _ _) as [backup_data|e].
Qed.

(** Whatever happens, only the file named after the timestamp can change. *)
Lemma backup_touches_one_file timestamp can_open (w : RegisterTab.world DB) path :
  path <> RegisterTab.backup_path timestamp ->
  RegisterTab.files
    (RegisterTab.backup_body execute str_datetime invoke timestamp can_open w).2 !! path
  = RegisterTab.files w !! path.
Proof.
  intros Hne. unfold RegisterTab.backup_body.
  destruct (negb (truthy_str _)); [done|].
  destruct (get_account_by_email execute _ _) as [[[|v account]|] db1]; try done.
  destruct (RegisterTab.backup_data_from _ _ _) as [backup_data|e]; [|done].
  destruct (negb can_open); [done|].
  rewrite no_backup_account_method. simpl. by rewrite lookup_insert_ne.
Qed.

End BackupFacts.

(** A backup written earlier in the same second is overwritten although
    the operation then fails. *)
Lemma failed_backup_overwrites_same_second invoke :
  let w' := RegisterTab.backup_thread Pg.execute str_int invoke "20250101_000000" true
              world_with_backup in
  RegisterTab.files world_with_backup !! "env_backups/cursor_account_20250101_000000.csv"
    = Some "earlier backup"
  /\ RegisterTab.files w' !! "env_backups/cursor_account_20250101_000000.csv"
     <> Some "earlier backup"
  /\ last (RegisterTab.ui w')
     = Some (RegisterTab.ShowError "账号备份失败"
               "'NeonDB' object has no attribute 'backup_account'").
Proof. vm_compute. repeat split. discriminate. Qed.

(** The account of the example is in the store and the file can be
    written: the file appears with the populated fields, then the lookup
    of [backup_account] fails and the error dialog is shown. *)
Lemma manual_backup_example invoke :
  RegisterTab.backup_thread Pg.execute str_int invoke "20250101_000000" true example_world
  = RegisterTab.mkWorld
      (<["EMAIL" := "a@example.com"]> ∅)
      (<["env_backups/cursor_account_20250101_000000.csv" :=
           "variable,value" +:+ RegisterTab.newline
           +:+ "DOMAIN,example.com" +:+ RegisterTab.newline
           +:+ "EMAIL,a@example.com" +:+ RegisterTab.newline
           +:+ "PASSWORD,p" +:+ RegisterTab.newline]> ∅)
      (cycled example_store (nd_db example_store))
      [RegisterTab.ShowLoading "备份账号" "正在备份账号信息，请稍候...";
       RegisterTab.CloseLoading;
       RegisterTab.ShowError "账号备份失败"
         "'NeonDB' object has no attribute 'backup_account'"].
Proof. vm_compute. reflexivity. Qed.

(** ** C4: the user id of a session token *)

Section RefreshFacts.

Import ManageTab.

Variable extract_token : string -> string -> res (option string).
Variable b64decode : string -> res string.
Variable json_loads : string -> res json.
Variable py_repr : json -> string.
Variable http_get : string -> string -> res json.

Lemma wrap_kind {A} prefix (r : res A) e :
  wrap prefix r = Raise e -> exn_kind e = ValueError.
Proof. destruct r; [done|]. by intros [= <-]. Qed.


End RefreshFacts.


(** ** C7: the fields derived from the three responses *)

Section UsageFacts.

Import ManageTab.

Variable extract_token : string -> string -> res (option string).
Variable b64decode : string -> res string.
Variable json_loads : string -> res json.
Variable py_repr : json -> string.
Variable http_get : string -> string -> res json.

Lemma derive_domain_str e : derive_domain (JStr e) = Ok (derived_domain e).
Proof. unfold derive_domain, derived_domain. simpl. by destruct (contains e "@"). Qed.

Lemma derive_quota_object usage gpt4 :
  from_option id (JObj []) (member "gpt-4" usage) = JObj gpt4 ->
  derive_quota py_repr (JObj usage) = Ok (derived_quota py_repr gpt4).
Proof. intros H. unfold derive_quota. simpl. by rewrite H. Qed.

(** C7 as the code has it: with the three responses obtained, an email
    that is a string (or absent) and a usage entry that is an object (or
    absent), the refresh succeeds with the domain after the last [@] of
    the email, the quota ["<used> / <max>"] under a truthy maximum and
    the sentinel otherwise, and the string form of the trial days.  An
    absent email, trial-days field, usage entry or maximum yields the
    sentinel; an absent used counter counts as 0. *)
Theorem trial_usage_derived cookie_str user_id user_info trial_data usage e gpt4 :
  truthy_str cookie_str = true ->
  extract_user_id_from_jwt extract_token b64decode json_loads cookie_str = Ok user_id ->
  http_get URL_ME (cookie_header cookie_str) = Ok (JObj user_info) ->
  http_get URL_STRIPE (cookie_header cookie_str) = Ok (JObj trial_data) ->
  http_get (url_usage py_repr user_id) (cookie_header cookie_str) = Ok (JObj usage) ->
  derived_email user_info = JStr e ->
  from_option id (JObj []) (member "gpt-4" usage) = JObj gpt4 ->
  get_trial_usage extract_token b64decode json_loads py_repr http_get cookie_str
  = Ok (derived_domain e, JStr e, derived_quota py_repr gpt4, derived_days py_repr trial_data)
  /\ (member "email" user_info = None -> e = UNKNOWN /\ derived_domain e = UNKNOWN)
  /\ (member "daysRemainingOnTrial" trial_data = None ->
      derived_days py_repr trial_data = UNKNOWN)
  /\ (member "gpt-4" usage = None -> derived_quota py_repr gpt4 = UNKNOWN)
  /\ (member "maxRequestUsage" gpt4 = None -> derived_quota py_repr gpt4 = UNKNOWN)
  /\ (forall max, member "numRequestsTotal" gpt4 = None ->
        member "maxRequestUsage" gpt4 = Some max -> truthy_json max = true ->
        derived_quota py_repr gpt4 = "0 / " +:+ py_str py_repr max).
Proof.
  intros Hc Hid Hme Hstripe Husage He Hg. split; [|repeat split].
  - unfold get_trial_usage. rewrite Hc, Hid. cbn [negb bind].
    unfold make_request. rewrite Hme, Hstripe, Husage. cbn [wrap bind get].
    fold (derived_email user_info). rewrite He, derive_domain_str. cbn [bind].
    rewrite (derive_quota_object usage gpt4 Hg). reflexivity.
  - unfold derived_email in He. rewrite H in He. by injection He as <-.
  - unfold derived_email in He. rewrite H in He. by injection He as <-.
  - intros H. unfold derived_days. by rewrite H.
  - intros H. rewrite H in Hg. by injection Hg as <-.
  - intros H. unfold derived_quota. by rewrite H.
  - intros max H Hm Ht. unfold derived_quota. rewrite H, Hm. cbn [from_option id].
    by rewrite Ht.
Qed.

End UsageFacts.

(** The remote service answers with both counters: quota ["120 / 500"]. *)
Lemma trial_usage_derived_witness :
  ManageTab.get_trial_usage Reference.extract_token Reference.b64decode Reference.json_loads
    Reference.py_repr (example_http usage_full) example_cookie
  = Ok ("example.com", ManageTab.JStr "a@example.com", "120 / 500", "14").
Proof.
  destruct (trial_usage_derived Reference.extract_token Reference.b64decode
              Reference.json_loads Reference.py_repr (example_http usage_full)
              example_cookie (ManageTab.JStr "user_01")
              [("email", ManageTab.JStr "a@example.com")]
              [("daysRemainingOnTrial", ManageTab.JNum 14)]
              [("gpt-4", ManageTab.JObj [("numRequestsTotal", ManageTab.JNum 120);
                                         ("maxRequestUsage", ManageTab.JNum 500)])]
              "a@example.com"
              [("numRequestsTotal", ManageTab.JNum 120); ("maxRequestUsage", ManageTab.JNum 500)]
              eq_refl eq_refl eq_refl eq_refl eq_refl eq_refl eq_refl) as [H _].
  exact H.
Defined.

(** C7 as worded fails where the usage response lacks the used counter:
    the quota is built with 0, not with the sentinel. *)
Lemma missing_used_counter_is_zero :
  ManageTab.get_trial_usage Reference.extract_token Reference.b64decode Reference.json_loads
    Reference.py_repr (example_http usage_without_used) example_cookie
  = Ok ("example.com", ManageTab.JStr "a@example.com", "0 / 500", "14")
  /\ ManageTab.quota_as_worded Reference.py_repr [("maxRequestUsage", ManageTab.JNum 500)]
     = "未知 / 500"
  /\ ManageTab.quota_as_worded Reference.py_repr [("maxRequestUsage", ManageTab.JNum 500)]
     <> "0 / 500".
Proof. split; [|split]; vm_compute; [reflexivity|reflexivity|discriminate]. Qed.

(** ** C5: a batch of refreshes *)

Section BatchFacts.

Import ManageTab.

Variable extract_token : string -> string -> res (option string).
Variable b64decode : string -> res string.
Variable json_loads : string -> res json.
Variable py_repr : json -> string.
Variable http_get : string -> string -> res json.

Local Abbreviation refresh := (update_single_account extract_token b64decode json_loads py_repr http_get).
Local Abbreviation refresh_each := (update_each extract_token b64decode json_loads py_repr http_get).
Local Abbreviation refresh_outcomes := (outcomes extract_token b64decode json_loads py_repr http_get).
Local Abbreviation refresh_world := (world_after extract_token b64decode json_loads py_repr http_get).

Lemma same_but_refl item w : same_but item w w.
Proof. by split. Qed.

Lemma same_but_trans item w1 w2 w3 :
  same_but item w1 w2 -> same_but item w2 w3 -> same_but item w1 w3.
Proof.
  intros [Hu1 H1] [Hu2 H2]. split; [congruence|]. intros q Hq.
  destruct (H1 q Hq), (H2 q Hq). split; congruence.
Qed.

Lemma tree_set_same_but item column val w :
  same_but item w (tree_set item column val w).2.
Proof.
  unfold tree_set. destruct (tree w !! item); [|apply same_but_refl].
  split; [done|]. intros q Hq. simpl. by rewrite lookup_insert_ne.
Qed.

Lemma tree_set_all_same_but item cells w :
  same_but item w (tree_set_all item cells w).2.
Proof.
  revert w. induction cells as [|[column val] cells IH]; intros w; [apply same_but_refl|].
  simpl. pose proof (tree_set_same_but item column val w) as H.
  destruct (tree_set item column val w) as [[[]|e] w'] eqn:E; [|done].
  eapply same_but_trans; [exact H|apply IH].
Qed.

Lemma update_csv_file_same_but csv_file fields w :
  same_but csv_file w (update_csv_file csv_file fields w).2.
Proof.
  unfold update_csv_file. destruct fields; [apply same_but_refl|].
  destruct (files w !! csv_file); [|apply same_but_refl].
  split; [done|]. intros q Hq. simpl. by rewrite lookup_insert_ne.
Qed.

(** A refresh touches the backup file and the tree row of its own account
    only, and shows no dialog. *)
Lemma refresh_same_but csv_file account_data w :
  same_but csv_file w (refresh csv_file account_data w).2.
Proof.
  unfold update_single_account.
  destruct (negb (truthy_str _)); [apply same_but_refl|].
  destruct (extract_user_id_from_jwt _ _ _ _) as [user_id|e]; [|apply same_but_refl].
  destruct (get_trial_usage _ _ _ _ _ _) as [[[[domain email] quota] days]|e];
    [|apply same_but_refl].
  match goal with |- context [tree_set_all csv_file ?cells w] =>
    pose proof (tree_set_all_same_but csv_file cells w) as H1;
    destruct (tree_set_all csv_file cells w) as [[[]|e] w1] end; [|done].
  match goal with |- context [update_csv_file csv_file ?fields w1] =>
    pose proof (update_csv_file_same_but csv_file fields w1) as H2;
    destruct (update_csv_file csv_file fields w1) as [[[]|e] w2] end;
    simpl in *; by eapply same_but_trans.
Qed.

(** The world a batch leaves does not depend on the counters. *)
Lemma refresh_each_world accounts t w :
  (refresh_each accounts t w).2 = refresh_world accounts w.
Proof.
  unfold world_after. generalize (mkTally 0 0 []). revert t w.
  induction accounts as [|[csv_file account_data] accounts IH]; intros t w t0; [done|].
  simpl. destruct (refresh csv_file account_data w) as [[message|e] w']; apply IH.
Qed.

Lemma refresh_world_cons csv_file account_data accounts w :
  refresh_world ((csv_file, account_data) :: accounts) w
  = refresh_world accounts (refresh csv_file account_data w).2.
Proof.
  unfold world_after at 1. simpl.
  destruct (refresh csv_file account_data w) as [[message|e] w']; apply refresh_each_world.
Qed.

Lemma refresh_world_app pre post w :
  refresh_world (pre ++ post) w = refresh_world post (refresh_world pre w).
Proof.
  revert w. induction pre as [|[csv_file account_data] pre IH]; intros w; [done|].
  simpl. by rewrite !refresh_world_cons, IH.
Qed.

(** Accounts refreshed later leave the file and the tree row of [item] as
    they found them, unless one of them is [item] again. *)
Lemma refresh_world_keeps item accounts w :
  item ∉ (fst <$> accounts) ->
  files (refresh_world accounts w) !! item = files w !! item
  /\ tree (refresh_world accounts w) !! item = tree w !! item.
Proof.
  revert w. induction accounts as [|[csv_file account_data] accounts IH]; intros w Hnot;
    [done|].
  rewrite fmap_cons in Hnot. apply not_elem_of_cons in Hnot as [Hne Hnot].
  rewrite refresh_world_cons.
  destruct (IH (refresh csv_file account_data w).2 Hnot) as [-> ->].
  destruct (refresh_same_but csv_file account_data w) as [_ H]. by apply H.
Qed.

(** The counters after the loop: what they were, plus the successes and
    the failures of the batch, with one message per failure, in order. *)
Lemma refresh_each_tally accounts t w :
  let t' := (refresh_each accounts t w).1 in
  let results := refresh_outcomes accounts w in
  length results = length accounts
  /\ failed_count t' = failed_count t + Z.of_nat (failures results)
  /\ success_count t'
     = success_count t + (Z.of_nat (length accounts) - Z.of_nat (failures results))
  /\ error_messages t'
     = error_messages t
       ++ omap (fun ar => failure_message (fst ar) (snd ar)) (zip accounts results).
Proof.
  revert t w. induction accounts as [|[csv_file account_data] accounts IH]; intros t w.
  - unfold failures. simpl. rewrite app_nil_r. repeat split; lia.
  - cbn [update_each outcomes].
    destruct (refresh csv_file account_data w) as [[message|e] w'] eqn:E.
    + destruct (IH (mkTally (success_count t + 1) (failed_count t) (error_messages t)) w')
        as (Hlen & Hf & Hs & Hm).
      cbv zeta in *. cbn [success_count failed_count error_messages] in *.
      unfold failures in *. rewrite filter_cons. cbn [is_ok].
      rewrite decide_False by done. cbn [length zip zip_with omap list_omap fst snd failure_message].
      rewrite Hf, Hs, Hm. repeat split; lia.
    + destruct (IH (mkTally (success_count t) (failed_count t + 1)
                      (error_messages t ++
                       ["账号 " +:+ lookup_str account_data "EMAIL" "" +:+ " 更新失败: "
                        +:+ str_exn e])) w')
        as (Hlen & Hf & Hs & Hm).
      cbv zeta in *. cbn [success_count failed_count error_messages] in *.
      unfold failures in *. rewrite filter_cons. cbn [is_ok].
      rewrite decide_True by done. cbn [length zip zip_with omap list_omap fst snd failure_message].
      rewrite Hf, Hs, Hm, <- app_assoc. repeat split; lia.
Qed.

Lemma omap_failures accounts (results : list (res string)) :
  length results = length accounts ->
  length (omap (fun ar : (string * gmap string string) * res string =>
                  failure_message (fst ar) (snd ar)) (zip accounts results))
  = failures results.
Proof.
  revert results. induction accounts as [|a accounts IH]; intros [|r results] Hlen;
    try done.
  unfold failures in *. cbn [zip zip_with omap list_omap fst snd]. rewrite filter_cons.
  injection Hlen as Hlen. specialize (IH results Hlen).
  destruct r as [message|e]; cbn [failure_message is_ok].
  - by rewrite decide_False by done.
  - rewrite decide_True by done. simpl. by rewrite IH.
Qed.


End BatchFacts.

(** The failing account first: the loop still reaches the second account,
    whose file then carries the refreshed fields. *)
Lemma batch_refresh_example :
  let '(t, w') :=
    ManageTab.update_process Reference.extract_token Reference.b64decode
      Reference.json_loads Reference.py_repr (example_http usage_full)
      None [FILE_2; FILE_1] example_backups in
  ManageTab.success_count t = 1 /\ ManageTab.failed_count t = 1
  /\ ManageTab.error_messages t
     = ["账号 b@example.org 更新失败: 未找到账号 b@example.org 的Cookie信息"]
  /\ ManageTab.files w' !! FILE_1
     = Some [["variable"; "value"]; ["DOMAIN"; "example.com"];
             ["EMAIL"; "a@example.com"]; ["PASSWORD"; "p"];
             ["COOKIES_STR"; "WorkosCursorSessionToken=user_01%3A%3Aaaaa.eyJzdWIiOiJ1c2VyXzAxIn0.ssss"];
             ["QUOTA"; "120 / 500"]; ["DAYS"; "14"]]
  /\ ManageTab.files w' !! FILE_2 = ManageTab.files example_backups !! FILE_2.
Proof. vm_compute. repeat split; reflexivity. Qed.

(** * Further properties of the code *)

(** Membership in a list that is written out. *)
Ltac in_list := apply list_elem_of_In; simpl; tauto.

(** ** The gateway without a connection to be had *)

Section Exhausted.

Context {DB : Type}.
Variable execute : query -> DB -> res (cursor * DB).
Variable executemany : string -> list (list value) -> DB -> res (cursor * DB).
Variable str_datetime : Z -> string.

Lemma select_exhausted table columns condition condition_params order_by limit offset
    fetch_one fetch_all (s : neon DB) :
  Pool.exhausted (nd_pool s) ->
  select execute table columns condition condition_params order_by limit offset
    fetch_one fetch_all s = (None, refused s).
Proof. intros H. unfold select. by rewrite execute_query_exhausted. Qed.

Lemma insert_returning_exhausted table data (s : neon DB) :
  Pool.exhausted (nd_pool s) ->
  insert_returning execute table data s = (None, refused s).
Proof. intros H. unfold insert_returning. by rewrite execute_query_exhausted. Qed.

Lemma add_account_exhausted now data (s : neon DB) :
  Pool.exhausted (nd_pool s) ->
  exists s', add_account execute now data s = (None, s')
             /\ nd_db s' = nd_db s /\ in_use s' = in_use s
             /\ Pool.maxconn (nd_pool s') = Pool.maxconn (nd_pool s).
Proof.
  intros H. unfold add_account. case_match; [|by exists s].
  rewrite insert_returning_exhausted by done. by exists (refused s).
Qed.

Lemma get_account_by_email_exhausted email (s : neon DB) :
  Pool.exhausted (nd_pool s) ->
  get_account_by_email execute email s = (None, refused s).
Proof. intros H. unfold get_account_by_email. by rewrite select_exhausted. Qed.

Lemma import_exhausted now file (s : neon DB) :
  Pool.exhausted (nd_pool s) ->
  exists s', import_from_csv execute now file s = (false, s')
             /\ nd_db s' = nd_db s /\ in_use s' = in_use s
             /\ Pool.maxconn (nd_pool s') = Pool.maxconn (nd_pool s).
Proof.
  intros H. unfold import_from_csv. destruct file as [src|]; [|by exists s].
  destruct (negb (truthy _) || negb (truthy _)); [by exists s|].
  rewrite get_account_by_email_exhausted by done. cbn [truthy_row].
  destruct (add_account_exhausted now (account_data_of (parse_source src)) (refused s))
    as (s' & -> & Hdb & Hu & Hm); [done|].
  by exists s'.
Qed.

(** X1: With every connection of the pool handed out, the generic statements
    raise nothing: each returns the value it also returns when the server
    had nothing to report ([None], [False], [0]), nothing reaches the
    server, and the pool is as before but for the call it counted.  Only
    [execute_many] lets the [PoolError] through. *)
Theorem statements_on_exhausted_pool (s : neon DB) table columns condition condition_params
    order_by limit offset fetch_one fetch_all data where_ where_params column_defs
    sql params_list :
  Pool.exhausted (nd_pool s) ->
  select execute table columns condition condition_params order_by limit offset
    fetch_one fetch_all s = (None, refused s)
  /\ insert execute table data s = (false, refused s)
  /\ insert_returning execute table data s = (None, refused s)
  /\ update execute table data where_ where_params s = (0, refused s)
  /\ delete execute table where_ where_params s = (0, refused s)
  /\ create_table execute table column_defs s = (false, refused s)
  /\ execute_many executemany sql params_list s
     = (Raise (Exn PoolError "connection pool exhausted"), refused s)
  /\ nd_db (refused s) = nd_db s
  /\ in_use (refused s) = in_use s.
Proof.
  intros H. split; [by apply select_exhausted|].
  split; [unfold insert; by rewrite execute_query_exhausted|].
  split; [by apply insert_returning_exhausted|].
  split; [unfold update; by rewrite execute_query_exhausted|].
  split; [unfold delete; by rewrite execute_query_exhausted|].
  split; [unfold create_table; by rewrite execute_query_exhausted|].
  split; [|done].
  unfold execute_many. by rewrite (get_connection_exhausted_eq s H).
Qed.

(** X2: With every connection handed out, the accounts API fails quietly:
    [add_account], the two lookups and [export_to_csv] (which writes no
    file) return their failure value, [update_account] and
    [import_from_csv] return [False], whatever the arguments; the server
    is not reached and the pool stays exhausted. *)
Theorem accounts_on_exhausted_pool (s : neon DB) now account_data email status limit offset
    account_id update_data file :
  let untouched (s' : neon DB) :=
    nd_db s' = nd_db s /\ in_use s' = in_use s /\ Pool.exhausted (nd_pool s') in
  Pool.exhausted (nd_pool s) ->
  ((add_account execute now account_data s).1 = None
   /\ untouched (add_account execute now account_data s).2)
  /\ get_account_by_email execute email s = (None, refused s)
  /\ get_account_list execute status limit offset s = (None, refused s)
  /\ update_account execute now account_id update_data s = (false, refused s)
  /\ export_to_csv execute str_datetime s = ((false, None), refused s)
  /\ ((import_from_csv execute now file s).1 = false
      /\ untouched (import_from_csv execute now file s).2)
  /\ untouched (refused s).
Proof.
  intros untouched H. repeat split.
  - by destruct (add_account_exhausted now account_data s H) as (s' & -> & _).
  - by destruct (add_account_exhausted now account_data s H) as (s' & -> & ? & _).
  - by destruct (add_account_exhausted now account_data s H) as (s' & -> & _ & ? & _).
  - destruct (add_account_exhausted now account_data s H) as (s' & -> & _ & Hu & Hm).
    unfold Pool.exhausted, in_use in *. simpl. rewrite Hm, Hu. done.
  - by apply get_account_by_email_exhausted.
  - unfold get_account_list. by rewrite select_exhausted.
  - by apply update_account_exhausted.
  - unfold export_to_csv, get_account_list. by rewrite select_exhausted.
  - by destruct (import_exhausted now file s H) as (s' & -> & _).
  - by destruct (import_exhausted now file s H) as (s' & -> & ? & _).
  - by destruct (import_exhausted now file s H) as (s' & -> & _ & ? & _).
  - destruct (import_exhausted now file s H) as (s' & -> & _ & Hu & Hm).
    unfold Pool.exhausted, in_use in *. simpl. rewrite Hm, Hu. done.
  - done.
Qed.

(** X3: [init_database] answers [True] in every state, also when the table
    could not be created: without a connection, or when the server
    refuses the statement, [create_accounts_table] answers [False] and
    [init_database] still answers [True]. *)
Theorem init_database_always_true (s : neon DB) :
  (init_database execute s).1 = true
  /\ (init_database execute s).2 = (create_accounts_table execute s).2
  /\ (Pool.exhausted (nd_pool s) -> (create_accounts_table execute s).1 = false)
  /\ (forall e, execute (QCreateTable "accounts" Pg.accounts_columns) (nd_db s) = Raise e ->
        (create_accounts_table execute s).1 = false
        /\ nd_db (create_accounts_table execute s).2 = nd_db s).
Proof.
  unfold init_database.
  destruct (create_accounts_table execute s) as [flag s'] eqn:E.
  split; [done|]. split; [done|].
  unfold create_accounts_table, create_table in E. split.
  - intros H. rewrite execute_query_exhausted in E by done. by injection E as <- <-.
  - intros e He. destruct (exhausted_dec (nd_pool s)) as [H|H].
    + rewrite execute_query_exhausted in E by done. by injection E as <- <-.
    + rewrite execute_query_free in E by done. unfold run_and_fetch in E.
      rewrite He in E. by injection E as <- <-.
Qed.

End Exhausted.

(** On the example server after five updates of an account. *)
Lemma statements_on_exhausted_pool_witness :
  Pool.exhausted (nd_pool (after_updates 5 example_store))
  /\ select Pg.execute "accounts" "*" None None None None None false true
       (after_updates 5 example_store)
     = (None, refused (after_updates 5 example_store))
  /\ update Pg.execute "accounts" (<["quota" := VText "1 / 2"]> ∅) "id = %s" [VInt 1]
       (after_updates 5 example_store)
     = (0, refused (after_updates 5 example_store)).
Proof.
  assert (Pool.exhausted (nd_pool (after_updates 5 example_store))) as H
    by (vm_compute; lia).
  split; [exact H|].
  destruct (statements_on_exhausted_pool Pg.execute (fun _ _ d => Ok (mkCursor None 0, d))
              (after_updates 5 example_store) "accounts" "*" None None None None None
              false true (<["quota" := VText "1 / 2"]> ∅) "id = %s" [VInt 1] [] "" [] H)
    as (Hs & _ & _ & Hu & _).
  by split.
Defined.

Lemma accounts_on_exhausted_pool_witness :
  Pool.exhausted (nd_pool (after_updates 5 example_store))
  /\ (import_from_csv Pg.execute 6000 (Some backup_file) (after_updates 5 example_store)).1
     = false
  /\ export_to_csv Pg.execute str_int (after_updates 5 example_store)
     = ((false, None), refused (after_updates 5 example_store)).
Proof.
  assert (Pool.exhausted (nd_pool (after_updates 5 example_store))) as H
    by (vm_compute; lia).
  split; [exact H|].
  destruct (accounts_on_exhausted_pool Pg.execute str_int (after_updates 5 example_store)
              6000 ∅ VNull None None None VNull ∅ (Some backup_file) H)
    as (_ & _ & _ & _ & He & [Hi _] & _).
  by split.
Defined.

(** The server accepts the statement and the pool is free: the table is
    set up; on the exhausted pool it is not, and the answer is the same. *)
Lemma init_database_example :
  init_database Pg.execute example_store = (true, cycled example_store (nd_db example_store))
  /\ (create_accounts_table Pg.execute (after_updates 5 example_store)).1 = false
  /\ (init_database Pg.execute (after_updates 5 example_store)).1 = true.
Proof. vm_compute. done. Qed.

(** [NeonDB(...)] makes no attempt to connect when no address is
    configured ([db_url] and [DATABASE_URL] both missing or empty), and
    none when [max_retries] is 0: the loop is not entered, and the
    [raise last_error] after it raises a [TypeError], [last_error] being
    [None]. *)
Lemma init_without_attempt db_url env_url connect max :
  (truthy_opt_str (if truthy_opt_str db_url then db_url else env_url) = false ->
     exists msg, init db_url env_url connect max = (Some (Raise (Exn ValueError msg)), []))
  /\ (truthy_opt_str (if truthy_opt_str db_url then db_url else env_url) = true ->
      init db_url env_url connect 0
      = (Some (Raise (Exn TypeError "exceptions must derive from BaseException")), [])).
Proof.
  unfold init. split; intros ->; [by eexists|done].
Qed.

(** ** The [accounts] table behind the API *)

Lemma insert_row_result data (d : Pg.db) row d' :
  Pg.insert_row data d = Ok (row, d') ->
  Pg.accounts d' = Pg.accounts d ++ [row]
  /\ Pg.unique_columns 0 Pg.accounts_schema (Pg.accounts d') = true
  /\ Pg.next_id d'
     = (if bool_decide (is_Some (data !! "id")) then Pg.next_id d else Pg.next_id d + 1)
  /\ Pg.clock d' = Pg.clock d
  /\ length row = length Pg.accounts_schema
  /\ forall i c, Pg.accounts_schema !! i = Some c ->
       Pg.check_column c (default (Pg.default_value d c) (data !! Pg.col_name c))
       = Ok (Pg.cell i row).
Proof.
  unfold Pg.insert_row. destruct (negb (Pg.known_columns data)); [done|].
  destruct (Pg.build_row _ Pg.accounts_schema) as [row0|e] eqn:B; simpl; [|done].
  unfold Pg.check_unique. destruct (Pg.unique_columns _ _ _) eqn:U; simpl; [|done].
  intros [= <- <-]. simpl. apply build_row_lookup in B as [Hlen Hcols].
  repeat split; try done.
  intros i c Hc. destruct (Hcols i c Hc) as (v & Hv & Hf). by rewrite (cell_lookup _ _ _ Hv).
Qed.

Lemma check_column_not_null c v v' :
  Pg.check_column c v = Ok v' -> Pg.col_notnull c = true -> v <> VNull /\ v' <> VNull.
Proof.
  unfold Pg.check_column. intros H Hnn. rewrite Hnn in H. split.
  - intros ->. by destruct (Pg.col_type c).
  - destruct (Pg.coerce (Pg.col_type c) v) as [v0|e]; simpl in H; [|done].
    destruct v0; try done; by injection H as <-.
Qed.

Lemma check_column_varchar c n s :
  Pg.col_type c = Pg.CVarchar n -> (String.length s <= n)%nat ->
  Pg.check_column c (VText s) = Ok (VText s).
Proof.
  intros Hty Hlen. unfold Pg.check_column. rewrite Hty. simpl. unfold Pg.store_varchar.
  by assert ((String.length s <=? n)%nat = true) as -> by (by apply Nat.leb_le).
Qed.

Lemma unique_at_snoc_inv i rows (row : tuple) :
  Pg.unique_at i (rows ++ [row]) = true -> Pg.cell i row <> VNull ->
  Pg.cell i row ∉ (Pg.cell i <$> rows).
Proof.
  unfold Pg.unique_at. intros H%bool_decide_eq_true Hnn Hin.
  rewrite fmap_app, filter_app in H. apply NoDup_app in H as (_ & H & _).
  apply (H (Pg.cell i row)).
  - by apply list_elem_of_filter.
  - simpl. rewrite filter_cons, decide_True by done. by left.
Qed.

Lemma add_account_not_exhausted now data (s s' : neon Pg.db) idv :
  add_account Pg.execute now data s = (Some idv, s') -> ~ Pool.exhausted (nd_pool s).
Proof.
  intros H Hex. by destruct (add_account_exhausted Pg.execute now data s Hex) as (? & E & _);
    rewrite E in H.
Qed.



Lemma filter_none {A} (P : A -> Prop) `{forall x, Decision (P x)} (l : list A) :
  (forall x, x ∈ l -> ~ P x) -> filter P l = [].
Proof.
  induction l as [|x l IH]; intros Hl; [done|].
  rewrite filter_cons, decide_False by (apply Hl; by left).
  apply IH. intros y Hy. apply Hl. by right.
Qed.


Lemma pg_update_unique data account_id (d : Pg.db) cur d' :
  Pg.execute (QUpdate "accounts" data "id = %s" [account_id]) d = Ok (cur, d') ->
  Pg.unique_columns 0 Pg.accounts_schema (Pg.accounts d') = true.
Proof.
  change (Pg.execute (QUpdate "accounts" data "id = %s" [account_id]) d)
    with (if negb (Pg.known_columns data) then Raise (Pg.db_error "column does not exist")
          else bind (Pg.update_rows (fun row => Pg.sql_eq (Pg.cell 0 row) account_id) data
                       (Pg.accounts d))
                 (fun '(rows, n) => bind (Pg.check_unique rows) (fun rows =>
                    Ok (mkCursor None n, Pg.mkDb rows (Pg.next_id d) (Pg.clock d))))).
  destruct (negb (Pg.known_columns data)); [done|].
  destruct (Pg.update_rows _ data (Pg.accounts d)) as [[rows n]|e]; simpl; [|done].
  unfold Pg.check_unique. destruct (Pg.unique_columns _ _ _) eqn:U; simpl; [|done].
  by intros [= <- <-].
Qed.

Lemma assign_row_shape data (row row' : tuple) :
  Pg.assign_row data row = Ok row' ->
  length row' = length Pg.accounts_schema
  /\ (data !! "id" = None -> Pg.cell 0 row' = Pg.cell 0 row).
Proof.
  intros H. apply build_row_lookup in H as [Hlen Hcols]. split; [done|].
  intros Hid. destruct (Hcols 0%nat _ eq_refl) as (v & Hv & Hf). simpl in Hf.
  rewrite Hid in Hf. injection Hf as <-. by apply cell_lookup.
Qed.

Lemma pg_update_keeps_consistent data account_id (d : Pg.db) cur d' :
  consistent d -> data !! "id" = None ->
  Pg.execute (QUpdate "accounts" data "id = %s" [account_id]) d = Ok (cur, d') ->
  consistent d'.
Proof.
  intros ([Hshape Hseq] & _ & Hids) Hid Hexec.
  pose proof (pg_update_unique _ _ _ _ _ Hexec) as Hu.
  apply pg_update_by_id in Hexec as (Hupd & Hnext & _).
  apply update_rows_spec in Hupd as (Hlen & _ & Hall).
  assert (forall i row', Pg.accounts d' !! i = Some row' ->
            exists row, Pg.accounts d !! i = Some row
              /\ length row' = length Pg.accounts_schema
              /\ Pg.cell 0 row' = Pg.cell 0 row) as Hrows.
  { intros i row' Hi.
    destruct (lookup_lt_is_Some_2 (Pg.accounts d) i) as [row Hrow].
    { rewrite <- Hlen. by apply lookup_lt_Some in Hi. }
    exists row. split; [done|]. destruct (Hall i row Hrow) as (row'' & Hi' & Hrel).
    rewrite Hi in Hi'. injection Hi' as <-.
    destruct (Pg.sql_eq _ _).
    - apply assign_row_shape in Hrel as [? Hc]. split; [done|]. by apply Hc.
    - subst row'. split; [|done].
      rewrite Forall_forall in Hshape. apply Hshape. apply list_elem_of_lookup; eauto. }
  split; [split|split]; try done.
  - apply Forall_lookup. intros i row' Hi. by destruct (Hrows i row' Hi) as (? & _ & ? & _).
  - lia.
  - apply Forall_lookup. intros i row' Hi. destruct (Hrows i row' Hi) as (row & Hrow & _ & Hc).
    rewrite Forall_forall in Hids. rewrite Hc, Hnext. apply Hids.
    apply list_elem_of_lookup; eauto.
Qed.

Lemma pg_insert_keeps_consistent data (d : Pg.db) row d' :
  consistent d -> data !! "id" = None ->
  Pg.insert_row data d = Ok (row, d') -> consistent d'.
Proof.
  intros ([Hshape Hseq] & _ & Hids) Hid Hins.
  apply insert_row_result in Hins as (Hrows & Hu & Hnext & _ & Hlen & Hcols).
  rewrite Hid, bool_decide_false in Hnext by (by intros [? ?]).
  specialize (Hcols 0%nat _ eq_refl). simpl in Hcols. rewrite Hid in Hcols.
  injection Hcols as Hc.
  split; [split|split]; try done.
  - rewrite Hrows. apply Forall_app. split; [done|]. by apply Forall_singleton.
  - lia.
  - rewrite Hrows. apply Forall_app. split.
    + eapply Forall_impl; [exact Hids|]. intros r (k & Hk & Hlt). exists k. split; [done|lia].
    + apply Forall_singleton. exists (Pg.next_id d). split; [done|lia].
Qed.

Lemma pg_get_account_by_email_db email (s : neon Pg.db) :
  nd_db (get_account_by_email Pg.execute email s).2 = nd_db s.
Proof.
  destruct (exhausted_dec (nd_pool s)) as [H|H].
  - by rewrite get_account_by_email_exhausted.
  - by rewrite pg_get_account_by_email.
Qed.

Lemma pg_update_account_consistent now account_id data (s : neon Pg.db) :
  consistent (nd_db s) -> data !! "id" = None ->
  consistent (nd_db (update_account Pg.execute now account_id data s).2).
Proof.
  intros Hcons Hid. destruct (exhausted_dec (nd_pool s)) as [H|H].
  - by rewrite update_account_exhausted.
  - rewrite update_account_free by done.
    destruct (Pg.execute _ _) as [[cur d']|e] eqn:E; [|done].
    simpl. eapply pg_update_keeps_consistent; [exact Hcons| |exact E].
    by rewrite lookup_insert_ne.
Qed.

Lemma pg_add_account_consistent now data (s : neon Pg.db) :
  consistent (nd_db s) -> data !! "id" = None ->
  consistent (nd_db (add_account Pg.execute now data s).2).
Proof.
  intros Hcons Hid.
  destruct (add_account Pg.execute now data s) as [[idv|] s'] eqn:Hadd.
  - apply pg_add_account_some in Hadd as (row & Hins & _). simpl.
    eapply pg_insert_keeps_consistent; [exact Hcons| |exact Hins].
    by rewrite lookup_insert_ne.
  - apply pg_add_account_none in Hadd. simpl. by rewrite Hadd.
Qed.

(** X7: The invariants of the table survive every import, whatever the file
    holds and whether or not the import goes through: every row has the
    columns of the schema, no two rows share an id or an email, and every
    id is below the sequence. *)
Theorem import_keeps_table_consistent now file (s : neon Pg.db) :
  consistent (nd_db s) ->
  consistent (nd_db (import_from_csv Pg.execute now file s).2).
Proof.
  intros Hcons. unfold import_from_csv. destruct file as [src|]; [|done].
  destruct (negb (truthy _) || negb (truthy _)); [done|].
  pose proof (pg_get_account_by_email_db (get_or_empty (parse_source src) "EMAIL") s) as Hdb.
  destruct (get_account_by_email Pg.execute _ s) as [existing s1]. simpl in Hdb.
  rewrite <- Hdb in Hcons.
  destruct (truthy_row existing).
  - destruct (first_column existing) as [account_id|e]; [|done].
    apply pg_update_account_consistent; [done|].
    unfold account_data_of. by simplify_map_eq.
  - pose proof (pg_add_account_consistent now (account_data_of (parse_source src)) s1 Hcons)
      as Hadd.
    destruct (add_account Pg.execute now _ s1) as [[result|] s2]; simpl in *;
      apply Hadd; unfold account_data_of; by simplify_map_eq.
Qed.

(** ** The account list and the export *)

Lemma insert_sorted_perm row l : Pg.insert_sorted row l ≡ₚ row :: l.
Proof.
  induction l as [|r l IH]; [done|]. simpl. destruct (Pg.before row r); [done|].
  rewrite IH. apply perm_swap.
Qed.

Lemma newest_first_perm rows : newest_first rows ≡ₚ rows.
Proof.
  induction rows as [|row rows IH]; [done|]. unfold newest_first in *. simpl.
  by rewrite insert_sorted_perm, IH.
Qed.

Lemma before_spec a b : Pg.before a b = true <-> listed_before a b.
Proof.
  unfold Pg.before, listed_before.
  destruct (Pg.created_at_of a) as [x|], (Pg.created_at_of b) as [y|]; split; try done.
  - intros H%Z.leb_le x' [= <-]. eauto.
  - intros H. destruct (H x eq_refl) as (y' & [= <-] & Hle). by apply Z.leb_le.
  - intros H. by destruct (H x eq_refl) as (y' & [=] & _).
Qed.

Lemma before_total a b : Pg.before a b = false -> Pg.before b a = true.
Proof.
  unfold Pg.before.
  destruct (Pg.created_at_of a) as [x|], (Pg.created_at_of b) as [y|]; try done.
  intros H%Z.leb_gt. apply Z.leb_le. lia.
Qed.

Lemma before_trans a b c :
  Pg.before a b = true -> Pg.before b c = true -> Pg.before a c = true.
Proof.
  unfold Pg.before.
  destruct (Pg.created_at_of a) as [x|], (Pg.created_at_of b) as [y|],
    (Pg.created_at_of c) as [z|]; try done.
  intros H1%Z.leb_le H2%Z.leb_le. apply Z.leb_le. lia.
Qed.

Lemma insert_sorted_sorted row l :
  ForallOrdPairs (fun a b => Pg.before a b = true) l ->
  ForallOrdPairs (fun a b => Pg.before a b = true) (Pg.insert_sorted row l).
Proof.
  induction 1 as [|r l Hr Hl IH]; simpl; [by repeat constructor|].
  destruct (Pg.before row r) eqn:B.
  - constructor; [|by constructor]. constructor; [done|].
    eapply Forall_impl; [exact Hr|]. intros x Hx. by eapply before_trans.
  - constructor; [|done]. rewrite insert_sorted_perm. constructor; [|done].
    by apply before_total.
Qed.

Lemma newest_first_sorted rows :
  ForallOrdPairs (fun a b => Pg.before a b = true) (newest_first rows).
Proof.
  induction rows as [|row rows IH]; [constructor|]. by apply insert_sorted_sorted.
Qed.

Lemma ordered_pairs_lookup {A} (R : A -> A -> Prop) l i j a b :
  ForallOrdPairs R l -> (i < j)%nat -> l !! i = Some a -> l !! j = Some b -> R a b.
Proof.
  intros H. revert i j. induction H as [|x l Hx Hl IH]; intros i j Hij Hi Hj; [done|].
  destruct j as [|j]; [lia|]. simpl in Hj. destruct i as [|i].
  - injection Hi as <-. rewrite Forall_forall in Hx. apply Hx.
    apply list_elem_of_lookup; eauto.
  - simpl in Hi. apply (IH i j); [lia|done|done].
Qed.

Lemma newest_first_listed rows i j a b :
  (i < j)%nat -> newest_first rows !! i = Some a -> newest_first rows !! j = Some b ->
  listed_before a b.
Proof.
  intros Hij Hi Hj. apply before_spec.
  by apply (ordered_pairs_lookup _ _ i j a b (newest_first_sorted rows)).
Qed.

Lemma split_status : Py.split "status = %s" " = %s" = ["status"; ""].
Proof. reflexivity. Qed.

Lemma select_rows_accounts status limit offset (d : Pg.db) :
  0 <= default 0 limit -> 0 <= default 0 offset ->
  Pg.select_rows
    (select_query "accounts" ACCOUNT_COLUMNS
       (if truthy_opt_str status then Some "status = %s" else None)
       (Some "created_at DESC") limit offset)
    (select_params (if truthy_opt_str status then Some "status = %s" else None)
       (if truthy_opt_str status then Some [from_option VText VNull status] else None)) d
  = Ok (page limit offset (newest_first (with_status status (Pg.accounts d)))).
Proof.
  intros Hl Ho. unfold Pg.select_rows, select_query.
  cbn [sel_table sel_columns sel_where sel_order_by sel_limit sel_offset].
  change (negb (String.eqb "accounts" "accounts")) with false. cbv iota.
  rewrite String.eqb_refl, orb_true_r. cbn [negb]. cbv iota.
  assert (truthy_opt_str (Some "created_at DESC") = true) as -> by done.
  assert (bind
            match (if truthy_opt_str (if truthy_opt_str status then Some "status = %s" else None)
                   then (if truthy_opt_str status then Some "status = %s" else None)
                   else None) with
            | Some condition =>
                bind (Pg.condition_test condition
                        (default []
                           (select_params
                              (if truthy_opt_str status then Some "status = %s" else None)
                              (if truthy_opt_str status
                               then Some [from_option VText VNull status] else None))))
                  (fun test => Ok (filter (fun row => test row = true) (Pg.accounts d)))
            | None => Ok (Pg.accounts d)
            end
          = fun k => k (with_status status (Pg.accounts d))) as ->.
  { unfold with_status, select_params. destruct (truthy_opt_str status); [|done].
    change (truthy_opt_str (Some "status = %s")) with true. cbv iota. cbn [default].
    unfold Pg.condition_test. rewrite split_status. done. }
  unfold Pg.order_rows. rewrite String.eqb_refl. cbn [bind].
  fold (newest_first (with_status status (Pg.accounts d))).
  generalize (newest_first (with_status status (Pg.accounts d))). intros rows.
  unfold page, Pg.offset_rows, Pg.limit_rows, truthy_opt_int.
  destruct offset as [o|]; simpl in Ho.
  - destruct (o =? 0) eqn:E; cbn [negb bind].
    + destruct limit as [l|]; simpl in Hl; [|done].
      destruct (l =? 0); cbn [negb]; [done|].
      by assert ((l <? 0) = false) as -> by (apply Z.ltb_ge; lia).
    + assert ((o <? 0) = false) as -> by (apply Z.ltb_ge; lia). cbn [bind default].
      destruct limit as [l|]; simpl in Hl; [|done].
      destruct (l =? 0); cbn [negb]; [done|].
      by assert ((l <? 0) = false) as -> by (apply Z.ltb_ge; lia).
  - cbn [bind]. destruct limit as [l|]; simpl in Hl; [|done].
    destruct (l =? 0); cbn [negb]; [done|].
    by assert ((l <? 0) = false) as -> by (apply Z.ltb_ge; lia).
Qed.

(** X8: [get_account_list(status, limit, offset)] with a connection to be
    had: the accounts of the requested status (all of them under a falsy
    status), each exactly once, the most recently created first, cut to
    the page that a truthy [limit] and [offset] ask for. *)
Theorem account_list_newest_first status limit offset (s : neon Pg.db) :
  ~ Pool.exhausted (nd_pool s) ->
  0 <= default 0 limit ->
  0 <= default 0 offset ->
  let listed := newest_first (with_status status (Pg.accounts (nd_db s))) in
  get_account_list Pg.execute status limit offset s
  = (Some (page limit offset listed), cycled s (nd_db s))
  /\ listed ≡ₚ with_status status (Pg.accounts (nd_db s))
  /\ forall i j a b, (i < j)%nat -> listed !! i = Some a -> listed !! j = Some b ->
       listed_before a b.
Proof.
  intros Hfree Hl Ho listed. split; [|split].
  - unfold get_account_list, select. rewrite execute_query_free by done.
    unfold run_and_fetch. cbn [negb andb].
    change (Pg.execute (QSelect ?q ?p) ?d)
      with (bind (Pg.select_rows q p d) (fun rows =>
              Ok (mkCursor (Some rows) (Z.of_nat (length rows)), d))).
    by rewrite select_rows_accounts.
  - apply newest_first_perm.
  - intros i j a b. apply newest_first_listed.
Qed.

Lemma write_accounts_records str_datetime accounts written :
  Forall (fun account : tuple => length account = length Pg.accounts_schema) accounts ->
  write_accounts str_datetime accounts written
  = (Ok tt, written ++ concat ((fun account => kv_records (exported_pairs str_datetime account))
                                 <$> accounts)).
Proof.
  revert written. induction accounts as [|account accounts IH]; intros written Hall.
  - simpl. by rewrite app_nil_r.
  - apply Forall_cons in Hall as [Hlen Hall]. cbn [write_accounts].
    rewrite write_fields_pairs.
    + rewrite IH by done. fold (exported_pairs str_datetime account).
      by rewrite fmap_cons, concat_cons, app_assoc.
    + rewrite Hlen. unfold export_fields. repeat constructor; simpl; lia.
Qed.

(** X9: [export_to_csv] with a connection to be had: nothing is written for
    an empty table and the answer is [False]; otherwise the file holds the
    header and then, for every account, the most recently created first,
    its domain, email and password and those of the cookie, API key, mail
    address, quota and days that are not empty. *)
Theorem export_writes_every_account str_datetime (s : neon Pg.db) :
  well_formed (nd_db s) ->
  ~ Pool.exhausted (nd_pool s) ->
  export_to_csv Pg.execute str_datetime s
  = (match Pg.accounts (nd_db s) with
     | [] => (false, None)
     | _ :: _ =>
         (true, Some (exported_records str_datetime (newest_first (Pg.accounts (nd_db s)))))
     end, cycled s (nd_db s)).
Proof.
  intros [Hshape _] Hfree. unfold export_to_csv. rewrite pg_get_account_list by done.
  fold (newest_first (Pg.accounts (nd_db s))).
  pose proof (newest_first_perm (Pg.accounts (nd_db s))) as Hperm.
  destruct (Pg.accounts (nd_db s)) as [|row rows] eqn:Hrows.
  - by apply Permutation_nil_r in Hperm as ->.
  - destruct (newest_first (row :: rows)) as [|first listed] eqn:Hlisted.
    { by apply Permutation_nil_cons in Hperm. }
    rewrite write_accounts_records; [done|].
    by rewrite Hperm.
Qed.

(** ** Synchronising many files through one gateway *)

(** The import of a file whose email a row has: the state it leaves. *)
Lemma import_updates_stored now src (s : neon Pg.db) found :
  consistent (nd_db s) -> accepted (parse_source src) ->
  truthy (get_or_empty (parse_source src) "EMAIL") = true ->
  truthy (get_or_empty (parse_source src) "PASSWORD") = true ->
  ~ Pool.exhausted (nd_pool s) ->
  head (with_email (get_or_empty (parse_source src) "EMAIL") (Pg.accounts (nd_db s)))
  = Some found ->
  import_from_csv Pg.execute now (Some src) s
  = (true, held (cycled s (nd_db s))
       (Pg.mkDb (updated_rows (parse_source src) now (Pg.cell 0 found) (Pg.accounts (nd_db s)))
                (Pg.next_id (nd_db s)) (Pg.clock (nd_db s)))).
Proof.
  intros Hcons Hacc He Hp Hfree Hhead. unfold import_from_csv.
  rewrite He, Hp. cbn [negb orb]. rewrite pg_get_account_by_email by done. rewrite Hhead.
  pose proof (head_Some_elem_of _ _ Hhead) as Hfound.
  assert (found ∈ Pg.accounts (nd_db s)) as Hin
    by (by apply list_elem_of_filter in Hfound as [_ ?]).
  pose proof Hcons as [[Hshape _] _].
  rewrite Forall_forall in Hshape. specialize (Hshape found Hin).
  destruct (pg_update_accepted (parse_source src) now (nd_db s) found Hcons Hacc Hfound)
    as (n & Hn & Hexec).
  destruct found as [|v0 found]; [discriminate Hshape|]. cbn [truthy_row first_column].
  rewrite update_account_free by exact Hfree.
  change (nd_db (cycled s (nd_db s))) with (nd_db s).
  change (Pg.cell 0 (v0 :: found)) with v0 in *. rewrite Hexec. cbn [rowcount].
  by assert ((0 <? n) = true) as -> by (by apply Z.ltb_lt).
Qed.

Lemma updated_rows_emails data now (d : Pg.db) (found : tuple) :
  consistent d ->
  found ∈ with_email (get_or_empty data "EMAIL") (Pg.accounts d) ->
  Pg.cell 2 <$> updated_rows data now (Pg.cell 0 found) (Pg.accounts d)
  = Pg.cell 2 <$> Pg.accounts d.
Proof.
  intros Hcons Hfound.
  apply list_elem_of_filter in Hfound as [Hmail Hfound].
  apply sql_eq_true in Hmail as [Hmail _].
  destruct (consistent_unique d Hcons) as [Hu0 _].
  unfold updated_rows. rewrite <- list_fmap_compose. apply list_fmap_ext.
  intros i row Hi. cbn [compose]. destruct (Pg.sql_eq _ _) eqn:T; [|done].
  apply sql_eq_true in T as [T Tnn].
  assert (row = found) as ->; [|done].
  apply (unique_at_same 0 (Pg.accounts d)); try done. apply list_elem_of_lookup; eauto.
Qed.

Lemma with_email_length e (rows rows' : list tuple) :
  Pg.cell 2 <$> rows' = Pg.cell 2 <$> rows ->
  length (with_email e rows') = length (with_email e rows).
Proof.
  revert rows'. induction rows as [|r rows IH]; intros [|r' rows'] H; try done.
  rewrite !fmap_cons in H. injection H as Hc H. unfold with_email in *.
  rewrite !filter_cons, Hc. case_decide; simpl; by rewrite (IH rows').
Qed.

Lemma stored_after_update e data now (d : Pg.db) (found : tuple) :
  consistent d ->
  found ∈ with_email (get_or_empty data "EMAIL") (Pg.accounts d) ->
  stored e d ->
  stored e (Pg.mkDb (updated_rows data now (Pg.cell 0 found) (Pg.accounts d))
                    (Pg.next_id d) (Pg.clock d)).
Proof.
  intros Hcons Hfound Hst. unfold stored in *. cbn [Pg.accounts].
  pose proof (with_email_length e _ _ (updated_rows_emails data now d found Hcons Hfound)) as Hl.
  intros Hnil. rewrite Hnil in Hl. by destruct (with_email e (Pg.accounts d)).
Qed.

Lemma exhausted_free {DB} (s : neon DB) :
  Pool.exhausted (nd_pool s) <-> free_connections s = 0%nat.
Proof. unfold Pool.exhausted, free_connections, in_use. lia. Qed.

(** Files that name stored accounts, one gateway: an import goes through
    as long as a connection is left, and each takes one for good. *)
Lemma import_each_stored files clock : forall k (s : neon Pg.db),
  consistent (nd_db s) ->
  Forall (fun file => importable file /\ stored (email_of file) (nd_db s)) files ->
  (Main.import_each Pg.execute files clock k s).1
  = replicate (min (length files) (free_connections s)) true
    ++ replicate (length files - free_connections s) false
  /\ nd_db (Main.import_each Pg.execute files clock k s).2
     = nd_db (Main.import_each Pg.execute (take (free_connections s) files) clock k s).2.
Proof.
  induction files as [|file files IH]; intros k s Hcons Hall.
  { simpl. by rewrite take_nil. }
  apply Forall_cons in Hall as [[(src & -> & Hacc & He & Hp) Hst] Hall].
  cbn [Main.import_each].
  destruct (free_connections s) as [|free] eqn:Hfree.
  - apply exhausted_free in Hfree as Hex.
    destruct (import_exhausted Pg.execute (clock k) (Some src) s Hex)
      as (s' & -> & Hdb & Hu & Hm).
    assert (free_connections s' = 0%nat) as Hfree'.
    { unfold free_connections in *. rewrite Hm, Hu. done. }
    destruct (IH (S k) s') as [Hflags Hdb'].
    { by rewrite Hdb. }
    { eapply Forall_impl; [exact Hall|]. intros f [? ?]. by rewrite Hdb. }
    destruct (Main.import_each Pg.execute files clock (S k) s') as [oks s2].
    simpl in *. rewrite Hflags, Hfree'. split.
    + by rewrite Nat.min_0_r, Nat.sub_0_r.
    + rewrite Hdb', Hfree'. by rewrite take_0.
  - assert (~ Pool.exhausted (nd_pool s)) as Hfr.
    { rewrite exhausted_free. lia. }
    unfold stored, email_of in Hst.
    destruct (with_email _ (Pg.accounts (nd_db s))) as [|found others] eqn:Hw; [done|].
    assert (found ∈ with_email (get_or_empty (parse_source src) "EMAIL")
                      (Pg.accounts (nd_db s))) as Hfound by (rewrite Hw; by left).
    rewrite (import_updates_stored (clock k) src s found) by (done || by rewrite Hw).
    rewrite firstn_cons. cbn [Main.import_each].
    rewrite (import_updates_stored (clock k) src s found) by (done || by rewrite Hw).
    set (s' := held (cycled s (nd_db s)) _).
    assert (free_connections s' = free) as Hfree'.
    { unfold free_connections, in_use in *. subst s'. simpl in *. lia. }
    destruct (pg_update_accepted (parse_source src) (clock k) (nd_db s) found Hcons Hacc Hfound)
      as (n & _ & Hexec).
    destruct (IH (S k) s') as [Hflags Hdb'].
    { eapply pg_update_keeps_consistent; [exact Hcons| |exact Hexec].
      apply account_data_no_id. }
    { eapply Forall_impl; [exact Hall|]. intros f [? ?]. split; [done|].
      by apply stored_after_update. }
    rewrite Hfree' in Hflags, Hdb'.
    destruct (Main.import_each Pg.execute files clock (S k) s') as [oks s2].
    destruct (Main.import_each Pg.execute (take free files) clock (S k) s') as [oks' s2'].
    simpl in *. by rewrite Hflags, Hdb'.
Qed.

Lemma pg_get_account_list_db status limit offset (s : neon Pg.db) :
  nd_db (get_account_list Pg.execute status limit offset s).2 = nd_db s.
Proof.
  unfold get_account_list, select.
  destruct (exhausted_dec (nd_pool s)) as [H|H].
  - by rewrite execute_query_exhausted.
  - rewrite execute_query_free by done. unfold run_and_fetch. cbn [negb andb].
    change (Pg.execute (QSelect ?q ?p) ?d)
      with (bind (Pg.select_rows q p d) (fun rows =>
              Ok (mkCursor (Some rows) (Z.of_nat (length rows)), d))).
    by destruct (Pg.select_rows _ _ _).
Qed.


(** ** The theorems above on the example stores *)

Lemma example_store_consistent : consistent (nd_db example_store).
Proof.
  split; [split|split]; try reflexivity; vm_compute Pg.accounts.
  - repeat constructor.
  - repeat constructor; eexists; (split; [reflexivity|vm_compute; reflexivity]).
Qed.

Lemma backup_records_importable :
  importable (Some (CsvRecords backup_records))
  /\ stored (email_of (Some (CsvRecords backup_records))) (nd_db example_store).
Proof.
  split.
  - exists (CsvRecords backup_records). repeat split.
    intros i key. unfold import_columns. rewrite !elem_of_cons, elem_of_nil.
    intros [H|[H|[H|[H|[H|[H|[H|[H|[]]]]]]]]]; injection H as -> ->;
      (eexists; split; [reflexivity|vm_compute; reflexivity]).
  - unfold stored. vm_compute. discriminate.
Qed.



Lemma import_keeps_table_consistent_witness :
  consistent (nd_db (import_from_csv Pg.execute 5000 (Some backup_file) example_store).2).
Proof.
  apply (import_keeps_table_consistent 5000 (Some backup_file) example_store).
  exact example_store_consistent.
Defined.

(** The first page of one account from the store of two. *)
Lemma account_list_newest_first_witness :
  get_account_list Pg.execute None (Some 1) None two_accounts_store
  = (Some (page (Some 1) None
             (newest_first (with_status None (Pg.accounts (nd_db two_accounts_store))))),
     cycled two_accounts_store (nd_db two_accounts_store)).
Proof.
  destruct (account_list_newest_first None (Some 1) None two_accounts_store) as [H _].
  - vm_compute. lia.
  - simpl. lia.
  - simpl. lia.
  - exact H.
Defined.

(** The younger account comes first, and alone on a page of one. *)
Lemma account_list_example :
  (get_account_list Pg.execute None None None two_accounts_store).1
  = Some [[VInt 2; VText "example.org"; VText "b@example.org"; VText "q";
           VNull; VNull; VNull; VText "7 / 50"; VNull; VText "active";
           VTime 2000; VTime 2000];
          example_row]
  /\ (get_account_list Pg.execute None (Some 1) None two_accounts_store).1
     = Some [[VInt 2; VText "example.org"; VText "b@example.org"; VText "q";
              VNull; VNull; VNull; VText "7 / 50"; VNull; VText "active";
              VTime 2000; VTime 2000]].
Proof. split; vm_compute; reflexivity. Qed.

Lemma export_writes_every_account_witness :
  export_to_csv Pg.execute str_int two_accounts_store
  = ((true, Some (exported_records str_int
                    (newest_first (Pg.accounts (nd_db two_accounts_store))))),
     cycled two_accounts_store (nd_db two_accounts_store)).
Proof.
  rewrite (export_writes_every_account str_int two_accounts_store).
  - reflexivity.
  - apply two_accounts_consistent.
  - vm_compute. lia.
Defined.

(** The file written for the two accounts. *)
Lemma export_example :
  (export_to_csv Pg.execute str_int two_accounts_store).1
  = (true, Some [["variable"; "value"];
                 ["DOMAIN"; "example.org"]; ["EMAIL"; "b@example.org"]; ["PASSWORD"; "q"];
                 ["QUOTA"; "7 / 50"];
                 ["DOMAIN"; "example.com"]; ["EMAIL"; "a@example.com"]; ["PASSWORD"; "p"]]).
Proof. vm_compute. reflexivity. Qed.


(** ** Backup files: reading and updating *)

Section BackupFiles.

Import ManageTab AccountList.

Lemma defaults_lookup key :
  account_defaults !! key
  = if bool_decide (key ∈ ACCOUNT_KEYS)
    then Some (if bool_decide (key = "QUOTA" \/ key = "DAYS") then UNKNOWN else "")
    else None.
Proof.
  destruct (decide (key = "MOE_MAIL_URL")) as [->|?]; [by vm_compute|].
  destruct (decide (key = "API_KEY")) as [->|?]; [by vm_compute|].
  destruct (decide (key = "PASSWORD")) as [->|?]; [by vm_compute|].
  destruct (decide (key = "DAYS")) as [->|?]; [by vm_compute|].
  destruct (decide (key = "QUOTA")) as [->|?]; [by vm_compute|].
  destruct (decide (key = "COOKIES_STR")) as [->|?]; [by vm_compute|].
  destruct (decide (key = "EMAIL")) as [->|?]; [by vm_compute|].
  destruct (decide (key = "DOMAIN")) as [->|?]; [by vm_compute|].
  unfold account_defaults, ACCOUNT_KEYS.
  rewrite !lookup_insert_ne by done. rewrite lookup_empty, bool_decide_false; [done|].
  rewrite !elem_of_cons, elem_of_nil. tauto.
Qed.

Lemma parse_row_lookup d row key :
  parse_row d row !! key
  = if keyed key row && bool_decide (is_Some (d !! key)) then Some (nth 1 row "")
    else d !! key.
Proof.
  unfold parse_row, keyed. destruct row as [|k [|v more]]; try done. simpl.
  destruct (String.eqb k key) eqn:E.
  - apply String.eqb_eq in E as ->. simpl. case_bool_decide as H.
    + by rewrite lookup_insert_eq.
    + done.
  - apply String.eqb_neq in E. simpl. case_bool_decide; [|done].
    by rewrite lookup_insert_ne.
Qed.

Lemma last_cons {A} (x : A) l d : List.last (x :: l) d = List.last l x.
Proof.
  revert x d. induction l as [|y l IH]; intros x d; [done|].
  change (List.last (x :: y :: l) d) with (List.last (y :: l) d).
  by rewrite (IH y d), (IH y x).
Qed.

(** What [parse_csv_file] reads for a key: the value of its last record,
    or the default; a key outside the defaults is not read at all. *)
Lemma fold_parse_lookup rows : forall d key,
  fold_left parse_row rows d !! key
  = (fun v0 => List.last (values_of key rows) v0) <$> d !! key.
Proof.
  induction rows as [|row rows IH]; intros d key.
  - simpl. by destruct (d !! key).
  - cbn [fold_left]. rewrite IH, parse_row_lookup. unfold values_of.
    cbn [omap list_omap]. destruct (keyed key row); cbn [andb].
    + destruct (d !! key) as [v0|] eqn:E.
      * rewrite bool_decide_true by eauto. cbn [fmap option_fmap option_map].
        by rewrite last_cons.
      * by rewrite bool_decide_false by (by intros [? ?]).
    + done.
Qed.

Lemma values_of_app key rows rows' :
  values_of key (rows ++ rows') = values_of key rows ++ values_of key rows'.
Proof. unfold values_of. apply omap_app. Qed.

Lemma set_field_values key val rows key' :
  values_of key' (set_field key val rows)
  = if decide (key' = key)
    then val :: tail (values_of key rows)
    else values_of key' rows.
Proof.
  induction rows as [|row rows IH].
  - unfold values_of. simpl. destruct (decide (key' = key)) as [->|Hne].
    + by rewrite String.eqb_refl.
    + by assert (String.eqb key key' = false) as -> by (by apply String.eqb_neq).
  - cbn [set_field]. destruct row as [|k [|old more]].
    + unfold values_of in *. cbn [omap list_omap keyed]. rewrite IH.
      by destruct (decide (key' = key)).
    + unfold values_of in *. cbn [omap list_omap keyed]. rewrite IH.
      by destruct (decide (key' = key)).
    + destruct (String.eqb k key) eqn:E.
      * apply String.eqb_eq in E as ->. unfold values_of. cbn [omap list_omap keyed nth].
        destruct (decide (key' = key)) as [->|Hne].
        -- by rewrite String.eqb_refl.
        -- by assert (String.eqb key key' = false) as -> by (by apply String.eqb_neq).
      * apply String.eqb_neq in E. unfold values_of in *. cbn [omap list_omap keyed nth].
        rewrite IH. destruct (decide (key' = key)) as [->|Hne].
        -- by assert (String.eqb k key = false) as -> by (by apply String.eqb_neq).
        -- done.
Qed.

Lemma set_field_header key val hd rest :
  keyed key hd = false -> set_field key val (hd :: rest) = hd :: set_field key val rest.
Proof.
  intros H. cbn [set_field]. destruct hd as [|k [|old more]]; try done.
  simpl in H. by rewrite H.
Qed.

(** The records after [update_csv_file] wrote the fields, and what
    [parse_csv_file] then reads from them. *)
Lemma set_fields_read fields : forall hd rest d,
  NoDup (fst <$> fields) ->
  (forall key, key ∈ (fst <$> fields) ->
     keyed key hd = false /\ (occurrences key rest <= 1)%nat) ->
  exists rest',
    fold_left (fun rows fv => set_field (fst fv) (snd fv) rows) fields (hd :: rest)
    = hd :: rest'
    /\ (forall key val, (key, val) ∈ fields ->
          fold_left parse_row rest' d !! key = (fun _ => val) <$> d !! key)
    /\ (forall key, key ∉ (fst <$> fields) ->
          fold_left parse_row rest' d !! key = fold_left parse_row rest d !! key).
Proof.
  induction fields as [|[k v] fields IH]; intros hd rest d Hnd Hkeys.
  { exists rest. split; [done|]. split; [|done]. intros key val Hin. by apply elem_of_nil in Hin. }
  rewrite fmap_cons in Hnd. apply NoDup_cons in Hnd as [Hk Hnd]. cbn [fst] in Hk.
  destruct (Hkeys k) as [Hhd Hocc]; [rewrite fmap_cons; by left|].
  cbn [fold_left fst snd]. rewrite set_field_header by done.
  destruct (IH hd (set_field k v rest) d Hnd) as (rest' & Hfold & Hin & Hout).
  { intros key Hkey. destruct (Hkeys key) as [? Ho]; [rewrite fmap_cons; by right|].
    split; [done|]. unfold occurrences in *. rewrite set_field_values.
    rewrite decide_False; [done|]. by intros ->. }
  exists rest'. split; [done|]. split.
  - intros key val Hmem. apply elem_of_cons in Hmem as [[= -> ->]|Hmem]; [|by apply Hin].
    rewrite Hout by done. rewrite !fold_parse_lookup, set_field_values, decide_True by done.
    unfold occurrences in Hocc. destruct (values_of k rest) as [|x [|y l]]; simpl in *;
      try lia; by destruct (d !! k).
  - intros key Hkey. rewrite fmap_cons in Hkey. apply not_elem_of_cons in Hkey as [Hne Hkey].
    rewrite Hout by done. rewrite !fold_parse_lookup, set_field_values.
    by rewrite decide_False.
Qed.

(** X11: [parse_csv_file] always answers with the eight keys of an account and
    no other: a record of another key is ignored.  For each key the last
    record that has it counts; without such a record, and for a file that
    is missing or empty, the default stays (the sentinel for quota and
    days, the empty string otherwise). *)
Theorem parse_csv_file_reads_last_record csv_file (w : world) key :
  (is_Some (parse_csv_file csv_file w !! key) <-> key ∈ ACCOUNT_KEYS)
  /\ (forall header before val more after,
        files w !! csv_file = Some (header :: before ++ (key :: val :: more) :: after) ->
        occurrences key after = 0%nat ->
        key ∈ ACCOUNT_KEYS ->
        parse_csv_file csv_file w !! key = Some val)
  /\ (forall header rows,
        files w !! csv_file = Some (header :: rows) ->
        occurrences key rows = 0%nat ->
        parse_csv_file csv_file w !! key = account_defaults !! key)
  /\ (files w !! csv_file = None \/ files w !! csv_file = Some [] ->
      parse_csv_file csv_file w = account_defaults).
Proof.
  unfold parse_csv_file. repeat split.
  - intros [v Hv]. destruct (files w !! csv_file) as [[|header rows]|];
      try rewrite fold_parse_lookup in Hv; rewrite defaults_lookup in Hv;
      by destruct (bool_decide (key ∈ ACCOUNT_KEYS)) eqn:E; [apply bool_decide_eq_true in E|].
  - intros Hkey. destruct (files w !! csv_file) as [[|header rows]|];
      try rewrite fold_parse_lookup; rewrite defaults_lookup;
      by rewrite bool_decide_true by done.
  - intros header before val more after -> Hocc Hkey.
    rewrite fold_parse_lookup, defaults_lookup, bool_decide_true by done.
    cbn [fmap option_fmap option_map]. f_equal.
    change ((key :: val :: more) :: after) with ([key :: val :: more] ++ after).
    rewrite !values_of_app. unfold occurrences in Hocc.
    destruct (values_of key after); [|done]. rewrite app_nil_r.
    unfold values_of at 2. cbn [omap list_omap keyed nth]. rewrite String.eqb_refl.
    apply List.last_last.
  - intros header rows -> Hocc. rewrite fold_parse_lookup. unfold occurrences in Hocc.
    destruct (values_of key rows); [|done]. by destruct (account_defaults !! key).
  - by intros [-> | ->].
Qed.


End BackupFiles.

(** ** The refresh worker: failures, and what a refresh leaves *)

Section RefreshMore.

Import ManageTab AccountList.

Variable extract_token : string -> string -> res (option string).
Variable b64decode : string -> res string.
Variable json_loads : string -> res json.
Variable py_repr : json -> string.
Variable http_get : string -> string -> res json.

Local Abbreviation usage := (get_trial_usage extract_token b64decode json_loads py_repr http_get).
Local Abbreviation user_id_of := (extract_user_id_from_jwt extract_token b64decode json_loads).
Local Abbreviation refresh1 := (update_single_account extract_token b64decode json_loads py_repr http_get).
Local Abbreviation silent1 := (auto_update_one extract_token b64decode json_loads py_repr http_get).
Local Abbreviation silent := (auto_update_info extract_token b64decode json_loads py_repr http_get).
Local Abbreviation batch_world := (world_after extract_token b64decode json_loads py_repr http_get).

(** X14: How [get_trial_usage] fails.  An empty cookie is refused before
    anything else happens.  Every other failure is a [ValueError] whose
    message starts with the label of a token failure, whatever went
    wrong: a request that fails after the user id was read from the token
    is reported as a token failure around an account failure around a
    request failure. *)
Theorem trial_usage_failures cookie_str :
  usage "" = Raise (Exn ValueError "Cookie信息不能为空")
  /\ (forall e, usage cookie_str = Raise e -> exn_kind e = ValueError)
  /\ (forall e, truthy_str cookie_str = true -> usage cookie_str = Raise e ->
        exists rest, exn_msg e = "处理 JWT 失败: " +:+ rest)
  /\ (forall user_id e, truthy_str cookie_str = true ->
        user_id_of cookie_str = Ok user_id ->
        http_get URL_ME (cookie_header cookie_str) = Raise e ->
        usage cookie_str
        = Raise (Exn ValueError
                   ("处理 JWT 失败: " +:+ "获取账号信息失败: " +:+ "API请求失败: " +:+ str_exn e)))
  /\ (forall e, truthy_str cookie_str = true ->
        user_id_of cookie_str = Raise e ->
        usage cookie_str = Raise (Exn ValueError ("处理 JWT 失败: " +:+ str_exn e))).
Proof.
  split; [done|]. unfold get_trial_usage. split; [|split; [|split]].
  - intros e. destruct (negb (truthy_str cookie_str)); [by intros [= <-]|].
    apply wrap_kind.
  - intros e ->. cbn [negb]. destruct (bind _ _) as [?|e0]; [done|].
    intros [= <-]. by eexists.
  - intros user_id e -> Hid He. cbn [negb]. rewrite Hid. cbn [bind].
    unfold make_request at 1. rewrite He. reflexivity.
  - intros e -> Hid. cbn [negb]. by rewrite Hid.
Qed.

Lemma tree_set_all_ok item cells : forall w row0,
  tree w !! item = Some row0 ->
  tree_set_all item cells w
  = (Ok tt,
     match cells with
     | [] => w
     | _ :: _ =>
         mkWorld (files w)
           (<[item := fold_left (fun row cv => <[fst cv := snd cv]> row) cells row0]> (tree w))
           (ui w)
     end).
Proof.
  induction cells as [|[c v] cells IH]; intros w row0 Hrow; [done|].
  cbn [tree_set_all]. unfold tree_set. rewrite Hrow.
  rewrite (IH _ (<[c := v]> row0)) by (cbn [tree]; by rewrite lookup_insert_eq).
  cbn [files tree ui fold_left fst snd]. destruct cells; [done|].
  by rewrite insert_insert_eq.
Qed.

Lemma tree_set_all_result item cells w r w1 :
  tree_set_all item cells w = (r, w1) ->
  files w1 = files w /\ ui w1 = ui w
  /\ (cells <> [] -> r = Ok tt ->
      exists row0, tree w !! item = Some row0
        /\ tree w1
           = <[item := fold_left (fun row cv => <[fst cv := snd cv]> row) cells row0]> (tree w)).
Proof.
  destruct (tree w !! item) as [row0|] eqn:Hrow.
  - rewrite (tree_set_all_ok item cells w row0 Hrow). intros [= <- <-].
    destruct cells as [|cv cells]; [done|]. repeat split. intros _ _. by exists row0.
  - destruct cells as [|[c v] cells]; [by intros [= <- <-]|].
    cbn [tree_set_all]. unfold tree_set. rewrite Hrow. by intros [= <- <-].
Qed.



Lemma silent1_refresh1 csv_file account_data w :
  silent1 csv_file account_data w = (refresh1 csv_file account_data w).2.
Proof.
  unfold auto_update_one, update_single_account.
  destruct (negb (truthy_str _)); [done|].
  destruct (extract_user_id_from_jwt _ _ _ _) as [user_id|e0]; [|done].
  destruct (get_trial_usage _ _ _ _ _ _) as [[[[domain email] quota] days]|e0]; [|done].
  destruct (tree_set_all _ _ w) as [[[]|e1] w1]; [|done].
  by destruct (update_csv_file _ _ w1) as [[[]|e2] w2].
Qed.

(** X17: [auto_update_info], the refresh run at start-up, leaves the files and
    the tree exactly as the refresh of all accounts behind the button
    does, and shows no dialog: an account without cookie and an account
    whose refresh fails are passed over in silence. *)
Theorem auto_update_is_silent_batch csv_files w :
  silent csv_files w = batch_world (accounts_to_update None csv_files w) w
  /\ ui (silent csv_files w) = ui w.
Proof.
  assert (forall accounts w0,
            auto_update_each extract_token b64decode json_loads py_repr http_get accounts w0
            = batch_world accounts w0) as Heach.
  { induction accounts as [|[csv_file account_data] accounts IH]; intros w0; [done|].
    cbn [auto_update_each]. by rewrite refresh_world_cons, silent1_refresh1, IH. }
  assert (forall accounts w0, ui (batch_world accounts w0) = ui w0) as Hui.
  { induction accounts as [|[csv_file account_data] accounts IH]; intros w0; [done|].
    rewrite refresh_world_cons, IH. apply refresh_same_but. }
  unfold auto_update_info. rewrite Heach. split; [done|]. apply Hui.
Qed.

End RefreshMore.

(** ** The list of accounts and the deletion of one *)

Section ListAndDelete.

Import ManageTab AccountList.

Lemma parse_csv_file_files csv_file w w' :
  files w' = files w -> parse_csv_file csv_file w' = parse_csv_file csv_file w.
Proof. unfold parse_csv_file. by intros ->. Qed.

Lemma parse_csv_file_key csv_file w key :
  key ∈ ACCOUNT_KEYS -> is_Some (parse_csv_file csv_file w !! key).
Proof.
  intros Hkey. unfold parse_csv_file.
  destruct (files w !! csv_file) as [[|header rows]|];
    try rewrite fold_parse_lookup; rewrite defaults_lookup;
    by rewrite bool_decide_true by done.
Qed.

Lemma list_files_rows csv_files : forall w0,
  NoDup csv_files ->
  (forall f, f ∈ csv_files -> tree w0 !! f = None) ->
  exists w',
    list_files csv_files w0 = (Ok tt, w')
    /\ files w' = files w0 /\ ui w' = ui w0
    /\ (forall f, f ∉ csv_files -> tree w' !! f = tree w0 !! f)
    /\ (forall f, f ∈ csv_files ->
          tree w' !! f = Some (tree_row (list_values (parse_csv_file f w0)))).
Proof.
  induction csv_files as [|csv_file csv_files IH]; intros w0 Hnd Hfresh.
  { exists w0. repeat split; try done. intros f Hf. by apply elem_of_nil in Hf. }
  apply NoDup_cons in Hnd as [Hnot Hnd].
  cbn [list_files]. unfold tree_insert. rewrite (Hfresh csv_file) by (by left).
  set (w1 := mkWorld _ _ _).
  destruct (IH w1 Hnd) as (w' & -> & Hf & Hu & Hout & Hin).
  { intros f Hfin. subst w1. cbn [tree]. rewrite lookup_insert_ne by (by intros ->).
    apply Hfresh. by right. }
  exists w'. split; [done|]. split; [done|]. split; [done|]. split.
  - intros f Hfout. apply not_elem_of_cons in Hfout as [Hne Hfout].
    rewrite (Hout f Hfout). subst w1. cbn [tree]. by rewrite lookup_insert_ne.
  - intros f [->|Hfin]%elem_of_cons.
    + rewrite (Hout csv_file Hnot). subst w1. cbn [tree]. by rewrite lookup_insert_eq.
    + rewrite (Hin f Hfin). by rewrite (parse_csv_file_files f w0 w1).
Qed.

(** X18: [refresh_list] over the files found (each path once): the tree then
    has exactly one row per file, the rows from before are gone, and the
    row of a file shows under the five headings what [parse_csv_file]
    reads for domain, email, password, quota and days.  A file without
    password is shown with an empty password, not with the sentinel; no
    file is changed and no dialog is shown. *)
Theorem refresh_list_shows_files csv_files w :
  NoDup csv_files ->
  let w' := refresh_list csv_files w in
  files w' = files w
  /\ ui w' = ui w
  /\ (forall f, f ∉ csv_files -> tree w' !! f = None)
  /\ (forall f, f ∈ csv_files ->
        exists row,
          tree w' !! f = Some row
          /\ row !! "域名" = parse_csv_file f w !! "DOMAIN"
          /\ row !! "邮箱" = parse_csv_file f w !! "EMAIL"
          /\ row !! "密码" = parse_csv_file f w !! "PASSWORD"
          /\ row !! "额度" = parse_csv_file f w !! "QUOTA"
          /\ row !! "剩余天数" = parse_csv_file f w !! "DAYS").
Proof.
  intros Hnd w'. subst w'. unfold refresh_list.
  destruct (list_files_rows csv_files (mkWorld (files w) ∅ (ui w)) Hnd)
    as (w' & -> & Hf & Hu & Hout & Hin).
  { intros f _. apply lookup_empty. }
  split; [done|]. split; [done|]. split.
  - intros f Hfout. by rewrite (Hout f Hfout).
  - intros f Hfin. rewrite (Hin f Hfin).
    rewrite (parse_csv_file_files f w (mkWorld (files w) ∅ (ui w))) by done.
    eexists. split; [reflexivity|]. unfold tree_row, list_values, lookup_str.
    destruct (parse_csv_file_key f w "DOMAIN") as [v1 ->]; [in_list|].
    destruct (parse_csv_file_key f w "EMAIL") as [v2 ->]; [in_list|].
    destruct (parse_csv_file_key f w "PASSWORD") as [v3 ->]; [in_list|].
    destruct (parse_csv_file_key f w "QUOTA") as [v4 ->]; [in_list|].
    destruct (parse_csv_file_key f w "DAYS") as [v5 ->]; [in_list|].
    cbn [from_option id]. repeat split; by vm_compute.
Qed.

(** What [get_selected_account] accepts. *)
Lemma selected_account_ok selected_item w csv_file_path account_data :
  get_selected_account selected_item w = Ok (csv_file_path, account_data) ->
  selected_item = Some csv_file_path
  /\ account_data = parse_csv_file csv_file_path w
  /\ is_Some (tree w !! csv_file_path)
  /\ is_Some (files w !! csv_file_path)
  /\ truthy_str (at_key account_data "EMAIL") = true
  /\ truthy_str (at_key account_data "PASSWORD") = true
  /\ truthy_str (at_key account_data "COOKIES_STR") = true.
Proof.
  unfold get_selected_account. destruct selected_item as [item|]; cbn [truthy_opt_str negb]; [|by intros [=]].
  destruct (negb (truthy_str item)); [by intros [=]|]. cbn [default from_option id].
  destruct (tree w !! item) as [item_values|] eqn:Ht; [|by intros [=]].
  destruct (negb (bool_decide _)); [by intros [=]|].
  destruct (truthy_str (at_key (parse_csv_file item w) "EMAIL")) eqn:He; [|by intros [=]].
  destruct (truthy_str (at_key (parse_csv_file item w) "PASSWORD")) eqn:Hp; [|by intros [=]].
  destruct (truthy_str (at_key (parse_csv_file item w) "COOKIES_STR")) eqn:Hc; [|by intros [=]].
  cbn [negb orb]. intros [= <- <-]. repeat split; try done.
  destruct (files w !! item) as [records|] eqn:Hfile; [done|].
  unfold parse_csv_file in He. by rewrite Hfile in He.
Qed.

(** X19: [delete_account]: when no complete account is selected (no
    selection, a row without values, or a file that lacks the email, the
    password or the cookie) an error dialog is shown and nothing is
    deleted; when the confirmation is declined nothing happens at all;
    when it is given, the file and the tree row of the selected account,
    and nothing else, are removed and the success dialog names the email.
    An account that could be selected has its file, so a confirmed
    deletion does not end in the error dialog. *)
Theorem delete_account_removes_selected askyesno selected_item w :
  let w' := delete_account askyesno selected_item w in
  (forall e, get_selected_account selected_item w = Raise e ->
     w' = add_ui [ShowError "删除账号失败" (str_exn e)] w)
  /\ (forall csv_file_path account_data,
        get_selected_account selected_item w = Ok (csv_file_path, account_data) ->
        truthy_str (at_key account_data "COOKIES_STR") = true
        /\ is_Some (files w !! csv_file_path)
        /\ (askyesno "确认删除" (confirm_message account_data) = false -> w' = w)
        /\ (askyesno "确认删除" (confirm_message account_data) = true ->
            files w' = base.delete csv_file_path (files w)
            /\ tree w' = base.delete csv_file_path (tree w)
            /\ ui w' = ui w ++ [ShowLoading "删除账号" "正在删除账号信息，请稍候...";
                                 CloseLoading;
                                 ShowSuccess ("已删除账号: " +:+ at_key account_data "EMAIL")])).
Proof.
  intros w'. subst w'. unfold delete_account, handle_account_action. split.
  - by intros e ->.
  - intros csv_file_path account_data Hsel. rewrite Hsel.
    apply selected_account_ok in Hsel as (_ & _ & [row Hrow] & [records Hfile] & _ & _ & Hc).
    split; [done|]. split; [by eexists|]. unfold delete_account_file. split.
    + by intros ->.
    + intros ->. cbn [negb]. unfold process_delete, add_ui. cbn [files tree ui].
      rewrite Hfile. cbn [files tree ui]. rewrite Hrow. cbn [files tree ui].
      by rewrite <- app_assoc.
Qed.

End ListAndDelete.


(** ** Strings *)

Lemma append_cons x (a b : string) : String x a +:+ b = String x (a +:+ b).
Proof. reflexivity. Qed.

Lemma append_nil_l (a : string) : "" +:+ a = a.
Proof. reflexivity. Qed.

Lemma append_assoc (a b c : string) : (a +:+ b) +:+ c = a +:+ (b +:+ c).
Proof. induction a as [|x a IH]; [done|]. by rewrite !append_cons, IH. Qed.

Lemma append_nil_r (a : string) : a +:+ "" = a.
Proof. induction a as [|x a IH]; [done|]. by rewrite append_cons, IH. Qed.

Lemma length_append (a b : string) :
  String.length (a +:+ b) = (String.length a + String.length b)%nat.
Proof. induction a as [|x a IH]; [done|]. rewrite append_cons. simpl. by rewrite IH. Qed.

Lemma rev_app_append s t : String.rev_app s t = String.rev s +:+ t.
Proof.
  unfold String.rev. revert t. induction s as [|c s IH]; intros t; [done|].
  simpl. rewrite IH, (IH (String c EmptyString)). by rewrite append_assoc.
Qed.

Lemma rev_cons c s : String.rev (String c s) = String.rev s +:+ String c "".
Proof. unfold String.rev at 1. simpl. apply rev_app_append. Qed.

Lemma rev_append a b : String.rev (a +:+ b) = String.rev b +:+ String.rev a.
Proof.
  induction a as [|x a IH]; [by rewrite append_nil_r|].
  by rewrite append_cons, !rev_cons, IH, append_assoc.
Qed.

Lemma rev_involutive s : String.rev (String.rev s) = s.
Proof. induction s as [|c s IH]; [done|]. by rewrite rev_cons, rev_append, IH. Qed.

Lemma startswith_nil s : startswith s "" = true.
Proof. by destruct s. Qed.

(** [s.split(c)] at the first [c]. *)
Lemma split_go_piece x a b : forall fuel cur,
  Csv.has_char x a = false ->
  (String.length (a +:+ String x b) < fuel)%nat ->
  Py.split_go fuel (String x "") cur (a +:+ String x b)
  = (String.rev cur +:+ a)
    :: Py.split_go (fuel - String.length a - 1) (String x "") "" b.
Proof.
  induction a as [|c a IH]; intros fuel cur Hno Hlen.
  - rewrite append_nil_l in *.
    destruct fuel as [|fuel]; [simpl in Hlen; lia|].
    cbn [Py.split_go Py.startswith]. rewrite Ascii.eqb_refl, append_nil_r, startswith_nil.
    cbn [String.length Py.drop].
    by replace (S fuel - 0 - 1)%nat with fuel by lia.
  - rewrite append_cons in *.
    destruct fuel as [|fuel]; [simpl in Hlen; lia|]. simpl in Hno, Hlen.
    apply orb_false_iff in Hno as [Hc Hno]. cbn [Py.split_go Py.startswith].
    rewrite Hc. rewrite IH by (done || lia).
    rewrite rev_cons, append_assoc. cbn [String.length].
    by replace (S fuel - S (String.length a) - 1)%nat
      with (fuel - String.length a - 1)%nat by lia.
Qed.

Lemma split_go_last x a : forall fuel cur,
  Csv.has_char x a = false ->
  (String.length a < fuel)%nat ->
  Py.split_go fuel (String x "") cur a = [String.rev cur +:+ a].
Proof.
  induction a as [|c a IH]; intros fuel cur Hno Hlen.
  - destruct fuel as [|fuel]; [simpl in Hlen; lia|]. simpl. by rewrite append_nil_r.
  - destruct fuel as [|fuel]; [simpl in Hlen; lia|]. simpl in Hno, Hlen.
    apply orb_false_iff in Hno as [Hc Hno]. cbn [Py.split_go Py.startswith].
    rewrite Hc. rewrite IH by (done || lia).
    by rewrite rev_cons, append_assoc.
Qed.

Lemma split_piece x a b :
  Csv.has_char x a = false ->
  Py.split (a +:+ String x b) (String x "") = a :: Py.split b (String x "").
Proof.
  intros Hno. unfold Py.split. rewrite split_go_piece by (done || lia).
  rewrite length_append. cbn [String.length]. do 2 f_equal. lia.
Qed.

Lemma split_last x a :
  Csv.has_char x a = false -> Py.split a (String x "") = [a].
Proof. intros Hno. unfold Py.split. by rewrite split_go_last by (done || lia). Qed.

(** Join, then split: the pieces come back. *)
Lemma split_join x pieces :
  pieces <> [] ->
  Forall (fun piece => Csv.has_char x piece = false) pieces ->
  Py.split (Py.join (String x "") pieces) (String x "") = pieces.
Proof.
  induction pieces as [|a pieces IH]; [done|]. intros _ Hall.
  apply Forall_cons in Hall as [Ha Hall]. destruct pieces as [|b pieces].
  - by apply split_last.
  - change (Py.join (String x "") (a :: b :: pieces))
      with (a +:+ String x (Py.join (String x "") (b :: pieces))).
    rewrite split_piece by done. by rewrite IH.
Qed.


(** ** A backup written by the register tab, read by the manage tab *)

Lemma join_cons sep x l :
  l <> [] -> Py.join sep (x :: l) = x +:+ sep +:+ Py.join sep l.
Proof. by destruct l. Qed.

Lemma plain_chars s :
  Csv.plain s = true ->
  Csv.has_char "," s = false /\ Csv.has_char "010" s = false.
Proof.
  unfold Csv.plain. rewrite !andb_true_iff, !negb_true_iff. tauto.
Qed.

Lemma backup_lines_join str_datetime backup_data :
  RegisterTab.backup_lines str_datetime backup_data
  = Py.join RegisterTab.newline (backup_file_lines str_datetime backup_data ++ [""]).
Proof.
  induction backup_data as [|[key v] backup_data IH]; [done|].
  cbn [RegisterTab.backup_lines]. unfold backup_file_lines in *.
  cbn [omap list_omap fst snd]. rewrite IH. destruct (truthy v); [|done].
  cbn [app]. rewrite join_cons by (by destruct (omap _ backup_data)).
  by rewrite !append_assoc.
Qed.

Lemma file_lines_join lines :
  Forall (fun line => Csv.has_char "010" line = false) lines ->
  Csv.file_lines (Py.join RegisterTab.newline (lines ++ [""])) = lines.
Proof.
  intros Hall. unfold Csv.file_lines, RegisterTab.newline.
  rewrite split_join.
  - unfold last_part. rewrite List.last_last. cbn [String.eqb].
    apply removelast_last.
  - by destruct lines.
  - apply Forall_app. split; [done|]. by apply Forall_singleton.
Qed.

Lemma reader_backup str_datetime backup_data :
  Forall (fun kv : string * value =>
            Csv.plain (fst kv) = true /\ Csv.plain (csv_cell str_datetime (snd kv)) = true)
         backup_data ->
  Csv.reader (RegisterTab.backup_text str_datetime backup_data)
  = ["variable"; "value"] :: backup_file_records str_datetime backup_data.
Proof.
  intros Hall. unfold Csv.reader, RegisterTab.backup_text.
  rewrite backup_lines_join.
  rewrite <- (join_cons RegisterTab.newline "variable,value")
    by (by destruct (backup_file_lines _ _)).
  rewrite app_comm_cons, file_lines_join.
  - rewrite fmap_cons. f_equal. unfold backup_file_lines, backup_file_records.
    induction Hall as [|[key v] backup_data [Hk Hv] Hall IH]; [done|].
    cbn [omap list_omap fst snd] in *. destruct (truthy v); [|done].
    rewrite fmap_cons, IH. f_equal.
    apply plain_chars in Hk as [Hk _]. apply plain_chars in Hv as [Hv _].
    assert (String.eqb (key +:+ "," +:+ csv_cell str_datetime v) "" = false) as ->.
    { apply String.eqb_neq. by destruct key. }
    change (key +:+ "," +:+ ?c) with (key +:+ String "," c).
    rewrite split_piece by done. by rewrite split_last.
  - constructor; [done|]. unfold backup_file_lines.
    induction Hall as [|[key v] backup_data [Hk Hv] Hall IH]; [constructor|].
    cbn [omap list_omap fst snd]. destruct (truthy v); [|done].
    constructor; [|done].
    apply plain_chars in Hk as [_ Hk]. apply plain_chars in Hv as [_ Hv].
    clear -Hk Hv. induction key as [|c key IH].
    + rewrite append_nil_l. change ("," +:+ ?c) with (String "," c). by simpl.
    + rewrite append_cons. simpl in *. apply orb_false_iff in Hk as [-> Hk]. by apply IH.
Qed.

Lemma backup_records_values str_datetime backup_data key v :
  NoDup (fst <$> backup_data) ->
  (key, v) ∈ backup_data ->
  AccountList.values_of key (backup_file_records str_datetime backup_data)
  = if truthy v then [csv_cell str_datetime v] else [].
Proof.
  intros Hnd Hin. unfold AccountList.values_of, backup_file_records.
  induction backup_data as [|[k x] backup_data IH]; [by apply elem_of_nil in Hin|].
  rewrite fmap_cons in Hnd. apply NoDup_cons in Hnd as [Hk Hnd]. cbn [fst] in Hk.
  assert (forall y, (k, y) ∉ backup_data) as Hfresh.
  { intros y Hy. apply Hk. apply list_elem_of_fmap. by exists (k, y). }
  cbn [omap list_omap fst snd]. apply elem_of_cons in Hin as [[= -> ->]|Hin].
  - assert (omap (fun row => if AccountList.keyed k row then Some (nth 1 row "") else None)
              (omap (fun kv : string * value =>
                       if truthy (snd kv) then Some [fst kv; csv_cell str_datetime (snd kv)]
                       else None) backup_data) = []) as Hrest.
    { clear -Hfresh. induction backup_data as [|[k' y] backup_data IH]; [done|].
      cbn [omap list_omap fst snd].
      assert (k' <> k) as Hne by (intros ->; apply (Hfresh y); by left).
      rewrite <- IH at 2 by (intros z Hz; apply (Hfresh z); by right).
      destruct (truthy y); [|done]. cbn [omap list_omap AccountList.keyed].
      by assert (String.eqb k' k = false) as -> by (by apply String.eqb_neq). }
    destruct (truthy x); [|done]. cbn [omap list_omap AccountList.keyed nth].
    by rewrite String.eqb_refl, Hrest.
  - assert (k <> key) as Hne by (intros ->; by apply (Hfresh v)).
    rewrite <- (IH Hnd Hin). destruct (truthy x); [|done].
    cbn [omap list_omap AccountList.keyed].
    by assert (String.eqb k key = false) as -> by (by apply String.eqb_neq).
Qed.

Lemma backup_data_from_lookup keys : forall i (account : tuple) backup_data,
  RegisterTab.backup_data_from keys i account = Ok backup_data ->
  fst <$> backup_data = keys
  /\ forall j key, keys !! j = Some key ->
       backup_data !! j = Some (key, Pg.cell (i + j) account).
Proof.
  induction keys as [|k keys IH]; intros i account backup_data.
  - intros [= <-]. split; [done|]. intros j key. by rewrite lookup_nil.
  - cbn [RegisterTab.backup_data_from]. unfold index.
    destruct (account !! i) as [v|] eqn:Hv; [|done]. cbn [bind].
    destruct (RegisterTab.backup_data_from keys (S i) account) as [more|e] eqn:Hmore; [|done].
    cbn [bind]. intros [= <-]. destruct (IH _ _ _ Hmore) as [Hkeys Hall].
    split; [by rewrite fmap_cons, Hkeys|].
    intros [|j] key.
    + intros [= <-]. by rewrite Nat.add_0_r, (cell_lookup _ _ _ Hv).
    + intros Hj. change (more !! j = Some (key, Pg.cell (i + S j) account)).
      change (keys !! j = Some key) in Hj.
      rewrite (Hall j key Hj). do 3 f_equal. lia.
Qed.

(** X20: A backup file as the register tab writes it, read as the manage tab
    reads it.  When no stored value holds a comma, a quote character or a
    line break, [parse_csv_file] finds every non-empty field of the
    account under its key; an empty field is not in the file and reads as
    the default of its key. *)
Theorem backup_file_read_back str_datetime (account : tuple) backup_data csv_file
    (w : ManageTab.world) :
  RegisterTab.backup_data_from RegisterTab.backup_keys 1 account = Ok backup_data ->
  (forall i key, (i, key) ∈ import_columns ->
     Csv.plain (csv_cell str_datetime (Pg.cell i account)) = true) ->
  ManageTab.files w !! csv_file
  = Some (Csv.reader (RegisterTab.backup_text str_datetime backup_data)) ->
  forall i key, (i, key) ∈ import_columns ->
    ManageTab.parse_csv_file csv_file w !! key
    = Some (if truthy (Pg.cell i account)
            then csv_cell str_datetime (Pg.cell i account)
            else default "" (ManageTab.account_defaults !! key)).
Proof.
  intros Hdata Hplain Hfile i key Hik.
  apply backup_data_from_lookup in Hdata as [Hkeys Hall].
  assert (forall i key, (i, key) ∈ import_columns ->
            backup_data !! (i - 1)%nat = Some (key, Pg.cell i account)
            /\ key ∈ AccountList.ACCOUNT_KEYS) as Hcols.
  { clear -Hall. intros i key. unfold import_columns. rewrite !elem_of_cons, elem_of_nil.
    intros [H|[H|[H|[H|[H|[H|[H|[H|[]]]]]]]]]; injection H as -> ->;
      (split; [by apply Hall|in_list]). }
  destruct (Hcols i key Hik) as [Hi Hkey].
  assert (Forall (fun kv : string * value =>
                    Csv.plain (fst kv) = true
                    /\ Csv.plain (csv_cell str_datetime (snd kv)) = true) backup_data) as Hp.
  { apply Forall_lookup. intros j [k v] Hj.
    assert (j < length RegisterTab.backup_keys)%nat as Hlt.
    { rewrite <- Hkeys, length_fmap. by apply lookup_lt_Some in Hj. }
    destruct (lookup_lt_is_Some_2 _ _ Hlt) as [k' Hk'].
    rewrite (Hall j k' Hk') in Hj. injection Hj as <- <-. cbn [fst snd]. split.
    - clear -Hk'. do 8 (destruct j as [|j]; [by injection Hk' as <-|]). done.
    - apply (Hplain (1 + j)%nat k').
      clear -Hk'. do 8 (destruct j as [|j]; [injection Hk' as <-; in_list|]). done. }
  unfold ManageTab.parse_csv_file. rewrite Hfile, (reader_backup _ _ Hp).
  rewrite fold_parse_lookup, defaults_lookup, bool_decide_true by done.
  cbn [fmap option_fmap option_map default from_option id]. f_equal.
  rewrite (backup_records_values str_datetime backup_data key (Pg.cell i account)).
  - by destruct (truthy _).
  - rewrite Hkeys. apply (bool_decide_unpack _). by vm_compute.
  - apply list_elem_of_lookup. eauto.
Qed.

(** ** The lines of a [.env] file *)

Lemma lstrip_by_pad p lead s :
  Env.all_chars p lead = true -> lstrip_by p (lead +:+ s) = lstrip_by p s.
Proof.
  induction lead as [|c lead IH]; [done|]. simpl. intros [-> H]%andb_true_iff. by apply IH.
Qed.

Lemma lstrip_by_all p s : Env.all_chars p s = true -> lstrip_by p s = "".
Proof.
  induction s as [|c s IH]; [done|]. simpl. intros [-> H]%andb_true_iff. by apply IH.
Qed.

Lemma lstrip_by_clear p s : Env.first_clear p s = true -> lstrip_by p s = s.
Proof. destruct s as [|c s]; [done|]. simpl. by intros ->%negb_true_iff. Qed.

Lemma all_chars_append p a b :
  Env.all_chars p (a +:+ b) = Env.all_chars p a && Env.all_chars p b.
Proof.
  induction a as [|c a IH]; [done|]. rewrite append_cons. simpl. by rewrite IH, andb_assoc.
Qed.

Lemma all_chars_rev p s : Env.all_chars p (String.rev s) = Env.all_chars p s.
Proof.
  induction s as [|c s IH]; [done|]. rewrite rev_cons, all_chars_append, IH. simpl.
  by rewrite andb_true_r, andb_comm.
Qed.

Lemma first_clear_append p a b :
  truthy_str a = true -> Env.first_clear p (a +:+ b) = Env.first_clear p a.
Proof. by destruct a. Qed.

Lemma truthy_append a b : truthy_str (a +:+ b) = truthy_str a || truthy_str b.
Proof. by destruct a. Qed.

Lemma truthy_rev s : truthy_str (String.rev s) = truthy_str s.
Proof.
  destruct s as [|c s]; [done|]. rewrite rev_cons. by destruct (String.rev s).
Qed.

(** [strip] drops the padding and nothing else. *)
Lemma strip_by_pad p lead body trail :
  Env.all_chars p lead = true -> Env.all_chars p trail = true ->
  Env.no_outer p body = true ->
  strip_by p (lead +:+ body +:+ trail) = body.
Proof.
  intros Hlead Htrail [Hfirst Hlast]%andb_true_iff. unfold strip_by.
  rewrite lstrip_by_pad by done. destruct body as [|c body].
  - rewrite append_nil_l, (lstrip_by_all p trail) by done. done.
  - rewrite (lstrip_by_clear p (String c body +:+ trail)) by done.
    rewrite rev_append, lstrip_by_pad by (by rewrite all_chars_rev).
    rewrite lstrip_by_clear by done. apply rev_involutive.
Qed.

Lemma strip_by_lead p lead body :
  Env.all_chars p lead = true -> Env.no_outer p body = true ->
  strip_by p (lead +:+ body) = body.
Proof.
  intros Hlead Hbody. rewrite <- (append_nil_r body) at 1. by apply strip_by_pad.
Qed.

Lemma strip_by_id p s : Env.no_outer p s = true -> strip_by p s = s.
Proof.
  intros H. rewrite <- (strip_by_pad p "" s "") at 2 by done.
  by rewrite append_nil_l, append_nil_r.
Qed.

Lemma has_char_append x a b :
  Csv.has_char x (a +:+ b) = Csv.has_char x a || Csv.has_char x b.
Proof.
  induction a as [|c a IH]; [done|]. rewrite append_cons. simpl. by rewrite IH, orb_assoc.
Qed.

Lemma has_char_rev x s : Csv.has_char x (String.rev s) = Csv.has_char x s.
Proof.
  induction s as [|c s IH]; [done|]. rewrite rev_cons, has_char_append, IH. simpl.
  by rewrite orb_false_r, orb_comm.
Qed.

Lemma has_char_lstrip x p s :
  Csv.has_char x s = false -> Csv.has_char x (lstrip_by p s) = false.
Proof.
  induction s as [|c s IH]; [done|]. simpl. intros H. destruct (p c); [|done].
  apply IH. by apply orb_false_iff in H as [_ ?].
Qed.

Lemma has_char_strip x p s :
  Csv.has_char x s = false -> Csv.has_char x (strip_by p s) = false.
Proof.
  intros H. unfold strip_by. rewrite has_char_rev. apply has_char_lstrip.
  rewrite has_char_rev. by apply has_char_lstrip.
Qed.

Lemma has_char_blank x s :
  is_space x = false -> Env.blank s = true -> Csv.has_char x s = false.
Proof.
  intros Hx. induction s as [|c s IH]; [done|]. simpl. intros [Hc H]%andb_true_iff.
  rewrite (IH H), orb_false_r. apply Ascii.eqb_neq. intros ->. congruence.
Qed.

Lemma split1_go_cut x a b : forall cur,
  Csv.has_char x a = false ->
  split1_go (String x "") cur (a +:+ String x b) = [String.rev cur +:+ a; b].
Proof.
  induction a as [|c a IH]; intros cur H.
  - rewrite append_nil_l, append_nil_r. cbn [split1_go startswith].
    rewrite Ascii.eqb_refl. by destruct b.
  - simpl in H. apply orb_false_iff in H as [Hc H]. rewrite append_cons.
    cbn [split1_go startswith]. rewrite Hc, (IH _ H), rev_cons, append_assoc. done.
Qed.

Lemma split1_go_none x s : forall cur,
  Csv.has_char x s = false -> split1_go (String x "") cur s = [String.rev cur +:+ s].
Proof.
  induction s as [|c s IH]; intros cur H.
  - by rewrite append_nil_r.
  - simpl in H. apply orb_false_iff in H as [Hc H].
    cbn [split1_go startswith]. rewrite Hc, (IH _ H), rev_cons, append_assoc. done.
Qed.

Lemma lstrip_keeps_last p c y :
  p c = false -> exists z, lstrip_by p (y +:+ String c "") = z +:+ String c "".
Proof.
  intros Hc. induction y as [|d y IH].
  - exists "". rewrite !append_nil_l. simpl. by rewrite Hc.
  - rewrite append_cons. simpl. destruct (p d); [done|]. by exists (String d y).
Qed.

Lemma first_clear_rev_append p a b :
  truthy_str b = true ->
  Env.first_clear p (String.rev (a +:+ b)) = Env.first_clear p (String.rev b).
Proof.
  intros H. rewrite rev_append. apply first_clear_append. by rewrite truthy_rev.
Qed.

Lemma first_clear_weaken (p q : ascii -> bool) s :
  (forall c, q c = true -> p c = true) ->
  Env.first_clear p s = true -> Env.first_clear q s = true.
Proof.
  intros Hpq. destruct s as [|c s]; [done|]. simpl. rewrite !negb_true_iff.
  intros Hp. destruct (q c) eqn:Hq; [|done]. by rewrite (Hpq c Hq) in Hp.
Qed.

Lemma no_outer_weaken (p q : ascii -> bool) s :
  (forall c, q c = true -> p c = true) ->
  Env.no_outer p s = true -> Env.no_outer q s = true.
Proof.
  intros Hpq [H1 H2]%andb_true_iff. apply andb_true_iff.
  split; by apply (first_clear_weaken p q).
Qed.

Lemma strip_by_wrap p c s :
  p c = true -> Env.no_outer p s = true ->
  strip_by p (String c "" +:+ s +:+ String c "") = s.
Proof.
  intros Hc H. apply strip_by_pad; [simpl; by rewrite Hc..|done].
Qed.

Lemma no_outer_wrap p c s :
  p c = false -> Env.no_outer p (String c "" +:+ s +:+ String c "") = true.
Proof.
  intros Hc. unfold Env.no_outer. rewrite first_clear_append by done.
  rewrite !rev_append, first_clear_append by done. simpl. by rewrite Hc.
Qed.

(** A line [key = text]: what the loop stores. *)
Lemma env_line_core data lead key mid1 R T :
  Env.blank lead = true -> Env.blank mid1 = true -> Env.blank T = true ->
  truthy_str key = true -> startswith key "#" = false ->
  Csv.has_char "=" key = false ->
  Env.no_outer is_space key = true ->
  Env.first_clear is_space (String.rev (String "=" R)) = true ->
  parse_env_line data (lead +:+ (key +:+ mid1 +:+ String "=" R) +:+ T)
  = <[key := Some (strip_char "034" (strip_char "'" (strip R)))]> data.
Proof.
  intros Hlead Hmid1 HT Hkey Hhash Heq Hk HR. unfold parse_env_line, strip.
  pose proof Hk as [Hk1 Hk2]%andb_true_iff.
  assert (Env.no_outer is_space (key +:+ mid1 +:+ String "=" R) = true) as Hbody.
  { apply andb_true_iff. split; [by rewrite first_clear_append|].
    by rewrite !first_clear_rev_append by (done || by destruct mid1). }
  rewrite (strip_by_pad is_space lead _ T) by done.
  assert (truthy_str (key +:+ mid1 +:+ String "=" R) = true) as -> by (by destruct key).
  assert (startswith (key +:+ mid1 +:+ String "=" R) "#" = false) as ->.
  { destruct key as [|c key]; [done|]. rewrite append_cons. cbn [startswith] in *.
    destruct (Ascii.eqb "#" c); [|done]. by rewrite startswith_nil in Hhash. }
  cbn [negb andb]. unfold split1.
  rewrite <- (append_assoc key mid1), split1_go_cut
    by (by rewrite has_char_append, Heq, (has_char_blank "=" mid1)).
  rewrite append_nil_l.
  by rewrite <- (append_nil_l (key +:+ mid1)), (strip_by_pad is_space "" key mid1).
Qed.

Lemma quoted_value q value :
  q ∈ Env.QUOTES ->
  Env.no_outer is_space value = true ->
  Env.no_outer Env.is_quote value = true ->
  Env.no_outer is_space (q +:+ value +:+ q) = true
  /\ strip_char "034" (strip_char "'" (q +:+ value +:+ q)) = value.
Proof.
  intros Hq Hs Hquote. unfold strip_char.
  assert (Env.no_outer (Ascii.eqb "'") value = true) as H1.
  { apply (no_outer_weaken Env.is_quote); [|done]. intros c Hc. unfold Env.is_quote.
    by rewrite Hc. }
  assert (Env.no_outer (Ascii.eqb "034") value = true) as H2.
  { apply (no_outer_weaken Env.is_quote); [|done]. intros c Hc. unfold Env.is_quote.
    by rewrite Hc, orb_true_r. }
  unfold Env.QUOTES in Hq. rewrite !elem_of_cons, elem_of_nil in Hq.
  destruct Hq as [->|[->|[->|[]]]].
  - rewrite append_nil_l, append_nil_r. split; [done|].
    rewrite (strip_by_id (Ascii.eqb "'")) by done. by apply strip_by_id.
  - split; [by apply no_outer_wrap|]. rewrite strip_by_wrap by done. by apply strip_by_id.
  - split; [by apply no_outer_wrap|].
    rewrite (strip_by_id (Ascii.eqb "'")) by (by apply no_outer_wrap).
    by apply strip_by_wrap.
Qed.

(** X21: How [import_from_csv] reads a line of a [.env] file.  A line of white
    space, a comment (also an indented one) and a line without [=] change
    nothing.  A line [key=value] stores the value under the key, and the
    same value when it is written between single or double quotes; white
    space around the line, around the key and around the value is dropped.
    For this the key is not empty, holds no [=] and does not start with
    [#], and key and value neither start nor end with white space or a
    character outside ASCII, the value not with a quote either. *)
Theorem env_line_read (data : gmap string (option string)) :
  (forall line, Env.blank line = true -> parse_env_line data line = data)
  /\ (forall lead rest, Env.blank lead = true ->
        parse_env_line data (lead +:+ "#" +:+ rest) = data)
  /\ (forall line, Csv.has_char "=" line = false -> parse_env_line data line = data)
  /\ (forall lead key mid1 mid2 q value trail,
        Env.blank lead = true -> Env.blank mid1 = true ->
        Env.blank mid2 = true -> Env.blank trail = true ->
        q ∈ Env.QUOTES ->
        truthy_str key = true ->
        startswith key "#" = false ->
        Csv.has_char "=" key = false ->
        Env.no_outer Env.strippable key = true ->
        Env.no_outer Env.strippable value = true ->
        Env.no_outer Env.is_quote value = true ->
        parse_env_line data
          (lead +:+ key +:+ mid1 +:+ "=" +:+ mid2 +:+ q +:+ value +:+ q +:+ trail)
        = <[key := Some value]> data).
Proof.
  split; [|split; [|split]].
  - intros line Hline. unfold parse_env_line, strip, strip_by.
    by rewrite (lstrip_by_all is_space line).
  - intros lead rest Hlead. unfold parse_env_line, strip, strip_by.
    rewrite lstrip_by_pad by done. rewrite append_cons, append_nil_l.
    cbn [lstrip_by]. change (is_space "#") with false. cbv iota. rewrite rev_cons.
    destruct (lstrip_keeps_last is_space "#" (String.rev rest)) as [z ->]; [done|].
    rewrite rev_append. change (String.rev "#") with "#". rewrite append_cons.
    cbn [truthy_str startswith andb]. by rewrite Ascii.eqb_refl, startswith_nil.
  - intros line Hline. unfold parse_env_line.
    destruct (truthy_str _ && negb _); [|done]. unfold split1.
    by rewrite split1_go_none by (by apply has_char_strip).
  - intros lead key mid1 mid2 q value trail Hlead Hmid1 Hmid2 Htrail Hq Hkey Hhash Heq Hk Hv Hquote.
    assert (forall c, is_space c = true -> Env.strippable c = true) as Hweak.
    { intros c Hc. unfold Env.strippable. by rewrite Hc. }
    apply (no_outer_weaken _ is_space _ Hweak) in Hk, Hv.
    destruct (quoted_value q value Hq Hv Hquote) as [Hbody Hstrip].
    destruct (truthy_str (q +:+ value +:+ q)) eqn:Ebody.
    + replace (lead +:+ key +:+ mid1 +:+ "=" +:+ mid2 +:+ q +:+ value +:+ q +:+ trail)
        with (lead +:+ (key +:+ mid1 +:+ String "=" (mid2 +:+ q +:+ value +:+ q)) +:+ trail)
        by (by rewrite !append_assoc, !append_cons, !append_nil_l, !append_assoc).
      rewrite env_line_core; try done.
      * unfold strip. by rewrite (strip_by_lead is_space mid2), Hstrip.
      * apply andb_true_iff in Hbody as [_ Hlast].
        change (String "=" (mid2 +:+ q +:+ value +:+ q))
          with ("=" +:+ mid2 +:+ q +:+ value +:+ q).
        rewrite (first_clear_rev_append _ "=")
          by (by rewrite truthy_append, Ebody, orb_true_r).
        by rewrite first_clear_rev_append.
    + assert (q = "" /\ value = "") as [-> ->].
      { destruct q; [|done]. rewrite append_nil_l, append_nil_r in Ebody. by destruct value. }
      rewrite !append_nil_l.
      replace (lead +:+ key +:+ mid1 +:+ "=" +:+ mid2 +:+ trail)
        with (lead +:+ (key +:+ mid1 +:+ String "=" "") +:+ (mid2 +:+ trail))
        by (by rewrite !append_assoc, !append_cons, !append_nil_l).
      rewrite env_line_core; try done.
      unfold Env.blank in *. by rewrite all_chars_append, Hmid2, Htrail.
Qed.

(** ** A key with several records *)

Section Repeated.

Import ManageTab AccountList.

(** X13: [update_csv_file] changes the first record of a key and
    [parse_csv_file] reads the last one: in a file that names a key more
    than once, a value written for it is stored in the file and not read
    back, the key reads as before. *)
Theorem update_of_repeated_key csv_file key val (w : world) header rows :
  files w !! csv_file = Some (header :: rows) ->
  keyed key header = false ->
  (2 <= occurrences key rows)%nat ->
  exists w' rows',
    update_csv_file csv_file [(key, val)] w = (Ok tt, w')
    /\ files w' !! csv_file = Some (header :: rows')
    /\ values_of key rows' = val :: tail (values_of key rows)
    /\ parse_csv_file csv_file w' !! key = parse_csv_file csv_file w !! key.
Proof.
  intros Hfile Hheader Hocc. unfold update_csv_file. rewrite Hfile.
  cbn [fold_left fst snd]. rewrite set_field_header by done.
  eexists. exists (set_field key val rows). split; [reflexivity|].
  cbn [files]. rewrite lookup_insert_eq. split; [done|].
  split; [by rewrite set_field_values, decide_True|].
  unfold parse_csv_file. cbn [files]. rewrite lookup_insert_eq, Hfile.
  rewrite !fold_parse_lookup, set_field_values, decide_True by done.
  unfold occurrences in Hocc.
  destruct (values_of key rows) as [|x [|y l]]; simpl in Hocc; try lia.
  destruct (account_defaults !! key) as [v0|]; [|done].
  cbn [fmap option_fmap option_map tail]. by rewrite !last_cons.
Qed.

End Repeated.

(** ** The statements above at the concrete inputs *)

Ltac single_records_of :=
  cbn [AccountList.single_records fmap list_fmap fst]; intros key Hkey;
  rewrite !elem_of_cons, elem_of_nil in Hkey;
  repeat (destruct Hkey as [->|Hkey]; [split; vm_compute; [reflexivity|lia]|]);
  destruct Hkey.




(** The list of the two backup files. *)
Lemma refresh_list_shows_files_witness :
  ManageTab.files (AccountList.refresh_list [FILE_1; FILE_2] example_backups)
  = ManageTab.files example_backups
  /\ ManageTab.ui (AccountList.refresh_list [FILE_1; FILE_2] example_backups)
     = ManageTab.ui example_backups.
Proof.
  destruct (refresh_list_shows_files [FILE_1; FILE_2] example_backups) as (Hf & Hu & _).
  - apply (bool_decide_unpack _). vm_compute. reflexivity.
  - split; [exact Hf|exact Hu].
Defined.

(** The backup of the first account, which has no quota: the email is
    read back, the quota reads as the sentinel. *)
Lemma backup_file_read_back_witness :
  ManageTab.parse_csv_file FILE_1 written_backup !! "EMAIL" = Some "a@example.com"
  /\ ManageTab.parse_csv_file FILE_1 written_backup !! "QUOTA" = Some ManageTab.UNKNOWN.
Proof.
  assert (forall i key, (i, key) ∈ import_columns ->
            Csv.plain (csv_cell str_int (Pg.cell i example_row)) = true) as Hplain.
  { intros i key. unfold import_columns. rewrite !elem_of_cons, elem_of_nil.
    intros [H|[H|[H|[H|[H|[H|[H|[H|[]]]]]]]]]; injection H as -> ->; reflexivity. }
  split.
  - apply (backup_file_read_back str_int example_row example_backup_data FILE_1
             written_backup eq_refl Hplain eq_refl 2%nat "EMAIL"). in_list.
  - apply (backup_file_read_back str_int example_row example_backup_data FILE_1
             written_backup eq_refl Hplain eq_refl 7%nat "QUOTA"). in_list.
Defined.

(** The quota written into the file that names it twice. *)
Lemma update_of_repeated_key_witness :
  exists w' rows',
    ManageTab.update_csv_file FILE_1 [("QUOTA", "3 / 50")] repeated_quota = (Ok tt, w')
    /\ ManageTab.files w' !! FILE_1 = Some (["variable"; "value"] :: rows')
    /\ AccountList.values_of "QUOTA" rows' = ["3 / 50"; "2 / 50"]
    /\ ManageTab.parse_csv_file FILE_1 w' !! "QUOTA" = Some "2 / 50".
Proof.
  destruct (update_of_repeated_key FILE_1 "QUOTA" "3 / 50" repeated_quota
              ["variable"; "value"]
              [["EMAIL"; "a@example.com"]; ["QUOTA"; "1 / 50"]; ["QUOTA"; "2 / 50"]])
    as (w' & rows' & Hup & Hfile & Hvalues & Hread).
  - vm_compute. reflexivity.
  - reflexivity.
  - vm_compute. lia.
  - exists w', rows'. split; [exact Hup|]. split; [exact Hfile|]. split; [exact Hvalues|].
    rewrite Hread. vm_compute. reflexivity.
Defined.

(** An indented line with spaces around the sign and a quoted value, as
    the file yields it. *)
Lemma env_line_read_witness :
  parse_env_line ∅
    ("  " +:+ "EMAIL" +:+ " " +:+ "=" +:+ " " +:+ "'" +:+ "a@example.com" +:+ "'"
     +:+ RegisterTab.newline)
  = <["EMAIL" := Some "a@example.com"]> ∅.
Proof.
  destruct (env_line_read ∅) as (_ & _ & _ & H).
  apply (H "  " "EMAIL" " " " " "'" "a@example.com" RegisterTab.newline);
    try reflexivity.
  in_list.
Defined.
